(** * pixel-perfect: the half-block compositor, the gallery slider and the
    terminal browser, embedded from [src/generate.js] and [src/run.js].

    JavaScript numbers that hold sizes, indices and times are integers
    here: [nat] for pixel coordinates and buffer offsets, [Z] for the
    browser's selection, scroll and clock arithmetic (which can go
    negative), and [option Z] where the source can produce [NaN].
    A JavaScript string is a [string] whose characters are its code
    units, all below 256.  Handlers are functions from the state before
    an event to the state after it; what they read from outside (the
    clock, the file system, the terminal size, the image generator's
    answer) is an argument. *)

From Stdlib Require Import ZArith List String Ascii Bool Lia Arith.
From Stdlib.Strings Require Import Byte.
From Stdlib Require Import DecimalString DecimalNat.
From Stdlib Require Import Sorting.Sorted Sorting.Permutation.
Import ListNotations.

Local Open Scope string_scope.
Local Open Scope list_scope.
Local Open Scope nat_scope.

(** ** Pieces of the JavaScript runtime the sources rely on *)

Module JS.

(** A call either completes or throws; both leave a state behind. *)
Inductive Completion (S : Type) : Type :=
| Normal (s : S)
| Thrown (s : S).
Arguments Normal {S} s.
Arguments Thrown {S} s.

(** [`${n}`] for a non-negative integer [n]: its decimal digits. *)
Definition Number_toString (n : nat) : string :=
  NilEmpty.string_of_uint (Nat.to_uint n).

(** The escape character [\x1b]. *)
Definition ESC : string := String "027"%char EmptyString.

(** [a[i]] for an array and an integer index: [None] is [undefined]. *)
Definition index {A : Type} (a : list A) (i : Z) : option A :=
  if (i <? 0)%Z then None else nth_error a (Z.to_nat i).

(** [a.length] *)
Definition len {A : Type} (a : list A) : Z := Z.of_nat (List.length a).

(** [Math.ceil(a / b)] for integers [a] and [b > 0]. *)
Definition ceilDiv (a b : Z) : Z := (- ((- a) / b))%Z.

(** [v || d] for a number that may be [undefined]: [0] is falsy too. *)
Definition orElse (v : option Z) (d : Z) : Z :=
  match v with
  | Some n => if (n =? 0)%Z then d else n
  | None => d
  end.

(** *** Strings *)

(** [s.startsWith(p)] *)
Fixpoint startsWith (s p : string) : bool :=
  match p with
  | EmptyString => true
  | String b p' =>
      match s with
      | EmptyString => false
      | String a s' => Ascii.eqb a b && startsWith s' p'
      end
  end.

(** [s.includes(c)] for a one-character [c]. *)
Fixpoint includes (s : string) (c : ascii) : bool :=
  match s with
  | EmptyString => false
  | String a s' => Ascii.eqb a c || includes s' c
  end.

(** [s.charCodeAt(i)]: [None] is [NaN]. *)
Definition charCodeAt (s : string) (i : nat) : option Z :=
  option_map (fun c => Z.of_nat (nat_of_ascii c)) (String.get i s).

(** [s.slice(start, end)], negative positions counting from the end. *)
Definition slice (s : string) (start end_ : Z) : string :=
  let n := Z.of_nat (String.length s) in
  let from := if (start <? 0)%Z then Z.max (n + start) 0 else Z.min start n in
  let to := if (end_ <? 0)%Z then Z.max (n + end_) 0 else Z.min end_ n in
  String.substring (Z.to_nat from) (Z.to_nat (to - from)) s.

(** [s.split(sep)] for a one-character separator. *)
Fixpoint split (s : string) (sep : ascii) : list string :=
  match s with
  | EmptyString => [EmptyString]
  | String c s' =>
      if Ascii.eqb c sep then EmptyString :: split s' sep
      else match split s' sep with
           | h :: t => String c h :: t
           | [] => [String c EmptyString]
           end
  end.

(** White space that [parseInt] skips (the one-byte ones). *)
Definition isWhiteSpace (c : ascii) : bool :=
  let n := nat_of_ascii c in
  (n =? 32) || ((9 <=? n) && (n <=? 13)).

Fixpoint trimStart (s : string) : string :=
  match s with
  | String c s' => if isWhiteSpace c then trimStart s' else s
  | EmptyString => EmptyString
  end.

(** The value of a character as a digit of some radix up to 36. *)
Definition digitValue (c : ascii) : option Z :=
  let n := nat_of_ascii c in
  if (48 <=? n) && (n <=? 57) then Some (Z.of_nat (n - 48))
  else if (97 <=? n) && (n <=? 122) then Some (Z.of_nat (n - 87))
  else if (65 <=? n) && (n <=? 90) then Some (Z.of_nat (n - 55))
  else None.

(** The longest prefix of digits below [radix], read left to right;
    [acc] is [None] until a digit has been read. *)
Fixpoint parseDigits (radix : Z) (s : string) (acc : option Z) : option Z :=
  match s with
  | EmptyString => acc
  | String c s' =>
      match digitValue c with
      | Some d =>
          if (d <? radix)%Z then
            parseDigits radix s'
              (Some (match acc with
                     | Some a => a * radix + d
                     | None => d
                     end)%Z)
          else acc
      | None => acc
      end
  end.

(** [parseInt(s)] without a radix argument: leading white space, a sign,
    a [0x] prefix for base sixteen, then digits; [None] is [NaN]. *)
Definition parseInt (s : string) : option Z :=
  let s1 := trimStart s in
  let '(sign, s2) :=
    match s1 with
    | String "-"%char r => ((-1)%Z, r)
    | String "+"%char r => (1%Z, r)
    | _ => (1%Z, s1)
    end in
  let '(radix, s3) :=
    match s2 with
    | String "0"%char (String "x"%char r) => (16%Z, r)
    | String "0"%char (String "X"%char r) => (16%Z, r)
    | _ => (10%Z, s2)
    end in
  option_map (Z.mul sign) (parseDigits radix s3 None).

Definition toLowerAscii (c : ascii) : ascii :=
  let n := nat_of_ascii c in
  if (65 <=? n) && (n <=? 90) then ascii_of_nat (n + 32) else c.

(** [s.toLowerCase()] on one-byte characters. *)
Fixpoint toLowerCase (s : string) : string :=
  match s with
  | EmptyString => EmptyString
  | String c s' => String (toLowerAscii c) (toLowerCase s')
  end.

(** *** path *)

(** The position of the last ['.'] of [s], counting from [i]. *)
Fixpoint lastDot (s : string) (i : nat) (found : option nat) : option nat :=
  match s with
  | EmptyString => found
  | String c s' =>
      lastDot s' (S i) (if Ascii.eqb c "."%char then Some i else found)
  end.

(** [path.extname(name)] for a name without a separator: from the last
    dot on, and empty when there is no dot, when the only dot leads the
    name, and for [".."]. *)
Definition extname (name : string) : string :=
  match lastDot name 0 None with
  | None => EmptyString
  | Some 0 => EmptyString
  | Some k =>
      if String.eqb name ".." then EmptyString
      else String.substring k (String.length name - k) name
  end.

Fixpoint endsWithSlash (s : string) : bool :=
  match s with
  | EmptyString => false
  | String c EmptyString => Ascii.eqb c "/"%char
  | String _ s' => endsWithSlash s'
  end.

(** [path.join(dir, name)] for a normalized absolute [dir] and a name
    without a separator. *)
Definition join (dir name : string) : string :=
  (if endsWithSlash dir then dir ++ name else dir ++ "/" ++ name)%string.

(** The loop of [path.dirname]: [rcs] are the characters from position
    [i] down to position 1; the answer is the position of the last
    separator that has a name after it. *)
Fixpoint dirnameEnd (rcs : list ascii) (i : nat) (matchedSlash : bool)
  : option nat :=
  match rcs with
  | [] => None
  | c :: rcs' =>
      if Ascii.eqb c "/"%char then
        if matchedSlash then dirnameEnd rcs' (i - 1) matchedSlash else Some i
      else dirnameEnd rcs' (i - 1) false
  end.

(** [path.dirname(p)] (POSIX). *)
Definition dirname (p : string) : string :=
  match p with
  | EmptyString => "."
  | String c0 rest =>
      let hasRoot := Ascii.eqb c0 "/"%char in
      match dirnameEnd (rev (list_ascii_of_string rest))
                       (String.length p - 1) true with
      | None => if hasRoot then "/" else "."
      | Some e =>
          if hasRoot && (e =? 1) then "//"
          else String.substring 0 e p
      end
  end.

(** *** Arrays *)

(** Where [x] goes in an array already in order: before the first
    element it does not compare above. *)
Fixpoint insert {A : Type} (cmp : A -> A -> Z) (x : A) (l : list A) : list A :=
  match l with
  | [] => [x]
  | y :: l' => if (cmp x y <=? 0)%Z then x :: l else y :: insert cmp x l'
  end.

(** [a.sort(cmp)]: the sort is stable (ECMAScript 2019), and for a
    consistent comparator every stable sort returns the same array; this
    one is insertion sort. *)
Fixpoint sort {A : Type} (cmp : A -> A -> Z) (a : list A) : list A :=
  match a with
  | [] => []
  | x :: a' => insert cmp x (sort cmp a')
  end.

(** [a.indexOf(s)] on an array of strings, [-1] when absent. *)
Fixpoint indexOfFrom (a : list string) (s : string) (i : Z) : Z :=
  match a with
  | [] => (-1)%Z
  | h :: a' => if String.eqb h s then i else indexOfFrom a' s (i + 1)%Z
  end.

Definition indexOf (a : list string) (s : string) : Z := indexOfFrom a s 0%Z.

(** [a.map((v, index) => f(v, index))], the indices counted from
    [index]. *)
Fixpoint mapi {A B : Type} (f : A -> nat -> B) (a : list A) (index : nat)
  : list B :=
  match a with
  | [] => []
  | v :: a' => f v index :: mapi f a' (S index)
  end.

(** *** JSON and UTF-8 *)

(** The double quote and the line feed. *)
Definition quote : string := String "034"%char EmptyString.
Definition newline : string := String "010"%char EmptyString.

Definition hexDigit (n : nat) : ascii :=
  match n with
  | 0 => "0" | 1 => "1" | 2 => "2" | 3 => "3" | 4 => "4" | 5 => "5"
  | 6 => "6" | 7 => "7" | 8 => "8" | 9 => "9" | 10 => "a" | 11 => "b"
  | 12 => "c" | 13 => "d" | 14 => "e" | _ => "f"
  end%char.

(** What [JSON.stringify] makes of one code unit of a string: the short
    escapes, [\u00XX] for the other control characters, the quote and the
    backslash escaped, everything else as it is. *)
Definition quoteJSONChar (c : ascii) : string :=
  let n := nat_of_ascii c in
  if n =? 8 then "\b"
  else if n =? 9 then "\t"
  else if n =? 10 then "\n"
  else if n =? 12 then "\f"
  else if n =? 13 then "\r"
  else if n =? 34 then ("\" ++ quote)%string
  else if n =? 92 then "\\"
  else if n <? 32 then
    ("\u00" ++ String (hexDigit (n / 16)) (String (hexDigit (n mod 16)) EmptyString))%string
  else String c EmptyString.

Fixpoint flatMapString (f : ascii -> string) (s : string) : string :=
  match s with
  | EmptyString => EmptyString
  | String c s' => (f c ++ flatMapString f s')%string
  end.

(** [JSON.stringify(s)] for a string. *)
Definition JSON_stringify (s : string) : string :=
  (quote ++ flatMapString quoteJSONChar s ++ quote)%string.

(** The bytes a stream writes for one code unit below 256. *)
Definition utf8Char (c : ascii) : string :=
  let n := nat_of_ascii c in
  if n <? 128 then String c EmptyString
  else String (ascii_of_nat (192 + n / 64))
         (String (ascii_of_nat (128 + n mod 64)) EmptyString).

Definition utf8 (s : string) : string := flatMapString utf8Char s.

End JS.

(** ** generate.js : Generator.imageToData *)

Module Generator.

Inductive Glyph : Type :=
| UPPER_HALF_BLOCK   (* '▀' *)
| LOWER_HALF_BLOCK   (* '▄' *)
| SPACE.             (* ' ' *)

Definition Glyph_eqb (a b : Glyph) : bool :=
  match a, b with
  | UPPER_HALF_BLOCK, UPPER_HALF_BLOCK => true
  | LOWER_HALF_BLOCK, LOWER_HALF_BLOCK => true
  | SPACE, SPACE => true
  | _, _ => false
  end.

(** An element of the [cells] array: [{x, y, char, ansi}]. *)
Record Cell : Type := mkCell {
  cell_x : nat;
  cell_y : nat;
  cell_char : Glyph;
  cell_ansi : string
}.

(** [info] of sharp's raw output. *)
Record Info : Type := mkInfo {
  width : nat;
  height : nat;
  channels : nat
}.

(** The argument of [imageToData]: [{data, info}]. *)
Record ImageData : Type := mkImageData {
  data : list byte;
  info : Info
}.

(** [data[i]]: the byte as a number, [None] for [undefined] (an index past
    the end of the buffer). *)
Definition at_ (d : list byte) (i : nat) : option nat :=
  option_map Byte.to_nat (nth_error d i).

(** [v >= 128] on a value that may be [undefined] ([undefined >= 128] is
    false). *)
Definition ge128 (v : option nat) : bool :=
  match v with
  | Some n => 128 <=? n
  | None => false
  end.

(** [`${v}`] on a value that may be [undefined]. *)
Definition show (v : option nat) : string :=
  match v with
  | Some n => JS.Number_toString n
  | None => "undefined"
  end.

(** [`\x1b[38;2;${r};${g};${b}m`] *)
Definition sgr38 (r g b : option nat) : string :=
  (JS.ESC ++ "[38;2;" ++ show r ++ ";" ++ show g ++ ";" ++ show b ++ "m")%string.

(** [`\x1b[48;2;${r};${g};${b}m`] *)
Definition sgr48 (r g b : option nat) : string :=
  (JS.ESC ++ "[48;2;" ++ show r ++ ";" ++ show g ++ ";" ++ show b ++ "m")%string.

Definition maxCells : nat := Z.to_nat 100000.

(** The body of the inner loop up to the [if (char !== ' ')] test: the
    glyph and the style chosen for column [x] of the scanline pair
    [(y, y+1)]. *)
Definition pairGlyph (img : ImageData) (x y : nat) : Glyph * string :=
  let d := data img in
  let w := width (info img) in
  let ch := channels (info img) in
  let upperIndex := (y * w + x) * ch in
  let lowerIndex := ((y + 1) * w + x) * ch in
  let upperA := if ch =? 4 then at_ d (upperIndex + 3) else Some 255 in
  let lowerA := if ch =? 4 then at_ d (lowerIndex + 3) else Some 255 in
  if ge128 upperA && ge128 lowerA then
    (UPPER_HALF_BLOCK,
     (sgr38 (at_ d upperIndex) (at_ d (upperIndex + 1)) (at_ d (upperIndex + 2)) ++
      sgr48 (at_ d lowerIndex) (at_ d (lowerIndex + 1)) (at_ d (lowerIndex + 2)))%string)
  else if ge128 upperA then
    (UPPER_HALF_BLOCK,
     sgr38 (at_ d upperIndex) (at_ d (upperIndex + 1)) (at_ d (upperIndex + 2)))
  else if ge128 lowerA then
    (LOWER_HALF_BLOCK,
     sgr38 (at_ d lowerIndex) (at_ d (lowerIndex + 1)) (at_ d (lowerIndex + 2)))
  else
    (SPACE, "").

(** Where a loop stands: still running with the cells pushed so far and
    their count, or left through the [return cells] of the safety bound. *)
Inductive Flow : Type :=
| Running (cells : list Cell) (cellCount : nat)
| Returned (cells : list Cell).

(** [for (let x = 0; x < width; x++) { ... }], over the values [xs] that
    [x] still has to take. *)
Fixpoint forX (img : ImageData) (y : nat) (xs : list nat)
         (cells : list Cell) (cellCount : nat) : Flow :=
  match xs with
  | [] => Running cells cellCount
  | x :: xs' =>
      let '(char, ansi) := pairGlyph img x y in
      if Glyph_eqb char SPACE then forX img y xs' cells cellCount
      else
        let cells' := cells ++ [mkCell x (y / 2) char ansi] in
        let cellCount' := S cellCount in
        if maxCells <=? cellCount' then Returned cells'
        else forX img y xs' cells' cellCount'
  end.

(** [for (let y = 0; y < height - 1; y += 2) { ... }], over the values
    [ys] that [y] still has to take. *)
Fixpoint forY (img : ImageData) (ys : list nat)
         (cells : list Cell) (cellCount : nat) : Flow :=
  match ys with
  | [] => Running cells cellCount
  | y :: ys' =>
      match forX img y (seq 0 (width (info img))) cells cellCount with
      | Returned cs => Returned cs
      | Running cs n => forY img ys' cs n
      end
  end.

(** The values [y] takes: the even numbers below [height - 1]. *)
Definition scanlines (img : ImageData) : list nat :=
  filter Nat.even (seq 0 (height (info img) - 1)).

Definition imageToData (img : ImageData) : list Cell :=
  match forY img (scanlines img) [] 0 with
  | Returned cs => cs
  | Running cs _ => cs
  end.

(** ** generate.js : Generator.save and Generator.generate *)

(** The bytes of a glyph in the file: ['▀'] is U+2580, ['▄'] U+2584. *)
Definition Glyph_utf8 (g : Glyph) : string :=
  match g with
  | UPPER_HALF_BLOCK =>
      String "226"%char (String "150"%char (String "128"%char EmptyString))
  | LOWER_HALF_BLOCK =>
      String "226"%char (String "150"%char (String "132"%char EmptyString))
  | SPACE => " "
  end.

Definition chunkSize : nat := 1000.

(** The [line] of a cell, as the bytes the stream writes for it. *)
Definition saveLine (cell : Cell) (comma : string) : string :=
  let escapedAnsi := JS.slice (JS.JSON_stringify (cell_ansi cell)) 1 (-1) in
  ("{ " ++ JS.quote ++ "x" ++ JS.quote ++ ": " ++ JS.Number_toString (cell_x cell)
   ++ ", " ++ JS.quote ++ "y" ++ JS.quote ++ ": " ++ JS.Number_toString (cell_y cell)
   ++ ", " ++ JS.quote ++ "char" ++ JS.quote ++ ": "
   ++ JS.quote ++ Glyph_utf8 (cell_char cell) ++ JS.quote
   ++ ", " ++ JS.quote ++ "ansi" ++ JS.quote ++ ": "
   ++ JS.quote ++ JS.utf8 escapedAnsi ++ JS.quote ++ " }" ++ comma)%string.

(** The body of the loop of [save] for the chunk that starts at [i]:
    what it hands to [writeStream.write]. *)
Definition saveChunk (data : list Cell) (i : nat) : string :=
  let chunk := firstn chunkSize (skipn i data) in
  let chunkCode :=
    String.concat JS.newline
      (JS.mapi
         (fun cell index =>
            let isLastInChunk := index =? List.length chunk - 1 in
            let isLastChunk := List.length data <=? i + chunkSize in
            let comma := if isLastInChunk && isLastChunk then "" else "," in
            saveLine cell comma)
         chunk 0) in
  (chunkCode ++ JS.newline)%string.

(** The values [i] takes in
    [for (let i = 0; i < data.length; i += chunkSize)]. *)
Definition chunkStarts (data : list Cell) : list nat :=
  filter (fun i => i mod chunkSize =? 0) (seq 0 (List.length data)).

(** [save(data, originalImagePath)]: the strings written to the stream,
    in order. *)
Definition save (data : list Cell) : list string :=
  [("[" ++ JS.newline)%string]
  ++ map (saveChunk data) (chunkStarts data)
  ++ [("]" ++ JS.newline)%string].

(** What a call of [generate] that runs to its end leaves behind: the
    cells handed to [display] and the strings [save] writes.  The
    function returns nothing. *)
Record Generation : Type := mkGeneration {
  displayed : list Cell;
  written : list string
}.

(** [generate(imagePath, sizeX, sizeY)]; [raw] is the resized raw image
    sharp delivers, [None] where sharp fails and the promise rejects. *)
Definition generate (raw : option ImageData) : option Generation :=
  match raw with
  | None => None
  | Some fullSizeImage =>
      let fullSizeData := imageToData fullSizeImage in
      Some (mkGeneration fullSizeData (save fullSizeData))
  end.

End Generator.

(** ** run.js : ImageGallerySlider *)

Module ImageGallerySlider.

Local Open Scope Z_scope.

(** What [generator.generate] resolves to: an array of cells, or the
    packed form [{t, d}] (a table of styles and rows [[x, y, char, i]]). *)
Inductive Art : Type :=
| Cells (cells : list Generator.Cell)
| Packed (t : list string) (d : list (nat * nat * Generator.Glyph * nat)).

(** The outcome of [await this.generator.generate(currentPath)]: the
    promise rejects, or resolves to a value that may be [undefined]. *)
Inductive Generated : Type :=
| Rejects
| Resolves (art : option Art).

Record t : Type := mk {
  imagePaths : list string;
  currentIndex : Z;
  isNavigating : bool;
  terminalWidth : Z;
  terminalHeight : Z;
  scrollOffset : Z;
  imageData : option Art;
  imageHeight : Z
}.

Definition set_currentIndex (v : Z) (g : t) : t :=
  mk (imagePaths g) v (isNavigating g) (terminalWidth g) (terminalHeight g)
     (scrollOffset g) (imageData g) (imageHeight g).

Definition set_isNavigating (v : bool) (g : t) : t :=
  mk (imagePaths g) (currentIndex g) v (terminalWidth g) (terminalHeight g)
     (scrollOffset g) (imageData g) (imageHeight g).

Definition set_scrollOffset (v : Z) (g : t) : t :=
  mk (imagePaths g) (currentIndex g) (isNavigating g) (terminalWidth g)
     (terminalHeight g) v (imageData g) (imageHeight g).

Definition set_imageData (v : option Art) (g : t) : t :=
  mk (imagePaths g) (currentIndex g) (isNavigating g) (terminalWidth g)
     (terminalHeight g) (scrollOffset g) v (imageHeight g).

Definition set_imageHeight (v : Z) (g : t) : t :=
  mk (imagePaths g) (currentIndex g) (isNavigating g) (terminalWidth g)
     (terminalHeight g) (scrollOffset g) (imageData g) v.

Definition set_terminalSize (w h : Z) (g : t) : t :=
  mk (imagePaths g) (currentIndex g) (isNavigating g) w h
     (scrollOffset g) (imageData g) (imageHeight g).

(** [new ImageGallerySlider(imagePaths, startIndex, generator)], with
    [process.stdout.columns] and [process.stdout.rows] as it finds them. *)
Definition constructor (paths : list string) (startIndex : Z)
           (columns rows : option Z) : t :=
  mk paths startIndex false (JS.orElse columns 80) (JS.orElse rows 24) 0 None 0.

(** The [y] of every cell, whichever form the art has. *)
Definition cellRows (a : Art) : list Z :=
  match a with
  | Cells cells => map (fun c => Z.of_nat (Generator.cell_y c)) cells
  | Packed _ d => map (fun c => match c with (_, y, _, _) => Z.of_nat y end) d
  end.

Definition calculateImageDimensions (g : t) : t :=
  match imageData g with
  | None => g
  | Some a =>
      set_imageHeight (fold_left (fun max y => Z.max max y) (cellRows a) 0 + 1) g
  end.

(** [displayWithNavigation] paints the rows from [scrollOffset] on and
    installs the key handler again; nothing of the slider's fields
    changes. *)
Definition displayWithNavigation (g : t) : t := g.

Definition showCurrentImage (r : Generated) (g : t) : JS.Completion t :=
  if JS.len (imagePaths g) =? 0 then JS.Normal g
  else
    match JS.index (imagePaths g) (currentIndex g) with
    | None => JS.Thrown g                (* path.basename(undefined) *)
    | Some currentPath =>
        match r with
        | Resolves art =>
            let g := set_imageData art g in
            let g := calculateImageDimensions g in
            let g := set_scrollOffset 0 g in
            JS.Normal (displayWithNavigation g)
        | Rejects => JS.Normal g         (* showNavigationHelp *)
        end
    end.

(** The resize handler: new terminal size, then the image again. *)
Definition resizeHandler (columns rows : option Z) (r : Generated) (g : t)
  : JS.Completion t :=
  showCurrentImage r (set_terminalSize (JS.orElse columns 80) (JS.orElse rows 24) g).

(** How [handleKey] ends. *)
Inductive Outcome : Type :=
| Handled (g : t)        (* ran to its end *)
| Uncaught (g : t)       (* an exception escaped *)
| Exited (g : t)         (* ESC: onExit(), back to the browser *)
| ProcessExit.           (* q: process.exit(0) *)

Definition keyLeft : string := (JS.ESC ++ "[D")%string.
Definition keyRight : string := (JS.ESC ++ "[C")%string.
Definition keyUp : string := (JS.ESC ++ "[A")%string.
Definition keyDown : string := (JS.ESC ++ "[B")%string.

(** [handleKey(key)]; [r] is what the generator answers if the key makes
    the slider load an image. *)
Definition handleKey (key : string) (r : Generated) (g : t) : Outcome :=
  if isNavigating g then Handled g
  else
    let g := set_isNavigating true g in
    if String.eqb key "q" || String.eqb key "Q" then ProcessExit
    else if String.eqb key JS.ESC then Exited g
    else if String.eqb key keyLeft then
      if currentIndex g >? 0 then
        match showCurrentImage r (set_currentIndex (currentIndex g - 1) g) with
        | JS.Normal g' => Handled (set_isNavigating false g')
        | JS.Thrown g' => Uncaught g'
        end
      else Handled (set_isNavigating false g)
    else if String.eqb key keyRight then
      if currentIndex g <? JS.len (imagePaths g) - 1 then
        match showCurrentImage r (set_currentIndex (currentIndex g + 1) g) with
        | JS.Normal g' => Handled (set_isNavigating false g')
        | JS.Thrown g' => Uncaught g'
        end
      else Handled (set_isNavigating false g)
    else if String.eqb key keyUp then
      if scrollOffset g >? 0 then
        let g := set_scrollOffset (Z.max 0 (scrollOffset g - 1)) g in
        Handled (set_isNavigating false (displayWithNavigation g))
      else Handled (set_isNavigating false g)
    else if String.eqb key keyDown then
      let availableHeight := terminalHeight g - 6 in
      let maxScrollOffset := Z.max 0 (imageHeight g - availableHeight) in
      if scrollOffset g <? maxScrollOffset then
        let g := set_scrollOffset (Z.min maxScrollOffset (scrollOffset g + 1)) g in
        Handled (set_isNavigating false (displayWithNavigation g))
      else Handled (set_isNavigating false g)
    else Handled (set_isNavigating false g).

(** *** What is on screen *)

(** [display.length] in [displayWithNavigation]: one row more than the
    largest [y] of a cell. *)
Definition displayLength (a : Art) : Z :=
  fold_left (fun max y => Z.max max y) (cellRows a) 0 + 1.

(** The rows of the image that [displayWithNavigation] writes, top to
    bottom: from [scrollOffset] up to [availableHeight] rows, as far as
    the image goes (for a [scrollOffset] that is not negative, as the
    slider keeps it). *)
Definition printedRows (g : t) : list Z :=
  match imageData g with
  | None => []
  | Some a =>
      let availableHeight := terminalHeight g - 6 in
      let startY := scrollOffset g in
      let endY := Z.min (startY + availableHeight) (displayLength a) in
      filter (fun y => y <? displayLength a)
             (map (fun i => startY + Z.of_nat i) (seq 0 (Z.to_nat (endY - startY))))
  end.

(** *** The generator of generate.js behind the slider *)

(** [await this.generator.generate(currentPath)] where the generator is
    the [Generator] of generate.js: its [generate] returns nothing, so
    the promise, where it does not reject, resolves to [undefined]. *)
Definition awaitGenerate (r : option Generator.Generation) : Generated :=
  match r with
  | None => Rejects
  | Some _ => Resolves None
  end.

End ImageGallerySlider.
(** ** run.js : TerminalGUI *)

Module TerminalGUI.

Local Open Scope Z_scope.

Definition SUPPORTED_EXTENSIONS : list string :=
  [".jpg"; ".jpeg"; ".png"; ".gif"; ".bmp"; ".webp"; ".tiff"; ".tga"; ".svg"].

Inductive ItemType : Type := directory | file.

Definition ItemType_eqb (a b : ItemType) : bool :=
  match a, b with
  | directory, directory => true
  | file, file => true
  | _, _ => false
  end.

(** An element of [this.files]. *)
Record Item : Type := mkItem {
  name : string;
  path : string;
  type : ItemType;
  size : Z;
  extension : string
}.

Inductive ViewMode : Type := list_view | grid_view.

(** What [fs.statSync] answers. *)
Record Stats : Type := mkStats {
  isDirectory : bool;
  stat_size : Z
}.

(** What the browser asks of its host: the collation behind
    [String.prototype.localeCompare], the file system ([None] when the
    call throws), and the terminal size ([None] for [undefined]). *)
Record Host : Type := mkHost {
  localeCompare : string -> string -> Z;
  readdirSync : string -> option (list string);
  statSync : string -> option Stats;
  stdout_columns : option Z;
  stdout_rows : option Z
}.

(** What a handler did that shows outside the object, in call order. *)
Inductive Effect : Type :=
| Rendered
| RenderedWithClear
| EnteredDirectory (dirPath : string)
| GalleryStarted (imagePaths : list string) (currentIndex : Z).

(** The fields of a [TerminalGUI] that navigation reads and writes, and
    [log], the effects so far.  [useTripleText] is absent (falsy) until
    [calculateGridDimensions] first sets it. *)
Record t : Type := mk {
  currentDirectory : string;
  files : list Item;
  selectedIndex : Z;
  scrollOffset : Z;
  viewMode : ViewMode;
  terminalWidth : Z;
  terminalHeight : Z;
  maxDisplayLines : Z;
  lastClickTime : Z;
  lastClickTarget : option string;
  doubleClickThreshold : Z;
  mouseEnabled : bool;
  hoverIndex : Z;
  scrollMode : bool;
  useTripleText : bool;
  activeGallery : option ImageGallerySlider.t;
  log : list Effect
}.

Definition set_currentDirectory (v : string) (s : t) : t :=
  mk v (files s) (selectedIndex s) (scrollOffset s) (viewMode s)
     (terminalWidth s) (terminalHeight s) (maxDisplayLines s)
     (lastClickTime s) (lastClickTarget s) (doubleClickThreshold s)
     (mouseEnabled s) (hoverIndex s) (scrollMode s) (useTripleText s)
     (activeGallery s) (log s).

Definition set_files (v : list Item) (s : t) : t :=
  mk (currentDirectory s) v (selectedIndex s) (scrollOffset s) (viewMode s)
     (terminalWidth s) (terminalHeight s) (maxDisplayLines s)
     (lastClickTime s) (lastClickTarget s) (doubleClickThreshold s)
     (mouseEnabled s) (hoverIndex s) (scrollMode s) (useTripleText s)
     (activeGallery s) (log s).

Definition set_selectedIndex (v : Z) (s : t) : t :=
  mk (currentDirectory s) (files s) v (scrollOffset s) (viewMode s)
     (terminalWidth s) (terminalHeight s) (maxDisplayLines s)
     (lastClickTime s) (lastClickTarget s) (doubleClickThreshold s)
     (mouseEnabled s) (hoverIndex s) (scrollMode s) (useTripleText s)
     (activeGallery s) (log s).

Definition set_scrollOffset (v : Z) (s : t) : t :=
  mk (currentDirectory s) (files s) (selectedIndex s) v (viewMode s)
     (terminalWidth s) (terminalHeight s) (maxDisplayLines s)
     (lastClickTime s) (lastClickTarget s) (doubleClickThreshold s)
     (mouseEnabled s) (hoverIndex s) (scrollMode s) (useTripleText s)
     (activeGallery s) (log s).

Definition set_viewMode (v : ViewMode) (s : t) : t :=
  mk (currentDirectory s) (files s) (selectedIndex s) (scrollOffset s) v
     (terminalWidth s) (terminalHeight s) (maxDisplayLines s)
     (lastClickTime s) (lastClickTarget s) (doubleClickThreshold s)
     (mouseEnabled s) (hoverIndex s) (scrollMode s) (useTripleText s)
     (activeGallery s) (log s).

Definition set_lastClickTime (v : Z) (s : t) : t :=
  mk (currentDirectory s) (files s) (selectedIndex s) (scrollOffset s)
     (viewMode s) (terminalWidth s) (terminalHeight s) (maxDisplayLines s) v
     (lastClickTarget s) (doubleClickThreshold s) (mouseEnabled s)
     (hoverIndex s) (scrollMode s) (useTripleText s) (activeGallery s)
     (log s).

Definition set_lastClickTarget (v : option string) (s : t) : t :=
  mk (currentDirectory s) (files s) (selectedIndex s) (scrollOffset s)
     (viewMode s) (terminalWidth s) (terminalHeight s) (maxDisplayLines s)
     (lastClickTime s) v (doubleClickThreshold s) (mouseEnabled s)
     (hoverIndex s) (scrollMode s) (useTripleText s) (activeGallery s)
     (log s).

Definition set_scrollMode (v : bool) (s : t) : t :=
  mk (currentDirectory s) (files s) (selectedIndex s) (scrollOffset s)
     (viewMode s) (terminalWidth s) (terminalHeight s) (maxDisplayLines s)
     (lastClickTime s) (lastClickTarget s) (doubleClickThreshold s)
     (mouseEnabled s) (hoverIndex s) v (useTripleText s) (activeGallery s)
     (log s).

Definition set_useTripleText (v : bool) (s : t) : t :=
  mk (currentDirectory s) (files s) (selectedIndex s) (scrollOffset s)
     (viewMode s) (terminalWidth s) (terminalHeight s) (maxDisplayLines s)
     (lastClickTime s) (lastClickTarget s) (doubleClickThreshold s)
     (mouseEnabled s) (hoverIndex s) (scrollMode s) v (activeGallery s)
     (log s).

Definition set_activeGallery (v : option ImageGallerySlider.t) (s : t) : t :=
  mk (currentDirectory s) (files s) (selectedIndex s) (scrollOffset s)
     (viewMode s) (terminalWidth s) (terminalHeight s) (maxDisplayLines s)
     (lastClickTime s) (lastClickTarget s) (doubleClickThreshold s)
     (mouseEnabled s) (hoverIndex s) (scrollMode s) (useTripleText s) v
     (log s).

Definition set_log (v : list Effect) (s : t) : t :=
  mk (currentDirectory s) (files s) (selectedIndex s) (scrollOffset s)
     (viewMode s) (terminalWidth s) (terminalHeight s) (maxDisplayLines s)
     (lastClickTime s) (lastClickTarget s) (doubleClickThreshold s)
     (mouseEnabled s) (hoverIndex s) (scrollMode s) (useTripleText s)
     (activeGallery s) v.
Definition add_log (e : Effect) (s : t) : t := set_log (log s ++ [e]) s.

(** The constructor's fields for a terminal of the given size, started
    in [cwd] with mouse support on. *)
Definition constructor (cwd : string) (columns rows : option Z)
           (scrollArrows : bool) : t :=
  let terminalWidth := Z.max (JS.orElse columns 80) 40 in
  let terminalHeight := Z.max (JS.orElse rows 24) 15 in
  mk cwd [] 0 0 grid_view terminalWidth terminalHeight
     (Z.max 1 (terminalHeight - 5)) 0 None 500 false (-1) scrollArrows
     false None [].

Definition isMediaFile (filename : string) : bool :=
  let ext := JS.toLowerCase (JS.extname filename) in
  existsb (String.eqb ext) SUPPORTED_EXTENSIONS.

(** The comparator handed to [items.sort]. *)
Definition compareItems (h : Host) (a b : Item) : Z :=
  if negb (ItemType_eqb (type a) (type b)) then
    match type a with
    | directory => -1
    | file => 1
    end
  else localeCompare h (name a) (name b).

(** The [for (const file of files)] loop of [getMediaFiles]; [None] when
    [fs.statSync] throws. *)
Fixpoint collectItems (h : Host) (dir : string) (names : list string)
         (items : list Item) : option (list Item) :=
  match names with
  | [] => Some items
  | f :: names' =>
      if String.eqb f "." || String.eqb f ".." then
        collectItems h dir names' items
      else
        let fullPath := JS.join dir f in
        match statSync h fullPath with
        | None => None
        | Some stats =>
            if isDirectory stats then
              collectItems h dir names'
                (items ++ [mkItem f fullPath directory 0 ""])
            else if isMediaFile f then
              collectItems h dir names'
                (items ++ [mkItem f fullPath file (stat_size stats)
                                  (JS.toLowerCase (JS.extname f))])
            else collectItems h dir names' items
        end
  end.

Definition getMediaFiles (h : Host) (s : t) : list Item :=
  match readdirSync h (currentDirectory s) with
  | None => []
  | Some names =>
      match collectItems h (currentDirectory s) names [] with
      | None => []
      | Some items => JS.sort (compareItems h) items
      end
  end.

(** What [calculateGridDimensions] returns. *)
Record GridDimensions : Type := mkGridDimensions {
  columns : Z;
  rows : Z;
  gapWidth : Z;
  totalWidth : Z;
  totalHeight : Z;
  itemWidth : Z;
  itemHeight : Z
}.

Definition calculateGridDimensions (s : t) : GridDimensions * t :=
  let gapWidth := 2 in
  let availableWidth := terminalWidth s - 2 in
  let minImageWidth := 32 in
  let columns := availableWidth / (minImageWidth + gapWidth) in
  let actualColumns := Z.max 1 columns in
  let rows := JS.ceilDiv (JS.len (files s)) actualColumns in
  let totalWidth := actualColumns * minImageWidth + (actualColumns - 1) * gapWidth in
  let tripleItemHeight := 19 in
  let normalItemHeight := 17 in
  let useTripleText := minImageWidth * tripleItemHeight >=? 500 in
  let s := set_useTripleText useTripleText s in
  let itemHeight := if useTripleText then tripleItemHeight else normalItemHeight in
  let totalHeight := rows * itemHeight in
  (mkGridDimensions actualColumns rows gapWidth totalWidth totalHeight
                    minImageWidth itemHeight, s).

(** [drawGridView] as far as the object goes: it brings [scrollOffset]
    back into [[0, maxScrollOffset]]; the tiles it paints (and the
    thumbnails it caches for them) are not fields modelled here. *)
Definition drawGridView (s : t) : t :=
  let '(dims, s) := calculateGridDimensions s in
  let maxVisibleRows := maxDisplayLines s / itemHeight dims in
  let actualVisibleRows := Z.min maxVisibleRows (rows dims) in
  let maxScrollRows := Z.max 0 (rows dims - actualVisibleRows) in
  let maxScrollOffset := maxScrollRows * columns dims in
  let s := if scrollOffset s <? 0 then set_scrollOffset 0 s else s in
  let s := if scrollOffset s >? maxScrollOffset
           then set_scrollOffset maxScrollOffset s else s in
  s.

(** [drawListView] only prints. *)
Definition drawListView (s : t) : t := s.

Definition drawFileList (s : t) : t :=
  match viewMode s with
  | grid_view => drawGridView s
  | list_view => drawListView s
  end.

(** [drawFooter] prints; for its scroll bar it calls
    [calculateGridDimensions]. *)
Definition drawFooter (s : t) : t :=
  match viewMode s with
  | grid_view =>
      if scrollMode s && (JS.len (files s) >? 0)
      then snd (calculateGridDimensions s) else s
  | list_view => s
  end.

Definition render (s : t) : t :=
  add_log Rendered (drawFooter (drawFileList s)).

Definition renderWithClear (s : t) : t :=
  add_log RenderedWithClear (drawFooter (drawFileList s)).

(** [scrollGrid(direction)]: [-1] scrolls up, anything else down. *)
Definition scrollGrid (direction : Z) (s : t) : t :=
  let '(dims, s) := calculateGridDimensions s in
  let maxVisibleRows := maxDisplayLines s / itemHeight dims in
  let actualVisibleRows := Z.min maxVisibleRows (rows dims) in
  let maxScrollRows := Z.max 0 (rows dims - actualVisibleRows) in
  let maxScrollOffset := maxScrollRows * columns dims in
  let scrollAmount := columns dims in
  let s :=
    if direction =? -1
    then set_scrollOffset (Z.max 0 (scrollOffset s - scrollAmount)) s
    else set_scrollOffset (Z.min maxScrollOffset (scrollOffset s + scrollAmount)) s in
  let maxVisibleIndex := scrollOffset s + maxDisplayLines s * columns dims - 1 in
  let minVisibleIndex := scrollOffset s in
  let s :=
    if selectedIndex s <? minVisibleIndex then set_selectedIndex minVisibleIndex s
    else if selectedIndex s >? maxVisibleIndex then set_selectedIndex maxVisibleIndex s
    else s in
  renderWithClear s.

Definition handleScrollWheel (direction : Z) (s : t) : t :=
  match viewMode s with
  | grid_view =>
      let '(dims, s) := calculateGridDimensions s in
      let maxVisibleRows := maxDisplayLines s / itemHeight dims in
      let actualVisibleRows := Z.min maxVisibleRows (rows dims) in
      let maxScrollRows := Z.max 0 (rows dims - actualVisibleRows) in
      let maxScrollOffset := maxScrollRows * columns dims in
      let scrollAmount := columns dims in
      let s :=
        if direction =? -1
        then set_scrollOffset (Z.max 0 (scrollOffset s - scrollAmount)) s
        else set_scrollOffset (Z.min maxScrollOffset (scrollOffset s + scrollAmount)) s in
      let maxVisibleIndex := scrollOffset s + maxDisplayLines s * columns dims - 1 in
      let minVisibleIndex := scrollOffset s in
      let s :=
        if selectedIndex s <? minVisibleIndex then set_selectedIndex minVisibleIndex s
        else if selectedIndex s >? maxVisibleIndex then set_selectedIndex maxVisibleIndex s
        else s in
      renderWithClear s
  | list_view =>
      let s :=
        if direction =? -1
        then set_scrollOffset (Z.max 0 (scrollOffset s - 1)) s
        else
          let maxScrollOffset := Z.max 0 (JS.len (files s) - maxDisplayLines s) in
          set_scrollOffset (Z.min maxScrollOffset (scrollOffset s + 1)) s in
      let maxVisibleIndex := scrollOffset s + maxDisplayLines s - 1 in
      let minVisibleIndex := scrollOffset s in
      let s :=
        if selectedIndex s <? minVisibleIndex then set_selectedIndex minVisibleIndex s
        else if selectedIndex s >? maxVisibleIndex then set_selectedIndex maxVisibleIndex s
        else s in
      renderWithClear s
  end.

Definition navigateToDirectory (h : Host) (dirPath : string) (s : t) : t :=
  let s := add_log (EnteredDirectory dirPath) s in
  let s := set_currentDirectory dirPath s in
  let s := set_selectedIndex 0 s in
  let s := set_scrollOffset 0 s in
  let s := set_files (getMediaFiles h s) s in
  render s.

(** [openImageViewer(imagePath)] up to the point where it waits for the
    gallery to exit. *)
Definition openImageViewer (h : Host) (imagePath : string) (s : t) : t :=
  let imageFiles :=
    map path (filter (fun item => ItemType_eqb (type item) file
                                  && isMediaFile (name item)) (files s)) in
  let currentIndex := JS.indexOf imageFiles imagePath in
  if currentIndex =? -1 then s
  else
    let gallery := ImageGallerySlider.constructor imageFiles currentIndex
                     (stdout_columns h) (stdout_rows h) in
    add_log (GalleryStarted imageFiles currentIndex)
            (set_activeGallery (Some gallery) s).

Definition viewSelectedFile (h : Host) (s : t) : JS.Completion t :=
  if JS.len (files s) =? 0 then JS.Normal s
  else
    match JS.index (files s) (selectedIndex s) with
    | None => JS.Thrown s                (* selectedItem.type of undefined *)
    | Some selectedItem =>
        match type selectedItem with
        | directory => JS.Normal (navigateToDirectory h (path selectedItem) s)
        | file =>
            if isMediaFile (name selectedItem)
            then JS.Normal (openImageViewer h (path selectedItem) s)
            else JS.Normal s
        end
    end.

Definition refresh (h : Host) (s : t) : t :=
  let s := set_files (getMediaFiles h s) s in
  let s := set_selectedIndex (Z.min (selectedIndex s) (JS.len (files s) - 1)) s in
  let s := set_scrollOffset
             (Z.min (scrollOffset s)
                    (Z.max 0 (JS.len (files s) - maxDisplayLines s))) s in
  render s.

(** [this.lastClickTarget === selectedItem.path] *)
Definition isLastClickTarget (s : t) (p : string) : bool :=
  match lastClickTarget s with
  | Some q => String.eqb q p
  | None => false
  end.

(** [handleLeftMouseClick()]; [currentTime] is what [Date.now()] answers. *)
Definition handleLeftMouseClick (h : Host) (currentTime : Z) (s : t)
  : JS.Completion t :=
  if JS.len (files s) =? 0 then JS.Normal s
  else
    match JS.index (files s) (selectedIndex s) with
    | None => JS.Thrown s                (* selectedItem.path of undefined *)
    | Some selectedItem =>
        if isLastClickTarget s (path selectedItem)
           && (currentTime - lastClickTime s <? doubleClickThreshold s)
        then
          let s := set_lastClickTime 0 s in
          let s := set_lastClickTarget None s in
          match type selectedItem with
          | directory => JS.Normal (navigateToDirectory h (path selectedItem) s)
          | file => viewSelectedFile h s
          end
        else
          let s := set_lastClickTime currentTime s in
          let s := set_lastClickTarget (Some (path selectedItem)) s in
          JS.Normal s
    end.

(** [handleEnterKey()]; [currentTime] is what [Date.now()] answers. *)
Definition handleEnterKey (h : Host) (currentTime : Z) (s : t)
  : JS.Completion t :=
  if JS.len (files s) =? 0 then JS.Normal s
  else
    match JS.index (files s) (selectedIndex s) with
    | None => JS.Thrown s                (* selectedItem.path of undefined *)
    | Some selectedItem =>
        if isLastClickTarget s (path selectedItem)
           && (currentTime - lastClickTime s <? doubleClickThreshold s)
        then
          let s := set_lastClickTime 0 s in
          let s := set_lastClickTarget None s in
          match type selectedItem with
          | directory => JS.Normal (navigateToDirectory h (path selectedItem) s)
          | file => viewSelectedFile h s
          end
        else
          let s := set_lastClickTime currentTime s in
          let s := set_lastClickTarget (Some (path selectedItem)) s in
          JS.Normal (render s)
    end.

(** *** Mouse reports *)

(** [button], [x] and [y] as [handleMouseEvent] reads them; [None] is
    [NaN]. *)
Record MouseReport : Type := mkMouseReport {
  button : option Z;
  mouse_x : option Z;
  mouse_y : option Z
}.

(** [v - 32] *)
Definition minus32 (v : option Z) : option Z := option_map (fun n => n - 32) v.

(** The first part of [handleMouseEvent]: reading the report off the
    string; [None] where the source returns without one. *)
Definition decodeMouse (data : string) : option MouseReport :=
  if JS.startsWith data (JS.ESC ++ "[M")%string then
    Some (mkMouseReport (minus32 (JS.charCodeAt data 3))
                        (minus32 (JS.charCodeAt data 4))
                        (minus32 (JS.charCodeAt data 5)))
  else if JS.startsWith data (JS.ESC ++ "[")%string && JS.includes data "M"%char then
    let parts := JS.split (JS.slice data 2 (-1)) ";"%char in
    if JS.len parts >=? 3 then
      Some (mkMouseReport (minus32 (JS.parseInt (nth 0 parts EmptyString)))
                          (minus32 (JS.parseInt (nth 1 parts EmptyString)))
                          (minus32 (JS.parseInt (nth 2 parts EmptyString))))
    else None
  else if Z.of_nat (String.length data) >=? 6 then
    Some (mkMouseReport (minus32 (JS.charCodeAt data 3))
                        (minus32 (JS.charCodeAt data 4))
                        (minus32 (JS.charCodeAt data 5)))
  else None.

(** [v === n], [v >= n] and [v < n] on a number that may be [NaN]. *)
Definition eqNum (v : option Z) (n : Z) : bool :=
  match v with Some m => m =? n | None => false end.

Definition geNum (v : option Z) (n : Z) : bool :=
  match v with Some m => m >=? n | None => false end.

Definition ltNum (v : option Z) (n : Z) : bool :=
  match v with Some m => m <? n | None => false end.

(** The column loop of the grid hit test, over the values [cs] that [c]
    still has to take; [col] stays [0] when no tile holds [x]. *)
Fixpoint hitColumn (x : option Z) (baseItemWidth gapWidth : Z)
         (cs : list Z) (currentX : Z) : Z :=
  match cs with
  | [] => 0
  | c :: cs' =>
      let itemWidth := Z.max (if c =? 0 then 32 else 20) baseItemWidth in
      if geNum x currentX && ltNum x (currentX + itemWidth) then c
      else hitColumn x baseItemWidth gapWidth cs' (currentX + itemWidth + gapWidth)
  end.

(** The rest of [handleMouseEvent], once [button], [x] and [y] are
    read; [currentTime] is what [Date.now()] answers if the event turns
    out to be a left click. *)
Definition mouseAction (h : Host) (r : MouseReport) (currentTime : Z)
           (s : t) : t :=
  let b := button r in
  if eqNum b 64 || eqNum b 65 || eqNum b 96 || eqNum b 97 then
    let isScrollUp := eqNum b 64 || eqNum b 96 in
    handleScrollWheel (if isScrollUp then -1 else 1) s
  else
    let adjustedY := option_map (fun y => y - 1) (mouse_y r) in
    let headerHeight := 0 in
    if (eqNum b 0 || eqNum b 3) && geNum adjustedY headerHeight
       && ltNum adjustedY (headerHeight + maxDisplayLines s)
    then
      match adjustedY with
      | None => s
      | Some ay =>
          let '(listIndex, s) :=
            match viewMode s with
            | grid_view =>
                let '(dims, s) := calculateGridDimensions s in
                let availableWidth :=
                  terminalWidth s - 2 - gapWidth dims * (columns dims - 1) in
                let baseItemWidth := availableWidth / columns dims in
                let itemHeight := 17 in
                let row := (ay - headerHeight) / itemHeight in
                let col :=
                  hitColumn (mouse_x r) baseItemWidth (gapWidth dims)
                    (map Z.of_nat (seq 0 (Z.to_nat (columns dims)))) 1 in
                ((row + scrollOffset s) * columns dims + col, s)
            | list_view => (ay - headerHeight + scrollOffset s, s)
            end in
          if (listIndex >=? 0) && (listIndex <? JS.len (files s)) then
            let wasSelected := selectedIndex s =? listIndex in
            let s := set_selectedIndex listIndex s in
            let s := if wasSelected then s else render s in
            if eqNum b 0 then
              match handleLeftMouseClick h currentTime s with
              | JS.Normal s' => s'
              | JS.Thrown s' => render s'         (* catch *)
              end
            else if eqNum b 3 then
              match JS.index (files s) (selectedIndex s) with
              | None => render s                   (* catch *)
              | Some selectedItem =>
                  match type selectedItem with
                  | directory => navigateToDirectory h (path selectedItem) s
                  | file =>
                      match viewSelectedFile h s with
                      | JS.Normal s' => s'
                      | JS.Thrown s' => s'         (* not awaited *)
                      end
                  end
              end
            else s
          else s
      end
    else s.

(** [handleMouseEvent(data)] *)
Definition handleMouseEvent (h : Host) (data : string) (currentTime : Z)
           (s : t) : t :=
  match decodeMouse data with
  | None => s
  | Some r => mouseAction h r currentTime s
  end.

(** *** What is on screen *)

(** The indices of [this.files] whose tiles the row and column loops of
    [drawGridView] paint, in painting order. *)
Definition paintedIndices (s : t) : list Z :=
  let '(dims, s) := calculateGridDimensions s in
  let s := drawGridView s in
  let maxVisibleRows := maxDisplayLines s / itemHeight dims in
  let actualVisibleRows := Z.min maxVisibleRows (rows dims) in
  flat_map
    (fun row =>
       flat_map
         (fun col =>
            let index := row * columns dims + col + scrollOffset s in
            if index >=? JS.len (files s) then [] else [index])
         (map Z.of_nat (seq 0 (Z.to_nat (columns dims)))))
    (map Z.of_nat (seq 0 (Z.to_nat actualVisibleRows))).

(** The indices of [this.files] that the loop of [drawListView] reads
    to print their lines. *)
Definition listedIndices (s : t) : list Z :=
  let startIndex := scrollOffset s in
  let actualDisplayLines :=
    Z.min (maxDisplayLines s) (JS.len (files s) - scrollOffset s) in
  map (fun i => startIndex + Z.of_nat i) (seq 0 (Z.to_nat actualDisplayLines)).

(** *** Moving the selection *)

Definition moveSelectionList (direction : Z) (s : t) : t :=
  let newIndex := selectedIndex s + direction in
  if (newIndex >=? 0) && (newIndex <? JS.len (files s)) then
    let s := set_selectedIndex newIndex s in
    let s :=
      if selectedIndex s <? scrollOffset s
      then set_scrollOffset (selectedIndex s) s
      else if selectedIndex s >=? scrollOffset s + maxDisplayLines s
      then set_scrollOffset (selectedIndex s - maxDisplayLines s + 1) s
      else s in
    render s
  else s.

(** [direction]: [-1] up, [1] down, [-2] left, [2] right. *)
Definition moveSelectionGrid (direction : Z) (s : t) : t :=
  let '(dims, s) := calculateGridDimensions s in
  let maxVisibleRows := maxDisplayLines s / itemHeight dims in
  let actualVisibleRows := Z.min maxVisibleRows (rows dims) in
  let newIndex :=
    if direction =? -1 then Z.max 0 (selectedIndex s - columns dims)
    else if direction =? 1
    then Z.min (JS.len (files s) - 1) (selectedIndex s + columns dims)
    else if direction =? -2 then Z.max 0 (selectedIndex s - 1)
    else if direction =? 2 then Z.min (JS.len (files s) - 1) (selectedIndex s + 1)
    else selectedIndex s in
  if negb (newIndex =? selectedIndex s) && (newIndex >=? 0)
     && (newIndex <? JS.len (files s))
  then
    let s := set_selectedIndex newIndex s in
    let currentVisibleRow := (selectedIndex s - scrollOffset s) / columns dims in
    let s :=
      if currentVisibleRow <? 0 then set_scrollOffset (selectedIndex s) s
      else if currentVisibleRow >=? actualVisibleRows
      then set_scrollOffset
             (Z.max 0 (selectedIndex s - (actualVisibleRows - 1) * columns dims)) s
      else s in
    renderWithClear s
  else s.

Definition moveSelection (direction : Z) (s : t) : t :=
  match viewMode s with
  | grid_view => moveSelectionGrid direction s
  | list_view => moveSelectionList direction s
  end.

(** *** Toggles and the way back *)

Definition toggleViewMode (s : t) : t :=
  let s := set_viewMode (match viewMode s with
                         | list_view => grid_view
                         | grid_view => list_view
                         end) s in
  let s := set_scrollOffset 0 s in
  render s.

Definition toggleScrollMode (s : t) : t :=
  render (set_scrollMode (negb (scrollMode s)) s).

Definition goBack (h : Host) (s : t) : t :=
  let parentDir := JS.dirname (currentDirectory s) in
  if negb (String.eqb parentDir (currentDirectory s)) then
    let s := set_currentDirectory parentDir s in
    let s := set_selectedIndex 0 s in
    let s := set_scrollOffset 0 s in
    let s := set_files (getMediaFiles h s) s in
    render s
  else s.

(** *** Hovering *)

Definition set_hoverIndex (v : Z) (s : t) : t :=
  mk (currentDirectory s) (files s) (selectedIndex s) (scrollOffset s)
     (viewMode s) (terminalWidth s) (terminalHeight s) (maxDisplayLines s)
     (lastClickTime s) (lastClickTarget s) (doubleClickThreshold s)
     (mouseEnabled s) v (scrollMode s) (useTripleText s)
     (activeGallery s) (log s).

(** [handleMouseMovement(data)]; [showHoverInfo] only prints. *)
Definition handleMouseMovement (data : string) (s : t) : t :=
  let parts := JS.split (JS.slice data 2 (-1)) ";"%char in
  if JS.len parts >=? 2 then
    let x := minus32 (JS.parseInt (nth 0 parts EmptyString)) in
    let y := minus32 (JS.parseInt (nth 1 parts EmptyString)) in
    let adjustedY := option_map (fun y => y - 1) y in
    let headerHeight := 5 in
    match adjustedY with
    | None => s
    | Some ay =>
        if (ay >=? headerHeight) && (ay <? headerHeight + maxDisplayLines s) then
          let '(hover, s) :=
            match viewMode s with
            | grid_view =>
                let '(dims, s) := calculateGridDimensions s in
                let availableWidth :=
                  terminalWidth s - 2 - gapWidth dims * (columns dims - 1) in
                let baseItemWidth := availableWidth / columns dims in
                let itemHeight := 17 in
                let row := (ay - headerHeight) / itemHeight in
                let col :=
                  hitColumn x baseItemWidth (gapWidth dims)
                    (map Z.of_nat (seq 0 (Z.to_nat (columns dims)))) 1 in
                ((row + scrollOffset s) * columns dims + col, s)
            | list_view => (ay - headerHeight + scrollOffset s, s)
            end in
          if (hover >=? 0) && (hover <? JS.len (files s))
             && negb (hover =? hoverIndex s)
          then set_hoverIndex hover s
          else s
        else s
    end
  else s.

(** *** The key handler of [setupInput] *)

(** How a call of [handleKey] ends: it ran to its end, a handler threw
    (the promise is rejected, nobody catches it), or the process
    exited. *)
Inductive KeyOutcome : Type :=
| Done (s : t)
| Failed (s : t)
| Exit.

Definition completed (c : JS.Completion t) : KeyOutcome :=
  match c with
  | JS.Normal s => Done s
  | JS.Thrown s => Failed s
  end.

Definition keyCtrlC : string := String "003"%char EmptyString.
Definition keyUp : string := (JS.ESC ++ "[A")%string.
Definition keyDown : string := (JS.ESC ++ "[B")%string.
Definition keyLeft : string := (JS.ESC ++ "[D")%string.
Definition keyRight : string := (JS.ESC ++ "[C")%string.
Definition keyPageUp : string := (JS.ESC ++ "[5~")%string.
Definition keyPageDown : string := (JS.ESC ++ "[6~")%string.
Definition keyReturn : string := String "013"%char EmptyString.
Definition keyNewline : string := String "010"%char EmptyString.
Definition keyBackspace : string := String "008"%char EmptyString.
Definition keyDelete : string := String "127"%char EmptyString.

Definition isGrid (s : t) : bool :=
  match viewMode s with
  | grid_view => true
  | list_view => false
  end.

(** [handleKey(key)]; [currentTime] is what [Date.now()] answers if the
    key activates an entry. *)
Definition handleKey (h : Host) (key : string) (currentTime : Z) (s : t)
  : KeyOutcome :=
  if String.eqb key keyCtrlC then Exit
  else if String.eqb key "q" || String.eqb key "Q" then Exit
  else if String.eqb key keyUp then
    if isGrid s && scrollMode s then Done (scrollGrid (-1) s)
    else Done (moveSelection (-1) s)
  else if String.eqb key keyDown then
    if isGrid s && scrollMode s then Done (scrollGrid 1 s)
    else Done (moveSelection 1 s)
  else if String.eqb key keyLeft then
    if isGrid s then Done (moveSelection (-2) s) else Done s
  else if String.eqb key keyRight then
    if isGrid s then Done (moveSelection 2 s) else Done s
  else if String.eqb key keyPageUp then
    if isGrid s then Done (scrollGrid (-1) s) else Done s
  else if String.eqb key keyPageDown then
    if isGrid s then Done (scrollGrid 1 s) else Done s
  else if String.eqb key keyReturn || String.eqb key keyNewline then
    completed (handleEnterKey h currentTime s)
  else if String.eqb key "r" || String.eqb key "R" then Done (refresh h s)
  else if String.eqb key "v" || String.eqb key "V" then Done (toggleViewMode s)
  else if String.eqb key "s" || String.eqb key "S" then Done (toggleScrollMode s)
  else if String.eqb key keyBackspace || String.eqb key keyDelete then
    Done (goBack h s)
  else if mouseEnabled s && JS.startsWith key (JS.ESC ++ "[M")%string then
    Done (handleMouseEvent h key currentTime s)
  else if mouseEnabled s && JS.startsWith key (JS.ESC ++ "[")%string
          && JS.includes key "M"%char then
    Done (handleMouseEvent h key currentTime s)
  else if mouseEnabled s && JS.startsWith key (JS.ESC ++ "[")%string
          && JS.includes key "t"%char then
    Done (handleMouseMovement key s)
  else if mouseEnabled s && JS.startsWith key (JS.ESC ++ "[")%string
          && JS.includes key "A"%char then
    Done (handleMouseEvent h key currentTime s)
  else if mouseEnabled s && (Z.of_nat (String.length key) >? 1)
          && eqNum (JS.charCodeAt key 0) 27 then
    Done (handleMouseEvent h key currentTime s)
  else Done s.

(** *** Starting, and the terminal changing size *)

Definition set_mouseEnabled (v : bool) (s : t) : t :=
  mk (currentDirectory s) (files s) (selectedIndex s) (scrollOffset s)
     (viewMode s) (terminalWidth s) (terminalHeight s) (maxDisplayLines s)
     (lastClickTime s) (lastClickTarget s) (doubleClickThreshold s)
     v (hoverIndex s) (scrollMode s) (useTripleText s)
     (activeGallery s) (log s).

Definition set_terminalSize (w h lines : Z) (s : t) : t :=
  mk (currentDirectory s) (files s) (selectedIndex s) (scrollOffset s)
     (viewMode s) w h lines
     (lastClickTime s) (lastClickTarget s) (doubleClickThreshold s)
     (mouseEnabled s) (hoverIndex s) (scrollMode s) (useTripleText s)
     (activeGallery s) (log s).

(** [setupInput()] as far as the object goes; [disableMouse] is whether
    [--no-mouse] was given. *)
Definition setupInput (disableMouse : bool) (s : t) : t :=
  if negb disableMouse then set_mouseEnabled true s else s.

(** [start()] *)
Definition start (h : Host) (disableMouse : bool) (s : t) : t :=
  let s := set_files (getMediaFiles h s) s in
  let s := render s in
  setupInput disableMouse s.

(** The [resize] listener the constructor installs; [columns] and [rows]
    are [process.stdout.columns] and [process.stdout.rows] by then. *)
Definition resize (columns rows : option Z) (s : t) : t :=
  let terminalWidth := Z.max (JS.orElse columns 80) 40 in
  let terminalHeight := Z.max (JS.orElse rows 24) 15 in
  let s := set_terminalSize terminalWidth terminalHeight
             (Z.max 1 (terminalHeight - 5)) s in
  match activeGallery s with
  | Some _ => s
  | None => render s
  end.

End TerminalGUI.

(** ** Pixel buffers, in the words of the specification *)

Module PixelBuffer.

Import Generator.

(** The buffer has three or four channels and [W * H * C] bytes. *)
Definition wellFormed (img : ImageData) : Prop :=
  (channels (info img) = 3 \/ channels (info img) = 4) /\
  List.length (data img) =
  width (info img) * height (info img) * channels (info img).

(** Channel [c] of the pixel at column [x] of row [y]:
    [index(x, y, c) = (y * W + x) * C + c]. *)
Definition channel (img : ImageData) (x y c : nat) : nat :=
  Byte.to_nat
    (nth ((y * width (info img) + x) * channels (info img) + c) (data img) x00).

(** The alpha of a pixel, 255 when the buffer has no alpha channel. *)
Definition alpha (img : ImageData) (x y : nat) : nat :=
  if channels (info img) =? 4 then channel img x y 3 else 255.

Definition opaque (img : ImageData) (x y : nat) : bool :=
  128 <=? alpha img x y.

(** The style that sets the foreground, or the background, to the colour
    of the pixel at [(x, y)]. *)
Definition foreground (img : ImageData) (x y : nat) : string :=
  sgr38 (Some (channel img x y 0)) (Some (channel img x y 1))
        (Some (channel img x y 2)).

Definition background (img : ImageData) (x y : nat) : string :=
  sgr48 (Some (channel img x y 0)) (Some (channel img x y 1))
        (Some (channel img x y 2)).

(** The cells of a grid at column [x] of row [k]. *)
Definition cellsAt (x k : nat) (cells : list Cell) : list Cell :=
  filter (fun c => (cell_x c =? x) && (cell_y c =? k)) cells.

(** Column [x] of the row pair [k] has something to draw. *)
Definition visible (img : ImageData) (k x : nat) : bool :=
  opaque img x (2 * k) || opaque img x (2 * k + 1).

(** How many of the first [n] columns of the row pair [k] do. *)
Definition visibleInRow (img : ImageData) (k n : nat) : nat :=
  List.length (filter (visible img k) (seq 0 n)).

(** How many positions before [(x, k)], row pair by row pair and left to
    right, do. *)
Definition visibleBefore (img : ImageData) (x k : nat) : nat :=
  list_sum (map (fun k' => visibleInRow img k' (width (info img))) (seq 0 k))
  + visibleInRow img k x.

End PixelBuffer.

(** ** The compositor's scan, cell by cell *)

Module Scan.

Import Generator.

(** What one column of one scanline pair pushes. *)
Definition cellOf (img : ImageData) (y x : nat) : list Cell :=
  let '(char, ansi) := pairGlyph img x y in
  if Glyph_eqb char SPACE then [] else [mkCell x (y / 2) char ansi].

Definition rowCells (img : ImageData) (y : nat) (xs : list nat) : list Cell :=
  flat_map (cellOf img y) xs.

Definition scan (img : ImageData) (ys : list nat) : list Cell :=
  flat_map (fun y => rowCells img y (seq 0 (width (info img)))) ys.

(** Where the loops stand once [l] would have been pushed. *)
Definition bounded (l : list Cell) : Flow :=
  if List.length l <? maxCells then Running l (List.length l)
  else Returned (firstn maxCells l).

(** The scan around the position [(x, k)]. *)
Definition before (img : ImageData) (x k : nat) : list Cell :=
  flat_map (fun k' => rowCells img (2 * k') (seq 0 (width (info img)))) (seq 0 k)
  ++ rowCells img (2 * k) (seq 0 x).

Definition after (img : ImageData) (x k : nat) : list Cell :=
  rowCells img (2 * k) (seq (S x) (width (info img) - S x))
  ++ flat_map (fun k' => rowCells img (2 * k') (seq 0 (width (info img))))
              (seq (S k) (height (info img) / 2 - S k)).

(** [a] comes before [b] row pair by row pair, left to right. *)
Definition scanBefore (a b : Generator.Cell) : Prop :=
  cell_y a < cell_y b \/ (cell_y a = cell_y b /\ cell_x a < cell_x b).

End Scan.

(** ** The file [save] writes *)

Module SavedFile.

Import Generator.

(** The line of the cell at position [j] of [n]: a comma after every
    line but the last, and a line feed. *)
Definition fileLine (n : nat) (cell : Cell) (j : nat) : string :=
  (saveLine cell (if (j =? n - 1)%nat then "" else ",") ++ JS.newline)%string.

(** An opening bracket, one line for each cell in order, a closing
    bracket. *)
Definition content (data : list Cell) : string :=
  (("[" ++ JS.newline)
   ++ String.concat "" (JS.mapi (fileLine (List.length data)) data 0)
   ++ ("]" ++ JS.newline))%string.

(** How many chunks of [m] an array of length [n] makes. *)
Definition chunkCount (m n : nat) : nat := (n + m - 1) / m.

End SavedFile.

(** ** The slider's bounds *)

Module GalleryBounds.

Import ImageGallerySlider.
Local Open Scope Z_scope.

(** The bounds the slider keeps: the index within the image list, the
    scroll offset between [0] and what the image's height leaves over the
    rows the terminal can show ([terminalHeight - 6]). *)
Definition inBounds (g : t) : Prop :=
  0 <= currentIndex g <= JS.len (imagePaths g) - 1 /\
  0 <= scrollOffset g <= Z.max 0 (imageHeight g - (terminalHeight g - 6)).

(** The height the slider keeps is that of the image it holds. *)
Definition coherent (g : t) : Prop :=
  match imageData g with
  | Some a => imageHeight g = displayLength a
  | None => True
  end.

(** The rows of a full viewport: from [scrollOffset] on, as many as the
    terminal leaves room for, or all the image has if it is shorter. *)
Definition viewport (g : t) : list Z :=
  map (fun i => scrollOffset g + Z.of_nat i)
      (seq 0 (Z.to_nat (Z.min (terminalHeight g - 6) (imageHeight g)))).

End GalleryBounds.

(** ** Decimal numerals *)

Module Numerals.

Local Open Scope Z_scope.

Definition isDigit (c : ascii) : bool :=
  ((48 <=? nat_of_ascii c) && (nat_of_ascii c <=? 57))%nat.

Fixpoint allDigits (s : string) : bool :=
  match s with
  | EmptyString => true
  | String c s' => isDigit c && allDigits s'
  end.

(** The value an accumulator of [parseDigits] stands for. *)
Definition accValue (acc : option Z) : Z :=
  match acc with
  | Some a => a
  | None => 0
  end.

End Numerals.

(** ** The grid's scroll range *)

Module GridScroll.

Import TerminalGUI.
Local Open Scope Z_scope.

(** [maxScrollOffset] as [drawGridView], [scrollGrid] and
    [handleScrollWheel] compute it, in items. *)
Definition maxScrollOffset (s : t) : Z :=
  let dims := fst (calculateGridDimensions s) in
  let maxVisibleRows := maxDisplayLines s / itemHeight dims in
  let actualVisibleRows := Z.min maxVisibleRows (rows dims) in
  Z.max 0 (rows dims - actualVisibleRows) * columns dims.

(** [v] brought into [[lo, hi]], the lower bound first. *)
Definition clamp (lo hi v : Z) : Z :=
  if v <? lo then lo else if v >? hi then hi else v.

End GridScroll.

(** ** A selection that points into the list *)

Module Navigation.

Import TerminalGUI.
Local Open Scope Z_scope.

(** The selection and the scroll offset are not negative and, when there
    are entries, both are indices of entries. *)
Definition selectionValid (s : t) : Prop :=
  0 <= selectedIndex s /\
  0 <= scrollOffset s /\
  (0 < JS.len (files s) ->
   selectedIndex s < JS.len (files s) /\ scrollOffset s < JS.len (files s)).

(** The display area holds at least one row of tiles: [maxDisplayLines]
    is at least the tile height 19, which a terminal of 24 rows gives. *)
Definition tallEnough (s : t) : Prop := 19 <= maxDisplayLines s.

(** Valid, on a terminal tall enough. *)
Definition sound (s : t) : Prop := selectionValid s /\ tallEnough s.

(** A segment of a normalized path: a name, not [.] or [..]. *)
Definition isSegment (seg : string) : bool :=
  negb (String.eqb seg "" || String.eqb seg "." || String.eqb seg "..").

(** A directory path as [process.cwd()] and [path.join] give it: the
    root, or the root followed by segments with one separator between
    them and none at the end. *)
Definition normalized (dir : string) : Prop :=
  dir = "/"%string \/
  (exists rest, dir = String "/"%char rest /\
                JS.endsWithSlash dir = false /\
                forallb isSegment (JS.split rest "/"%char) = true).

(** A name as [fs.readdirSync] gives it: a segment without a
    separator. *)
Definition entryName (f : string) : Prop :=
  isSegment f = true /\ JS.includes f "/"%char = false.

End Navigation.

(** ** Activation, as the browser's two entry points see it *)

Module Activation.

Import TerminalGUI.
Local Open Scope Z_scope.



(** Entering a directory and starting the gallery are the open actions. *)
Definition isOpen (e : Effect) : bool :=
  match e with
  | EnteredDirectory _ => true
  | GalleryStarted _ _ => true
  | _ => false
  end.

Definition opens (l : list Effect) : list Effect := filter isOpen l.

(** The media files of a listing, as [openImageViewer] collects them. *)
Definition imageFilesOf (fs : list Item) : list string :=
  map path (filter (fun item => ItemType_eqb (type item) file
                                && isMediaFile (name item)) fs).

(** [e] opens [item]: it enters the directory, or starts the gallery on
    the listing's media files at the item's own path. *)
Definition opensItem (item : Item) (fs : list Item) (e : Effect) : Prop :=
  match type item with
  | directory => e = EnteredDirectory (path item)
  | file =>
      exists i, e = GalleryStarted (imageFilesOf fs) i /\
                JS.index (imageFilesOf fs) i = Some (path item)
  end.


End Activation.

(** ** The order of a listing *)

Module Listing.

Import TerminalGUI.
Local Open Scope Z_scope.

Definition isDirectoryItem (it : Item) : bool := ItemType_eqb (type it) directory.

Definition isFileItem (it : Item) : bool := ItemType_eqb (type it) file.

(** [a] is not after [b] by name, for the host's collation. *)
Definition byName (h : Host) (a b : Item) : Prop :=
  localeCompare h (name a) (name b) <= 0.

(** [a] is not after [b] for the comparator of [getMediaFiles]. *)
Definition inOrder (h : Host) (a b : Item) : Prop := compareItems h a b <= 0.

(** [file === '.' || file === '..'] *)
Definition isDots (f : string) : bool := String.eqb f "." || String.eqb f "..".

(** A name of the directory that belongs in the listing: not a dot
    entry, and a directory or a media file. *)
Definition kept (h : Host) (dir f : string) : bool :=
  negb (isDots f) &&
  match statSync h (JS.join dir f) with
  | Some stats => isDirectory stats || isMediaFile f
  | None => false
  end.

(** The item [getMediaFiles] makes of a name it keeps. *)
Definition entry (h : Host) (dir f : string) : Item :=
  match statSync h (JS.join dir f) with
  | Some stats =>
      if isDirectory stats then mkItem f (JS.join dir f) directory 0 ""
      else mkItem f (JS.join dir f) file (stat_size stats)
                  (JS.toLowerCase (JS.extname f))
  | None => mkItem f (JS.join dir f) file 0 ""
  end.

(** [fs.statSync] answers for every name of the directory but the dot
    entries. *)
Definition readable (h : Host) (dir : string) (names : list string) : bool :=
  forallb (fun f => isDots f ||
                    match statSync h (JS.join dir f) with
                    | Some _ => true
                    | None => false
                    end) names.

(** The collation is a total preorder. *)
Definition collates (h : Host) : Prop :=
  (forall a b, localeCompare h a b <= 0 \/ localeCompare h b a <= 0) /\
  (forall a b c, localeCompare h a b <= 0 -> localeCompare h b c <= 0 ->
                 localeCompare h a c <= 0).

End Listing.

(** ** Sample hosts, listings and images *)

Module Samples.

Import TerminalGUI.
Local Open Scope Z_scope.

(** Collation by code unit: the simplest order [localeCompare] can be. *)
Definition codeUnitCompare (a b : string) : Z :=
  match String.compare a b with
  | Lt => -1
  | Eq => 0
  | Gt => 1
  end.

(** A directory [/pics] holding the files [b.txt] and [a.png] and the
    directory [Sub], on an 80 by 24 terminal. *)
Definition host : Host :=
  mkHost codeUnitCompare
    (fun dir => if String.eqb dir "/pics"
                then Some ["b.txt"; "a.png"; "Sub"] else None)
    (fun p => if String.eqb p "/pics/Sub"
              then Some (mkStats true 4096) else Some (mkStats false 1024))
    (Some 80) (Some 24).

(** The same host once every directory has been emptied. *)
Definition emptied : Host :=
  mkHost codeUnitCompare (fun _ => Some []) (fun _ => None) (Some 80) (Some 24).

(** The browser in [/pics] after the first listing and render of
    [start()]. *)
Definition browser : t :=
  let s := constructor "/pics" (Some 80) (Some 24) false in
  render (set_files (getMediaFiles host s) s).

Definition picture (n : string) : Item :=
  mkItem n ("/shots/" ++ n)%string file 2048 ".png".

(** Ten pictures in a two-column grid that shows one row at a time, the
    last row on screen and its second tile selected. *)
Definition tenPictures : t :=
  mk "/shots"
     (map picture ["0.png"; "1.png"; "2.png"; "3.png"; "4.png";
                   "5.png"; "6.png"; "7.png"; "8.png"; "9.png"])
     9 8 grid_view 80 24 19 0 None 500 true (-1) true true None [].


(** A 2 by 2 RGBA image: the left column opaque over transparent, the
    right column transparent over opaque. *)
Definition twoByTwo : Generator.ImageData :=
  Generator.mkImageData
    [xff; x00; x0a; xff;   x01; x02; x03; x00;
     x04; x05; x06; x7f;   x07; x08; x09; x80]
    (Generator.mkInfo 2 2 4).

(** A 2 by 2 RGB image. *)
Definition twoByTwoRGB : Generator.ImageData :=
  Generator.mkImageData
    [xff; x00; x0a;   x01; x02; x03;
     x04; x05; x06;   x07; x08; x09]
    (Generator.mkInfo 2 2 3).

(** A single row of three RGB pixels. *)
Definition oneRow : Generator.ImageData :=
  Generator.mkImageData
    [xff; x00; x00;   x00; xff; x00;   x00; x00; xff]
    (Generator.mkInfo 3 1 3).

(** One column of two RGBA pixels, both transparent. *)
Definition clearPair : Generator.ImageData :=
  Generator.mkImageData
    [xff; xff; xff; x00;
     x10; x20; x30; x7f]
    (Generator.mkInfo 1 2 4).

(** Two RGB images one pixel wide and three rows high that differ in
    the third row only. *)
Definition threeRows : Generator.ImageData :=
  Generator.mkImageData
    [xff; x00; x00;   x00; xff; x00;   x00; x00; xff]
    (Generator.mkInfo 1 3 3).

Definition threeRowsOther : Generator.ImageData :=
  Generator.mkImageData
    [xff; x00; x00;   x00; xff; x00;   x7f; x7f; x7f]
    (Generator.mkInfo 1 3 3).

(** A black RGB image one row pair high and 100001 pixels wide. *)
Definition wide : Generator.ImageData :=
  Generator.mkImageData
    (repeat x00 (Z.to_nat 100001 * 2 * 3))
    (Generator.mkInfo (Z.to_nat 100001) 2 3).

(** A gallery on its second image of three, scrolled two rows into an
    image forty rows high. *)
Definition gallery : ImageGallerySlider.t :=
  ImageGallerySlider.mk ["/shots/0.png"; "/shots/1.png"; "/shots/2.png"]
    1 false 80 24 2 None 40.

End Samples.
(** * Properties *)

(** ** The grid layout and the browser's scrolling *)

Module LayoutProofs.

Import TerminalGUI.
Local Open Scope Z_scope.

(** [calculateGridDimensions] writes [useTripleText] and nothing else. *)
Lemma calculateGridDimensions_state (s : t) :
  snd (calculateGridDimensions s) = set_useTripleText true s.
Proof. reflexivity. Qed.

Lemma calculateGridDimensions_columns_eq (s : t) :
  columns (fst (calculateGridDimensions s)) =
  Z.max 1 ((terminalWidth s - 2) / 34).
Proof. reflexivity. Qed.


(** C8: for every terminal width and every list of items, the grid
    layout has [columns = max(1, floor((terminalWidth - 2) / (tileWidth +
    gapWidth)))] with the constants [tileWidth = 32] and [gapWidth = 2],
    so there is always at least one column. *)
Theorem calculateGridDimensions_columns (s : t) :
  let d := fst (calculateGridDimensions s) in
  itemWidth d = 32 /\
  gapWidth d = 2 /\
  columns d = Z.max 1 ((terminalWidth s - 2) / (itemWidth d + gapWidth d)) /\
  1 <= columns d.
Proof.
  cbv zeta. rewrite calculateGridDimensions_columns_eq.
  repeat split; try reflexivity. apply Z.le_max_l.
Qed.

(** C9: the area test [32 * 19 >= 500] that [calculateGridDimensions]
    evaluates is true whatever the terminal size and the items, so every
    call sets [useTripleText] and returns the triple-line tile height 19;
    the single-line height 17 is never returned. *)
Theorem calculateGridDimensions_always_triple (s : t) :
  (32 * 19 >=? 500) = true /\
  useTripleText (snd (calculateGridDimensions s)) = true /\
  itemHeight (fst (calculateGridDimensions s)) = 19 /\
  itemHeight (fst (calculateGridDimensions s)) <> 17.
Proof.
  repeat split; try reflexivity.
  change (itemHeight (fst (calculateGridDimensions s))) with 19. discriminate.
Qed.

(** *** What rendering leaves alone *)

Ltac unfold_render :=
  unfold render, renderWithClear, add_log, drawFooter, drawFileList,
    drawListView, drawGridView, calculateGridDimensions.

Ltac frame :=
  intros; unfold_render; cbv zeta;
  repeat match goal with
         | |- context [match ?v with list_view => _ | grid_view => _ end] =>
             destruct v
         | |- context [if ?b then _ else _] => destruct b
         end; reflexivity.

Lemma render_files s : files (render s) = files s.
Proof. frame. Qed.

Lemma render_selectedIndex s : selectedIndex (render s) = selectedIndex s.
Proof. frame. Qed.

Lemma render_lastClickTime s : lastClickTime (render s) = lastClickTime s.
Proof. frame. Qed.

Lemma render_lastClickTarget s : lastClickTarget (render s) = lastClickTarget s.
Proof. frame. Qed.


Lemma render_log s : log (render s) = log s ++ [Rendered].
Proof. frame. Qed.

(** A scroll offset that is already [0] stays [0] through a render. *)
Lemma render_scrollOffset_0 s :
  scrollOffset s = 0 -> 0 <= maxDisplayLines s ->
  scrollOffset (render s) = 0.
Proof.
  intros H0 Hm. destruct s as [cd fs si so vm tw th mdl lt lg dt me hi sm ut ag lo].
  simpl in H0, Hm. subst so. unfold_render. cbv zeta.
  destruct vm; simpl; [reflexivity|].
  set (c := Z.max 1 ((tw - 2) / 34)).
  set (r := JS.ceilDiv (JS.len fs) c).
  assert (Hc : 1 <= c) by apply Z.le_max_l.
  assert (Hn : 0 <= Z.max 0 (r - Z.min (mdl / 19) r) * c).
  { apply Z.mul_nonneg_nonneg; lia. }
  destruct (0 >? _) eqn:E.
  - apply Z.gtb_lt in E. lia.
  - simpl. destruct (sm && _); reflexivity.
Qed.

(** C10: after [refresh()] has read the listing again, with the previous
    selection and scroll offset non-negative: if the new list is not
    empty, [selectedIndex] is the smaller of its previous value and
    [length - 1], hence within [[0, length - 1]]; if the new list is
    empty, [selectedIndex] becomes [-1] and [scrollOffset] becomes [0]. *)
Theorem refresh_selectedIndex (h : Host) (s : t) :
  0 <= selectedIndex s ->
  0 <= scrollOffset s ->
  1 <= maxDisplayLines s ->
  let s' := refresh h s in
  let n := JS.len (files s') in
  files s' = getMediaFiles h s /\
  (0 < n ->
   selectedIndex s' = Z.min (selectedIndex s) (n - 1) /\
   0 <= selectedIndex s' <= n - 1) /\
  (n = 0 -> selectedIndex s' = -1 /\ scrollOffset s' = 0).
Proof.
  intros Hsel Hscr Hm. cbv zeta. unfold refresh. cbv zeta.
  rewrite render_files, render_selectedIndex. simpl files. simpl selectedIndex.
  split; [reflexivity|]. split.
  - intros Hn. split; [reflexivity | lia].
  - intros Hn. split; [rewrite Hn; lia|].
    apply render_scrollOffset_0; simpl; [rewrite Hn | ]; lia.
Qed.

(** [refresh_selectedIndex] at the sample browser: once where the
    listing still holds entries, once after its directory has become
    unreadable and the listing is empty. *)
Lemma refresh_selectedIndex_witness :
  0 <= selectedIndex Samples.browser /\
  0 <= scrollOffset Samples.browser /\
  1 <= maxDisplayLines Samples.browser /\
  selectedIndex (refresh Samples.host Samples.browser) = 0 /\
  files (refresh Samples.host (set_currentDirectory "/gone" Samples.browser)) = [] /\
  selectedIndex
    (refresh Samples.host (set_currentDirectory "/gone" Samples.browser)) = -1 /\
  scrollOffset
    (refresh Samples.host (set_currentDirectory "/gone" Samples.browser)) = 0.
Proof.
  assert (H1 : 0 <= selectedIndex Samples.browser) by (vm_compute; discriminate).
  assert (H2 : 0 <= scrollOffset Samples.browser) by (vm_compute; discriminate).
  assert (H3 : 1 <= maxDisplayLines Samples.browser) by (vm_compute; discriminate).
  repeat (split; [assumption|]).
  pose proof (refresh_selectedIndex Samples.host Samples.browser H1 H2 H3) as A.
  pose proof (refresh_selectedIndex Samples.host
                (set_currentDirectory "/gone" Samples.browser) H1 H2 H3) as B.
  cbv zeta in A, B.
  destruct A as [_ [A _]]. destruct B as [Bf [_ B]].
  split.
  - destruct A as [A _]; [reflexivity|]. rewrite A. reflexivity.
  - split; [rewrite Bf; reflexivity|]. apply B. rewrite Bf. reflexivity.
Defined.

(** *** One scroll step of the grid *)

Lemma maxScrollOffset_nonneg (s : t) : 0 <= GridScroll.maxScrollOffset s.
Proof.
  unfold GridScroll.maxScrollOffset. cbv zeta.
  rewrite calculateGridDimensions_columns_eq.
  apply Z.mul_nonneg_nonneg; lia.
Qed.

(** Rendering leaves an offset within the range where it is. *)
Lemma renderWithClear_scrollOffset (s : t) :
  0 <= scrollOffset s <= GridScroll.maxScrollOffset s ->
  scrollOffset (renderWithClear s) = scrollOffset s.
Proof.
  destruct s as [cd fs si so vm tw th mdl lt lg dt me hi sm ut ag lo].
  unfold GridScroll.maxScrollOffset. cbv zeta.
  set (d := fst (calculateGridDimensions _)).
  cbn [scrollOffset maxDisplayLines].
  set (m := Z.max 0 (rows d - Z.min (mdl / itemHeight d) (rows d)) * columns d).
  intros Hso.
  unfold renderWithClear, add_log, drawFooter, drawFileList, drawListView,
    drawGridView.
  change (calculateGridDimensions
            (mk cd fs si so vm tw th mdl lt lg dt me hi sm ut ag lo))
    with (d, mk cd fs si so vm tw th mdl lt lg dt me hi sm true ag lo).
  cbn [viewMode]. destruct vm; [reflexivity|]. cbv zeta.
  cbn [scrollOffset maxDisplayLines]. fold m.
  destruct (so <? 0) eqn:E1; [apply Z.ltb_lt in E1; lia|].
  cbn [scrollOffset].
  destruct (so >? m) eqn:E2; [apply Z.gtb_lt in E2; lia|].
  cbn [viewMode scrollMode files]. destruct (sm && _); reflexivity.
Qed.

Lemma renderWithClear_selectedIndex s :
  selectedIndex (renderWithClear s) = selectedIndex s.
Proof. frame. Qed.

(** What [scrollGrid] does, for an offset within its range: the offset
    moves by one row of [columns] items and stays within
    [[0, maxScrollOffset]]; the selection is then brought between the new
    offset and [maxDisplayLines * columns - 1] items further. *)
Lemma scrollGrid_step (direction : Z) (s : t) :
  0 <= scrollOffset s <= GridScroll.maxScrollOffset s ->
  let c := columns (fst (calculateGridDimensions s)) in
  let s' := scrollGrid direction s in
  scrollOffset s' =
  (if direction =? -1 then Z.max 0 (scrollOffset s - c)
   else Z.min (GridScroll.maxScrollOffset s) (scrollOffset s + c)) /\
  0 <= scrollOffset s' <= GridScroll.maxScrollOffset s /\
  selectedIndex s' =
  GridScroll.clamp (scrollOffset s')
                   (scrollOffset s' + maxDisplayLines s * c - 1)
                   (selectedIndex s).
Proof.
  intros Hso. cbv zeta.
  pose proof (maxScrollOffset_nonneg s) as Hm.
  pose proof (Z.le_max_l 1 ((terminalWidth s - 2) / 34)) as Hc.
  rewrite <- calculateGridDimensions_columns_eq in Hc.
  set (c := columns (fst (calculateGridDimensions s))) in *.
  set (so' := if direction =? -1 then Z.max 0 (scrollOffset s - c)
              else Z.min (GridScroll.maxScrollOffset s) (scrollOffset s + c)).
  assert (Hso' : 0 <= so' <= GridScroll.maxScrollOffset s)
    by (unfold so'; destruct (direction =? -1); lia).
  set (sel' := GridScroll.clamp so' (so' + maxDisplayLines s * c - 1)
                                (selectedIndex s)).
  assert (E : scrollGrid direction s =
              renderWithClear
                (set_selectedIndex sel'
                   (set_scrollOffset so' (set_useTripleText true s)))).
  { unfold sel', so', c, GridScroll.clamp, GridScroll.maxScrollOffset.
    destruct s as [cd fs si so vm tw th mdl lt lg dt me hi sm ut ag lo].
    set (d := fst (calculateGridDimensions _)).
    unfold scrollGrid.
    change (calculateGridDimensions
              (mk cd fs si so vm tw th mdl lt lg dt me hi sm ut ag lo))
      with (d, mk cd fs si so vm tw th mdl lt lg dt me hi sm true ag lo).
    cbv zeta.
    cbn [scrollOffset maxDisplayLines selectedIndex].
    destruct (direction =? -1);
      unfold set_scrollOffset, set_selectedIndex, set_useTripleText;
      cbn [scrollOffset maxDisplayLines selectedIndex currentDirectory files
           viewMode terminalWidth terminalHeight lastClickTime lastClickTarget
           doubleClickThreshold mouseEnabled hoverIndex scrollMode useTripleText
           activeGallery log];
      match goal with
      | |- context [?a <? ?b] => destruct (a <? b)
      end; try reflexivity;
      match goal with
      | |- context [?a >? ?b] => destruct (a >? b)
      end; reflexivity. }
  rewrite E, renderWithClear_selectedIndex, renderWithClear_scrollOffset.
  - split; [reflexivity|]. split; [exact Hso'|]. reflexivity.
  - exact Hso'.
Qed.

(** C5, where the code departs from it: ten items in two columns, one
    row of tiles on screen, the selection on item 9 in the visible last
    row.  One scroll step up, by the scroll key or by the wheel, moves
    [scrollOffset] from 8 to 6 as claimed, and the grid then paints items
    6 and 7; [selectedIndex] stays 9, off screen, because the upper bound
    it is clamped to counts [maxDisplayLines] rows of tiles. *)
Theorem scroll_leaves_selection_off_screen :
  let s := Samples.tenPictures in
  paintedIndices s = [8; 9] /\
  (let s' := scrollGrid (-1) s in
   scrollOffset s' = 6 /\ paintedIndices s' = [6; 7] /\ selectedIndex s' = 9) /\
  (let s' := handleScrollWheel (-1) s in
   scrollOffset s' = 6 /\ paintedIndices s' = [6; 7] /\ selectedIndex s' = 9).
Proof. vm_compute. repeat split; reflexivity. Qed.

End LayoutProofs.

(** ** Opening an entry takes two activations *)

Module ActivationProofs.

Import TerminalGUI Activation.
Import LayoutProofs.
Local Open Scope Z_scope.

Lemma index_nonempty {A : Type} (l : list A) (i : Z) (a : A) :
  JS.index l i = Some a -> (JS.len l =? 0) = false.
Proof.
  unfold JS.index, JS.len. intros H. destruct l.
  - destruct (i <? 0); [discriminate|]. destruct (Z.to_nat i); discriminate.
  - apply Z.eqb_neq. simpl List.length. lia.
Qed.

Lemma index_In {A : Type} (l : list A) (i : Z) (a : A) :
  JS.index l i = Some a -> In a l.
Proof.
  unfold JS.index. destruct (i <? 0); [discriminate|]. apply nth_error_In.
Qed.

(** [indexOf] finds a string that is in the array, at a position that
    holds it. *)
Lemma indexOfFrom_In (l : list string) (p : string) (i : Z) :
  In p l ->
  i <= JS.indexOfFrom l p i /\
  nth_error l (Z.to_nat (JS.indexOfFrom l p i - i)) = Some p.
Proof.
  revert i. induction l as [|q l IH]; intros i Hin; [contradiction|].
  simpl. destruct (String.eqb q p) eqn:E.
  - apply String.eqb_eq in E. subst q. rewrite Z.sub_diag. split; [lia|reflexivity].
  - destruct Hin as [->|Hin]; [rewrite String.eqb_refl in E; discriminate|].
    destruct (IH (i + 1) Hin) as [Hle Hnth]. split; [lia|].
    replace (Z.to_nat (JS.indexOfFrom l p (i + 1) - i))
      with (S (Z.to_nat (JS.indexOfFrom l p (i + 1) - (i + 1)))) by lia.
    exact Hnth.
Qed.

Lemma indexOf_In (l : list string) (p : string) :
  In p l ->
  (JS.indexOf l p =? -1) = false /\ JS.index l (JS.indexOf l p) = Some p.
Proof.
  intros Hin. destruct (indexOfFrom_In l p 0 Hin) as [Hle Hnth].
  unfold JS.indexOf, JS.index. split.
  - apply Z.eqb_neq. lia.
  - destruct (_ <? 0) eqn:E; [apply Z.ltb_lt in E; lia|].
    rewrite Z.sub_0_r in Hnth. exact Hnth.
Qed.

Lemma opens_app (l l' : list Effect) : opens (l ++ l') = opens l ++ opens l'.
Proof. apply filter_app. Qed.

Lemma opens_render s : opens (log (render s)) = opens (log s).
Proof. rewrite render_log, opens_app. simpl. apply app_nil_r. Qed.

(** Entering a directory is one open action and leaves the click record
    as it finds it. *)
Lemma navigateToDirectory_effect (h : Host) (dirPath : string) (s : t) :
  let s' := navigateToDirectory h dirPath s in
  opens (log s') = opens (log s) ++ [EnteredDirectory dirPath] /\
  lastClickTarget s' = lastClickTarget s /\
  lastClickTime s' = lastClickTime s.
Proof.
  cbv zeta. unfold navigateToDirectory. cbv zeta.
  rewrite opens_render, render_lastClickTarget, render_lastClickTime.
  simpl. rewrite opens_app. simpl. repeat split; reflexivity.
Qed.

(** Opening the viewer on a media file of the listing starts the gallery
    there, and leaves the click record as it finds it. *)
Lemma openImageViewer_effect (h : Host) (item : Item) (s : t) :
  In item (files s) ->
  type item = file ->
  isMediaFile (name item) = true ->
  let s' := openImageViewer h (path item) s in
  exists i,
    opens (log s') = opens (log s) ++ [GalleryStarted (imageFilesOf (files s)) i] /\
    JS.index (imageFilesOf (files s)) i = Some (path item) /\
    lastClickTarget s' = lastClickTarget s /\
    lastClickTime s' = lastClickTime s.
Proof.
  intros Hin Hty Hmedia. cbv zeta. unfold openImageViewer. cbv zeta.
  fold (imageFilesOf (files s)).
  assert (Hp : In (path item) (imageFilesOf (files s))).
  { unfold imageFilesOf. apply in_map. apply filter_In. split; [exact Hin|].
    rewrite Hty, Hmedia. reflexivity. }
  destruct (indexOf_In _ _ Hp) as [Hne Hidx]. rewrite Hne.
  exists (JS.indexOf (imageFilesOf (files s)) (path item)).
  unfold add_log. simpl. rewrite opens_app. simpl.
  repeat split; try reflexivity. exact Hidx.
Qed.





End ActivationProofs.

(** ** The order of the entry list *)

Module ListingProofs.

Import TerminalGUI Listing.
Import LayoutProofs.
Local Open Scope Z_scope.

(** *** Insertion sort *)

Section Sort.

Variable A : Type.
Variable cmp : A -> A -> Z.
Hypothesis cmp_total : forall a b, cmp a b <= 0 \/ cmp b a <= 0.
Hypothesis cmp_trans : forall a b c, cmp a b <= 0 -> cmp b c <= 0 -> cmp a c <= 0.

Let le (a b : A) : Prop := cmp a b <= 0.

Lemma insert_perm (x : A) (l : list A) : Permutation (x :: l) (JS.insert cmp x l).
Proof.
  induction l as [|y l IH]; simpl; [reflexivity|].
  destruct (cmp x y <=? 0); [reflexivity|].
  rewrite perm_swap. apply perm_skip. exact IH.
Qed.

Lemma sort_perm (l : list A) : Permutation l (JS.sort cmp l).
Proof.
  induction l as [|x l IH]; simpl; [reflexivity|].
  rewrite <- insert_perm. apply perm_skip. exact IH.
Qed.

Lemma insert_sorted (x : A) (l : list A) :
  StronglySorted le l -> StronglySorted le (JS.insert cmp x l).
Proof.
  induction 1 as [|y l Hs IH Hall]; simpl.
  - constructor; constructor.
  - destruct (cmp x y <=? 0) eqn:E.
    + apply Z.leb_le in E. constructor.
      * constructor; assumption.
      * constructor; [exact E|].
        eapply Forall_impl; [|exact Hall]. intros z Hz. eapply cmp_trans; eassumption.
    + apply Z.leb_gt in E. constructor; [exact IH|].
      rewrite <- insert_perm. constructor; [|exact Hall].
      destruct (cmp_total x y) as [H|H]; [lia | exact H].
Qed.

Lemma sort_sorted (l : list A) : StronglySorted le (JS.sort cmp l).
Proof.
  induction l as [|x l IH]; simpl; [constructor | apply insert_sorted; exact IH].
Qed.

End Sort.

(** *** The comparator of [getMediaFiles] *)

Section Order.

Variable h : Host.
Hypothesis Hcollates : collates h.

Lemma compareItems_total (a b : Item) : inOrder h a b \/ inOrder h b a.
Proof.
  unfold inOrder, compareItems. destruct Hcollates as [Htot _].
  destruct (type a), (type b); simpl; try lia; apply Htot.
Qed.

Lemma compareItems_trans (a b c : Item) :
  inOrder h a b -> inOrder h b c -> inOrder h a c.
Proof.
  unfold inOrder, compareItems. destruct Hcollates as [_ Htr].
  destruct (type a), (type b), (type c); simpl; try lia; apply Htr.
Qed.

(** In a list in order, the directories lead and the files follow, each
    kind by name. *)
Lemma inOrder_split (l : list Item) :
  StronglySorted (inOrder h) l ->
  l = filter isDirectoryItem l ++ filter isFileItem l /\
  StronglySorted (byName h) (filter isDirectoryItem l) /\
  StronglySorted (byName h) (filter isFileItem l).
Proof.
  induction 1 as [|x l Hs [IH1 [IH2 IH3]] Hall]; simpl.
  - repeat split; constructor.
  - unfold isDirectoryItem, isFileItem in *.
    destruct (type x) eqn:Hx; simpl.
    + (* a directory: it heads the directories *)
      split; [f_equal; exact IH1|]. split; [|exact IH3].
      constructor; [exact IH2|].
      apply Forall_forall. intros y Hy. apply filter_In in Hy. destruct Hy as [Hy Hd].
      rewrite Forall_forall in Hall. specialize (Hall y Hy).
      unfold inOrder, compareItems in Hall. rewrite Hx in Hall.
      destruct (type y); [exact Hall | discriminate Hd].
    + (* a file: nothing after it is a directory *)
      assert (Hfiles : Forall (fun y => type y = file) l).
      { eapply Forall_impl; [|exact Hall]. intros y Hy.
        unfold inOrder, compareItems in Hy. rewrite Hx in Hy.
        destruct (type y); simpl in Hy; [lia | reflexivity]. }
      assert (Hnil : filter (fun it => ItemType_eqb (type it) directory) l = []).
      { clear - Hfiles. induction Hfiles as [|y l Hy _ IH]; simpl; [reflexivity|].
        rewrite Hy. exact IH. }
      assert (Hall' : filter (fun it => ItemType_eqb (type it) file) l = l).
      { clear - Hfiles. induction Hfiles as [|y l Hy _ IH]; simpl; [reflexivity|].
        rewrite Hy. simpl. f_equal. exact IH. }
      rewrite Hnil in *. rewrite Hall' in *. simpl.
      split; [reflexivity|]. split; [constructor|].
      constructor; [exact IH3|].
      apply Forall_forall. intros y Hy.
      rewrite Forall_forall in Hall, Hfiles.
      specialize (Hall y Hy). specialize (Hfiles y Hy).
      unfold inOrder, compareItems in Hall. rewrite Hx, Hfiles in Hall. exact Hall.
Qed.

End Order.

(** *** What the listing keeps *)

(** Every item collected is new or was there before, and a new file item
    has a supported extension. *)
Lemma collectItems_media (h : Host) (dir : string) (names : list string) :
  forall acc items,
    collectItems h dir names acc = Some items ->
    Forall (fun it => type it = file -> isMediaFile (name it) = true) acc ->
    Forall (fun it => type it = file -> isMediaFile (name it) = true) items.
Proof.
  induction names as [|f names IH]; intros acc items H Hacc; simpl in H.
  - inversion H. subst. exact Hacc.
  - destruct (String.eqb f "." || String.eqb f ".."); [eauto|].
    destruct (statSync h (JS.join dir f)) as [st|]; [|discriminate].
    destruct (isDirectory st).
    + eapply IH; [exact H|]. apply Forall_app. split; [exact Hacc|].
      constructor; [|constructor]. simpl. discriminate.
    + destruct (isMediaFile f) eqn:E; [|eauto].
      eapply IH; [exact H|]. apply Forall_app. split; [exact Hacc|].
      constructor; [|constructor]. simpl. intros _. exact E.
Qed.

Lemma navigateToDirectory_files (h : Host) (dirPath : string) (s : t) :
  files (navigateToDirectory h dirPath s) =
  getMediaFiles h (set_currentDirectory dirPath s).
Proof.
  unfold navigateToDirectory. cbv zeta. rewrite render_files. reflexivity.
Qed.

Lemma getMediaFiles_listed (h : Host) (s : t) (names : list string)
      (items : list Item) :
  readdirSync h (currentDirectory s) = Some names ->
  collectItems h (currentDirectory s) names [] = Some items ->
  getMediaFiles h s = JS.sort (compareItems h) items.
Proof. intros H1 H2. unfold getMediaFiles. rewrite H1, H2. reflexivity. Qed.

Lemma getMediaFiles_media (h : Host) (s : t) :
  Forall (fun it => type it = file -> isMediaFile (name it) = true)
         (getMediaFiles h s).
Proof.
  unfold getMediaFiles.
  destruct (readdirSync h (currentDirectory s)) as [names|]; [|constructor].
  destruct (collectItems h (currentDirectory s) names []) as [items|] eqn:E;
    [|constructor].
  pose proof (collectItems_media h _ _ _ _ E (Forall_nil _)) as Hm.
  rewrite Forall_forall in *. intros it Hit. apply Hm.
  eapply Permutation_in; [|exact Hit]. symmetry. apply sort_perm.
Qed.

Lemma getMediaFiles_sorted (h : Host) (s : t) :
  collates h -> StronglySorted (inOrder h) (getMediaFiles h s).
Proof.
  intros Hc. unfold getMediaFiles.
  destruct (readdirSync h (currentDirectory s)) as [names|]; [|constructor].
  destruct (collectItems h (currentDirectory s) names []) as [items|];
    [|constructor].
  apply sort_sorted.
  - apply compareItems_total. exact Hc.
  - apply compareItems_trans. exact Hc.
Qed.

(** The listing of the scenario, whatever the collation: [b.txt] is no
    media file and is left out. *)
Lemma scenario_listing (h : Host) (dirPath : string) (s : t) (n1 n2 n3 : Z) :
  readdirSync h dirPath = Some ["b.txt"; "a.png"; "Sub"] ->
  statSync h (JS.join dirPath "b.txt") = Some (mkStats false n1) ->
  statSync h (JS.join dirPath "a.png") = Some (mkStats false n2) ->
  statSync h (JS.join dirPath "Sub") = Some (mkStats true n3) ->
  map name (files (navigateToDirectory h dirPath s)) = ["Sub"; "a.png"].
Proof.
  intros Hr H1 H2 H3. rewrite navigateToDirectory_files.
  unfold getMediaFiles. simpl currentDirectory. rewrite Hr.
  simpl collectItems. rewrite H1, H2, H3. reflexivity.
Qed.

(** C3, as the code has it: after a change of directory the entry list
    holds the directories and the recognised media files only (other
    files are left out), all directories before all files, each kind in
    the order of the host's locale-aware comparison of names; so a
    directory with the files [b.txt] and [a.png] and the subdirectory
    [Sub] lists as [Sub], [a.png]. *)
Theorem changeDirectory_order (h : Host) (dirPath : string) (s : t) :
  collates h ->
  let fs := files (navigateToDirectory h dirPath s) in
  fs = filter isDirectoryItem fs ++ filter isFileItem fs /\
  StronglySorted (byName h) (filter isDirectoryItem fs) /\
  StronglySorted (byName h) (filter isFileItem fs) /\
  Forall (fun it => type it = file -> isMediaFile (name it) = true) fs /\
  (forall names items,
     readdirSync h dirPath = Some names ->
     collectItems h dirPath names [] = Some items ->
     Permutation items fs) /\
  (forall n1 n2 n3,
     readdirSync h dirPath = Some ["b.txt"; "a.png"; "Sub"] ->
     statSync h (JS.join dirPath "b.txt") = Some (mkStats false n1) ->
     statSync h (JS.join dirPath "a.png") = Some (mkStats false n2) ->
     statSync h (JS.join dirPath "Sub") = Some (mkStats true n3) ->
     map name fs = ["Sub"; "a.png"]).
Proof.
  intros Hc. cbv zeta.
  destruct (inOrder_split h _
              (getMediaFiles_sorted h (set_currentDirectory dirPath s) Hc))
    as [Hsplit [Hd Hf]].
  rewrite navigateToDirectory_files.
  split; [exact Hsplit|]. split; [exact Hd|]. split; [exact Hf|].
  split; [apply getMediaFiles_media|]. split.
  - intros names items Hr Hi.
    rewrite (getMediaFiles_listed h (set_currentDirectory dirPath s) names items Hr Hi).
    apply sort_perm.
  - intros n1 n2 n3 Hr H1 H2 H3. rewrite <- navigateToDirectory_files.
    eapply scenario_listing; eassumption.
Qed.

(** C3 as claimed fails: the directory of the scenario lists as [Sub],
    [a.png], without [b.txt]. *)
Lemma changeDirectory_drops_other_files :
  readdirSync Samples.host "/pics" = Some ["b.txt"; "a.png"; "Sub"] /\
  map name (files (navigateToDirectory Samples.host "/pics" Samples.browser)) =
  ["Sub"; "a.png"] /\
  isMediaFile "b.txt" = false.
Proof. vm_compute. repeat split; reflexivity. Qed.

(** *** Code-unit order is a collation *)

Lemma compare_not_Gt_trans (a b c : string) :
  String.compare a b <> Gt -> String.compare b c <> Gt -> String.compare a c <> Gt.
Proof.
  revert b c. induction a as [|x a IH]; intros [|y b] [|z c]; simpl;
    try congruence.
  unfold Ascii.compare.
  destruct (N.compare_spec (N_of_ascii x) (N_of_ascii y)) as [E1|E1|E1];
    destruct (N.compare_spec (N_of_ascii y) (N_of_ascii z)) as [E2|E2|E2];
    destruct (N.compare_spec (N_of_ascii x) (N_of_ascii z)) as [E3|E3|E3];
    try congruence; try lia.
  apply IH.
Qed.

Lemma codeUnitCompare_collates : collates Samples.host.
Proof.
  split; simpl; unfold Samples.codeUnitCompare.
  - intros a b. rewrite (String.compare_antisym b a).
    destruct (String.compare a b); simpl; lia.
  - intros a b c H1 H2.
    pose proof (compare_not_Gt_trans a b c) as T.
    destruct (String.compare a b); destruct (String.compare b c);
      destruct (String.compare a c); try lia;
      exfalso; apply T; congruence.
Qed.

(** [changeDirectory_order] at the sample host, entering [/pics]. *)
Lemma changeDirectory_order_witness :
  collates Samples.host /\
  map name (files (navigateToDirectory Samples.host "/pics" Samples.browser)) =
  ["Sub"; "a.png"] /\
  map type (files (navigateToDirectory Samples.host "/pics" Samples.browser)) =
  [directory; file].
Proof.
  split; [exact codeUnitCompare_collates|].
  destruct (changeDirectory_order Samples.host "/pics" Samples.browser
              codeUnitCompare_collates) as [_ [_ [_ [_ [_ H]]]]].
  split; [|reflexivity].
  apply (H 1024 1024 4096); reflexivity.
Defined.

End ListingProofs.

(** ** The gallery slider *)

Module GalleryProofs.

Import ImageGallerySlider GalleryBounds.
Local Open Scope Z_scope.

Ltac setters :=
  unfold inBounds, set_currentIndex, set_isNavigating, set_scrollOffset, set_imageData,
    set_imageHeight, set_terminalSize in *; simpl in *.

Ltac finish :=
  setters; repeat split; intros; try reflexivity; try assumption;
  try match goal with
      | H : @eq string _ _ |- _ => vm_compute in H; discriminate H
      end;
  try lia.

Lemma index_in_range {A : Type} (l : list A) (i : Z) :
  0 <= i <= JS.len l - 1 -> exists a, JS.index l i = Some a.
Proof.
  intros H. unfold JS.index, JS.len in *.
  destruct (i <? 0) eqn:E; [apply Z.ltb_lt in E; lia|].
  destruct (nth_error l (Z.to_nat i)) eqn:N; [eauto|].
  apply nth_error_None in N. lia.
Qed.

(** Loading an image at an index within the list completes, resets or
    keeps the scroll offset, and keeps the bounds. *)
Lemma showCurrentImage_inBounds (r : Generated) (g : t) :
  inBounds g ->
  exists g', showCurrentImage r g = JS.Normal g' /\
             inBounds g' /\
             imagePaths g' = imagePaths g /\
             currentIndex g' = currentIndex g /\
             isNavigating g' = isNavigating g /\
             terminalHeight g' = terminalHeight g.
Proof.
  intros [Hi Hs]. unfold showCurrentImage.
  destruct (JS.len (imagePaths g) =? 0) eqn:E.
  { exists g. repeat split; tauto. }
  destruct (index_in_range (imagePaths g) (currentIndex g) Hi) as [p Hp].
  rewrite Hp. destruct r as [|art].
  - exists g. repeat split; tauto.
  - eexists. split; [reflexivity|].
    unfold displayWithNavigation, calculateImageDimensions.
    unfold inBounds.
    destruct art as [a|]; setters; repeat split; try reflexivity; try tauto; lia.
Qed.

Lemma key_distinct :
  (String.eqb keyLeft "q" = false /\ String.eqb keyLeft "Q" = false /\
   String.eqb keyLeft JS.ESC = false) /\
  (String.eqb keyRight "q" = false /\ String.eqb keyRight "Q" = false /\
   String.eqb keyRight JS.ESC = false /\ String.eqb keyRight keyLeft = false) /\
  (String.eqb keyUp "q" = false /\ String.eqb keyUp "Q" = false /\
   String.eqb keyUp JS.ESC = false /\ String.eqb keyUp keyLeft = false /\
   String.eqb keyUp keyRight = false) /\
  (String.eqb keyDown "q" = false /\ String.eqb keyDown "Q" = false /\
   String.eqb keyDown JS.ESC = false /\ String.eqb keyDown keyLeft = false /\
   String.eqb keyDown keyRight = false /\ String.eqb keyDown keyUp = false).
Proof. repeat split; reflexivity. Qed.

(** C7: over a non-empty image list, each of the four gallery keys
    (previous, next, scroll up, scroll down) runs to its end and keeps
    [0 <= currentIndex <= n - 1] and [0 <= scrollOffset <= max(0,
    imageHeight - (terminalHeight - 6))]; the index moves by at most one and
    does not wrap: previous at the first image and next at the last leave
    it where it is. *)
Theorem handleKey_keeps_bounds (key : string) (r : Generated) (g : t) :
  imagePaths g <> [] ->
  inBounds g ->
  In key [keyLeft; keyRight; keyUp; keyDown] ->
  exists g',
    handleKey key r g = Handled g' /\
    inBounds g' /\
    imagePaths g' = imagePaths g /\
    terminalHeight g' = terminalHeight g /\
    (key = keyLeft -> currentIndex g = 0 -> currentIndex g' = 0) /\
    (key = keyRight -> currentIndex g = JS.len (imagePaths g) - 1 ->
     currentIndex g' = JS.len (imagePaths g) - 1) /\
    currentIndex g - 1 <= currentIndex g' <= currentIndex g + 1.
Proof.
  intros Hne [Hi Hs] Hkey. unfold handleKey.
  destruct (isNavigating g) eqn:Hnav.
  { exists g. finish. }
  destruct key_distinct as [[L1 [L2 L3]] [[R1 [R2 [R3 R4]]]
    [[U1 [U2 [U3 [U4 U5]]]] [D1 [D2 [D3 [D4 [D5 D6]]]]]]]].
  simpl in Hkey.
  destruct Hkey as [<-|[<-|[<-|[<-|[]]]]]; cbv zeta.
  - (* previous *)
    rewrite L1, L2, L3, String.eqb_refl. simpl.
    destruct (currentIndex g >? 0) eqn:E.
    + apply Z.gtb_lt in E.
      destruct (showCurrentImage_inBounds r
                  (set_currentIndex (currentIndex g - 1) (set_isNavigating true g)))
        as [g' [Hg' [[Hi' Hs'] [Hp [Hc [Hn Ht]]]]]].
      { split; setters; lia. }
      rewrite Hg'. eexists. split; [reflexivity|].
      setters. rewrite Hp, Hc in *. finish.
    + rewrite Z.gtb_ltb in E. apply Z.ltb_ge in E.
      eexists. split; [reflexivity|]. finish.
  - (* next *)
    rewrite R1, R2, R3, R4, String.eqb_refl. simpl.
    destruct (currentIndex g <? JS.len (imagePaths g) - 1) eqn:E.
    + apply Z.ltb_lt in E.
      destruct (showCurrentImage_inBounds r
                  (set_currentIndex (currentIndex g + 1) (set_isNavigating true g)))
        as [g' [Hg' [[Hi' Hs'] [Hp [Hc [Hn Ht]]]]]].
      { split; setters; lia. }
      rewrite Hg'. eexists. split; [reflexivity|].
      setters. rewrite Hp, Hc in *. finish.
    + eexists. split; [reflexivity|]. finish.
  - (* scroll up *)
    rewrite U1, U2, U3, U4, U5, String.eqb_refl. simpl.
    destruct (scrollOffset g >? 0) eqn:E.
    + apply Z.gtb_lt in E. eexists. split; [reflexivity|].
      unfold displayWithNavigation. finish.
    + eexists. split; [reflexivity|]. finish.
  - (* scroll down *)
    rewrite D1, D2, D3, D4, D5, D6, String.eqb_refl. simpl.
    destruct (scrollOffset g <? _) eqn:E.
    + apply Z.ltb_lt in E. eexists. split; [reflexivity|].
      unfold displayWithNavigation. finish.
    + eexists. split; [reflexivity|]. finish.
Qed.

(** [handleKey_keeps_bounds] at the sample gallery, scrolling down. *)
Lemma handleKey_keeps_bounds_witness :
  imagePaths Samples.gallery <> [] /\
  inBounds Samples.gallery /\
  exists g',
    handleKey keyDown (Resolves None) Samples.gallery = Handled g' /\
    inBounds g' /\
    scrollOffset g' = 3.
Proof.
  assert (Hne : imagePaths Samples.gallery <> []) by discriminate.
  assert (Hb : inBounds Samples.gallery) by (unfold inBounds; simpl; lia).
  assert (Hk : In keyDown [keyLeft; keyRight; keyUp; keyDown])
    by (right; right; right; left; reflexivity).
  split; [exact Hne|]. split; [exact Hb|].
  destruct (handleKey_keeps_bounds keyDown (Resolves None) Samples.gallery
              Hne Hb Hk) as [g' [Hg' [Hb' _]]].
  exists g'. split; [exact Hg'|]. split; [exact Hb'|].
  assert (E : Handled g' =
              handleKey keyDown (Resolves None) Samples.gallery)
    by (symmetry; exact Hg').
  vm_compute in E. inversion E. reflexivity.
Defined.

End GalleryProofs.

(** ** Mouse reports *)

Module MouseProofs.

Import TerminalGUI Numerals.
Local Open Scope Z_scope.

(** *** Decimal numerals and [parseInt] *)

Lemma string_of_uint_allDigits (d : Decimal.uint) :
  allDigits (NilEmpty.string_of_uint d) = true.
Proof. induction d; simpl; auto. Qed.

Lemma to_uint_nonnil (n : nat) : Nat.to_uint n <> Decimal.Nil.
Proof.
  intros H. pose proof (DecimalNat.Unsigned.of_to n) as E.
  rewrite H in E. simpl in E. subst n. discriminate H.
Qed.

Lemma Number_toString_allDigits (n : nat) :
  allDigits (JS.Number_toString n) = true.
Proof. apply string_of_uint_allDigits. Qed.

Lemma Number_toString_nonempty (n : nat) :
  JS.Number_toString n <> EmptyString.
Proof.
  unfold JS.Number_toString. pose proof (to_uint_nonnil n) as H.
  destruct (Nat.to_uint n); [contradiction| ..]; discriminate.
Qed.

(** Reading a numeral digit by digit is [Nat.of_uint_acc]. *)
Lemma parseDigits_uint (d : Decimal.uint) (acc : option Z) :
  d <> Decimal.Nil ->
  0 <= accValue acc ->
  JS.parseDigits 10 (NilEmpty.string_of_uint d) acc =
  Some (Z.of_nat (Nat.of_uint_acc d (Z.to_nat (accValue acc)))).
Proof.
  revert acc.
  induction d as [|d IH|d IH|d IH|d IH|d IH|d IH|d IH|d IH|d IH|d IH];
    intros acc Hne Hacc; [contradiction| ..];
    simpl JS.parseDigits; simpl Nat.of_uint_acc;
    rewrite Nat.tail_mul_spec;
    (destruct d;
     [ simpl; f_equal; destruct acc; simpl in *; lia
     | rewrite IH; [ f_equal; f_equal; f_equal; destruct acc; simpl in *; lia
                   | discriminate
                   | destruct acc; simpl in *; lia ] .. ]).
Qed.

Lemma option_map_mul_1 (v : option Z) : option_map (Z.mul 1) v = v.
Proof. destruct v as [z|]; [simpl; destruct z|]; reflexivity. Qed.

(** A numeral has no white space, sign or [0x] for [parseInt] to take. *)
Lemma parseInt_uint (d : Decimal.uint) :
  JS.parseInt (NilEmpty.string_of_uint d) =
  JS.parseDigits 10 (NilEmpty.string_of_uint d) None.
Proof.
  rewrite <- (option_map_mul_1 (JS.parseDigits 10 _ None)).
  destruct d as [|d|d|d|d|d|d|d|d|d|d]; try reflexivity.
  destruct d; reflexivity.
Qed.

(** [parseInt] reads back what [`${n}`] printed. *)
Lemma parseInt_Number_toString (n : nat) :
  JS.parseInt (JS.Number_toString n) = Some (Z.of_nat n).
Proof.
  unfold JS.Number_toString. rewrite parseInt_uint.
  rewrite parseDigits_uint; [| apply to_uint_nonnil | simpl; lia ].
  simpl accValue. change (Z.to_nat 0) with 0%nat.
  change (Nat.of_uint_acc (Nat.to_uint n) 0) with (Nat.of_uint (Nat.to_uint n)).
  rewrite DecimalNat.Unsigned.of_to. reflexivity.
Qed.

(** *** Cutting the report into its parameters *)

Lemma isDigit_not_separator (c : ascii) :
  isDigit c = true ->
  Ascii.eqb c ";"%char = false /\ c <> "M"%char.
Proof.
  destruct c as [[] [] [] [] [] [] [] []]; simpl; intros H;
    try discriminate H; split; (reflexivity || discriminate).
Qed.

Lemma split_digits (a : string) :
  allDigits a = true -> JS.split a ";"%char = [a].
Proof.
  induction a as [|c a IH]; simpl; intros H; [reflexivity|].
  apply andb_prop in H. destruct H as [Hc Ha].
  destruct (isDigit_not_separator c Hc) as [-> _]. rewrite (IH Ha). reflexivity.
Qed.

Lemma split_digits_then (a b : string) :
  allDigits a = true ->
  JS.split (a ++ String ";"%char b) ";"%char = a :: JS.split b ";"%char.
Proof.
  induction a as [|c a IH]; simpl; intros H; [reflexivity|].
  apply andb_prop in H. destruct H as [Hc Ha].
  destruct (isDigit_not_separator c Hc) as [-> _]. rewrite (IH Ha). reflexivity.
Qed.

Lemma includes_append (a b : string) (c : ascii) :
  JS.includes (a ++ b) c = JS.includes a c || JS.includes b c.
Proof.
  induction a as [|x a IH]; simpl; [reflexivity|].
  rewrite IH. apply orb_assoc.
Qed.

Lemma append_assoc (a b c : string) : ((a ++ b) ++ c = a ++ (b ++ c))%string.
Proof. induction a as [|x a IH]; simpl; [reflexivity|]. rewrite IH. reflexivity. Qed.

Lemma length_append (a b : string) :
  String.length (a ++ b) = (String.length a + String.length b)%nat.
Proof. induction a as [|x a IH]; simpl; [reflexivity|]. rewrite IH. reflexivity. Qed.

Lemma substring_append (a b : string) :
  String.substring 0 (String.length a) (a ++ b) = a.
Proof.
  induction a as [|x a IH]; simpl.
  - destruct b; reflexivity.
  - rewrite IH. reflexivity.
Qed.

(** [slice(2, -1)] drops the two leading characters and the last one. *)
Lemma slice_2_m1 (e1 e2 z : ascii) (body : string) :
  JS.slice (String e1 (String e2 (body ++ String z EmptyString))) 2 (-1) = body.
Proof.
  unfold JS.slice. cbv zeta.
  change (2 <? 0) with false. change (-1 <? 0) with true. cbv iota.
  simpl String.length. rewrite length_append. simpl String.length.
  set (n := String.length body).
  replace (Z.to_nat (Z.min 2 (Z.of_nat (S (S (n + 1)))))) with 2%nat by lia.
  replace (Z.to_nat (Z.max (Z.of_nat (S (S (n + 1))) + -1) 0 -
                     Z.min 2 (Z.of_nat (S (S (n + 1)))))) with n by lia.
  simpl String.substring. apply substring_append.
Qed.

(** The variable form with three runs of digits: each is read by
    [parseInt] and lowered by 32. *)
Lemma decodeMouse_params (d1 d2 d3 : string) :
  allDigits d1 = true -> allDigits d2 = true -> allDigits d3 = true ->
  d1 <> EmptyString ->
  decodeMouse (JS.ESC ++ "[" ++ d1 ++ ";" ++ d2 ++ ";" ++ d3 ++ "M") =
  Some (mkMouseReport (minus32 (JS.parseInt d1)) (minus32 (JS.parseInt d2))
                      (minus32 (JS.parseInt d3))).
Proof.
  intros H1 H2 H3 Hne. unfold decodeMouse.
  assert (Hstart : JS.startsWith (JS.ESC ++ "[" ++ d1 ++ ";" ++ d2 ++ ";" ++ d3 ++ "M")
                                 (JS.ESC ++ "[M") = false).
  { destruct d1 as [|c d1]; [contradiction|]. simpl in H1.
    apply andb_prop in H1. destruct H1 as [Hc _].
    destruct (isDigit_not_separator c Hc) as [_ HM].
    simpl. destruct (Ascii.eqb_spec c "M"%char) as [E|E]; [contradiction | reflexivity]. }
  rewrite Hstart.
  assert (Hpre : JS.startsWith (JS.ESC ++ "[" ++ d1 ++ ";" ++ d2 ++ ";" ++ d3 ++ "M")
                               (JS.ESC ++ "[") = true).
  { simpl. destruct (d1 ++ _)%string; reflexivity. }
  rewrite Hpre.
  assert (Hinc : JS.includes (JS.ESC ++ "[" ++ d1 ++ ";" ++ d2 ++ ";" ++ d3 ++ "M")
                             "M" = true).
  { simpl. rewrite includes_append. simpl. rewrite includes_append. simpl.
    rewrite includes_append. simpl. rewrite !orb_true_r. reflexivity. }
  rewrite Hinc. cbv iota. simpl andb. cbv iota.
  replace (JS.ESC ++ "[" ++ d1 ++ ";" ++ d2 ++ ";" ++ d3 ++ "M")%string
    with (String "027"%char (String "["%char
            ((d1 ++ ";" ++ d2 ++ ";" ++ d3) ++ String "M"%char EmptyString)))%string.
  2:{ simpl. rewrite !append_assoc. simpl. rewrite !append_assoc. reflexivity. }
  rewrite slice_2_m1.
  change (d1 ++ ";" ++ d2 ++ ";" ++ d3)%string
    with (d1 ++ String ";"%char (d2 ++ String ";"%char d3))%string.
  rewrite (split_digits_then d1 _ H1), (split_digits_then d2 _ H2),
    (split_digits d3 H3).
  reflexivity.
Qed.

(** The fixed form: three bytes after [ESC [ M]. *)
Lemma decodeMouse_bytes (b x y : ascii) :
  decodeMouse (JS.ESC ++ "[M" ++ String b (String x (String y EmptyString))) =
  Some (mkMouseReport (Some (Z.of_nat (nat_of_ascii b) - 32))
                      (Some (Z.of_nat (nat_of_ascii x) - 32))
                      (Some (Z.of_nat (nat_of_ascii y) - 32))).
Proof. reflexivity. Qed.

(** A report whose button is one of the four wheel codes is a scroll
    step, whatever its position. *)
Lemma mouseAction_wheel (h : Host) (x y : option Z) (now : Z) (s : t) :
  mouseAction h (mkMouseReport (Some 64) x y) now s = handleScrollWheel (-1) s /\
  mouseAction h (mkMouseReport (Some 96) x y) now s = handleScrollWheel (-1) s /\
  mouseAction h (mkMouseReport (Some 65) x y) now s = handleScrollWheel 1 s /\
  mouseAction h (mkMouseReport (Some 97) x y) now s = handleScrollWheel 1 s.
Proof. repeat split; reflexivity. Qed.

(** C6: the six-byte report [ESC [ M b x y] decodes to each byte minus
    32, so the bytes (35, 33, 34) give button 3, x 1, y 2; the report
    [ESC [ p1;p2;p3 M] with decimal parameters decodes to each parameter
    minus 32; and the button codes 64 and 96 both scroll up, 65 and 97
    both scroll down, each pair with the same result whatever the
    position, as decoded reports and as six-character events. *)
Theorem mouse_reports_decoded :
  (forall b x y : ascii,
     decodeMouse (JS.ESC ++ "[M" ++ String b (String x (String y EmptyString))) =
     Some (mkMouseReport (Some (Z.of_nat (nat_of_ascii b) - 32))
                         (Some (Z.of_nat (nat_of_ascii x) - 32))
                         (Some (Z.of_nat (nat_of_ascii y) - 32)))) /\
  decodeMouse (JS.ESC ++ "[M" ++
               String "035"%char (String "033"%char (String "034"%char EmptyString))) =
  Some (mkMouseReport (Some 3) (Some 1) (Some 2)) /\
  (forall p1 p2 p3 : nat,
     decodeMouse (JS.ESC ++ "[" ++ JS.Number_toString p1 ++ ";" ++
                  JS.Number_toString p2 ++ ";" ++ JS.Number_toString p3 ++ "M") =
     Some (mkMouseReport (Some (Z.of_nat p1 - 32)) (Some (Z.of_nat p2 - 32))
                         (Some (Z.of_nat p3 - 32)))) /\
  (forall (h : Host) (x y x' y' : option Z) (now : Z) (s : t),
     mouseAction h (mkMouseReport (Some 64) x y) now s = handleScrollWheel (-1) s /\
     mouseAction h (mkMouseReport (Some 96) x' y') now s = handleScrollWheel (-1) s /\
     mouseAction h (mkMouseReport (Some 65) x y) now s = handleScrollWheel 1 s /\
     mouseAction h (mkMouseReport (Some 97) x' y') now s = handleScrollWheel 1 s) /\
  (forall (h : Host) (x y x' y' : ascii) (now : Z) (s : t),
     handleMouseEvent h
       (JS.ESC ++ "[M" ++ String "096"%char (String x (String y EmptyString))) now s =
     handleScrollWheel (-1) s /\
     handleMouseEvent h
       (JS.ESC ++ "[M" ++ String "128"%char (String x' (String y' EmptyString))) now s =
     handleScrollWheel (-1) s /\
     handleMouseEvent h
       (JS.ESC ++ "[M" ++ String "097"%char (String x (String y EmptyString))) now s =
     handleScrollWheel 1 s /\
     handleMouseEvent h
       (JS.ESC ++ "[M" ++ String "129"%char (String x' (String y' EmptyString))) now s =
     handleScrollWheel 1 s).
Proof.
  split; [exact decodeMouse_bytes|].
  split; [reflexivity|].
  split.
  { intros p1 p2 p3.
    rewrite decodeMouse_params;
      try apply Number_toString_allDigits; try apply Number_toString_nonempty.
    rewrite !parseInt_Number_toString. reflexivity. }
  split.
  { intros h x y x' y' now s.
    destruct (mouseAction_wheel h x y now s) as [A [_ [C _]]].
    destruct (mouseAction_wheel h x' y' now s) as [_ [B [_ D]]].
    repeat split; assumption. }
  intros h x y x' y' now s. unfold handleMouseEvent.
  rewrite !decodeMouse_bytes. repeat split; reflexivity.
Qed.

End MouseProofs.

(** ** The compositor *)

Module GeneratorProofs.

Import Generator PixelBuffer Scan.
Local Open Scope nat_scope.

(** *** The loops, without the safety bound *)

Lemma maxCells_value : Z.of_nat maxCells = 100000%Z.
Proof. unfold maxCells. lia. Qed.

Lemma maxCells_pos : 0 < maxCells.
Proof. pose proof maxCells_value. lia. Qed.

#[local] Opaque maxCells.

Lemma forX_bounded (img : ImageData) (y : nat) (xs : list nat) :
  forall cells,
    List.length cells < maxCells ->
    forX img y xs cells (List.length cells) = bounded (cells ++ rowCells img y xs).
Proof.
  induction xs as [|x xs IH]; intros cells Hlen.
  - simpl. rewrite app_nil_r. unfold bounded.
    apply Nat.ltb_lt in Hlen. rewrite Hlen. reflexivity.
  - simpl forX. unfold rowCells. simpl flat_map. fold (rowCells img y xs).
    unfold cellOf at 1. destruct (pairGlyph img x y) as [char ansi].
    destruct (Glyph_eqb char SPACE).
    + apply IH. exact Hlen.
    + cbv zeta. destruct (maxCells <=? S (List.length cells)) eqn:E.
      * apply Nat.leb_le in E. unfold bounded.
        assert (Hge : (List.length (cells ++ [mkCell x (y / 2) char ansi]
                                    ++ rowCells img y xs) <? maxCells) = false).
        { apply Nat.ltb_ge. rewrite !length_app. simpl. lia. }
        rewrite Hge. f_equal.
        rewrite app_assoc, firstn_app.
        replace (maxCells - List.length (cells ++ [mkCell x (y / 2) char ansi]))
          with 0 by (rewrite length_app; simpl; lia).
        rewrite firstn_O, app_nil_r. symmetry. apply firstn_all2.
        rewrite length_app. simpl. lia.
      * apply Nat.leb_gt in E.
        replace (S (List.length cells))
          with (List.length (cells ++ [mkCell x (y / 2) char ansi]))
          by (rewrite length_app; simpl; lia).
        rewrite IH by (rewrite length_app; simpl; lia).
        rewrite <- app_assoc. reflexivity.
Qed.

Lemma forY_bounded (img : ImageData) (ys : list nat) :
  forall cells,
    List.length cells < maxCells ->
    forY img ys cells (List.length cells) = bounded (cells ++ scan img ys).
Proof.
  induction ys as [|y ys IH]; intros cells Hlen.
  - simpl. rewrite app_nil_r. unfold bounded.
    apply Nat.ltb_lt in Hlen. rewrite Hlen. reflexivity.
  - simpl forY. rewrite forX_bounded by exact Hlen.
    unfold scan. simpl flat_map. fold (scan img ys).
    set (row := rowCells img y (seq 0 (width (info img)))).
    unfold bounded at 1.
    destruct (List.length (cells ++ row) <? maxCells) eqn:E.
    + apply Nat.ltb_lt in E. rewrite IH by exact E.
      rewrite <- app_assoc. reflexivity.
    + apply Nat.ltb_ge in E. unfold bounded.
      assert (Hge : (List.length (cells ++ row ++ scan img ys) <? maxCells) = false).
      { apply Nat.ltb_ge. rewrite app_assoc, length_app. lia. }
      rewrite Hge. f_equal.
      rewrite (app_assoc cells row), (firstn_app maxCells (cells ++ row)).
      replace (maxCells - List.length (cells ++ row)) with 0 by lia.
      rewrite firstn_O, app_nil_r. reflexivity.
Qed.

(** [imageToData] returns the first [maxCells] cells of the scan. *)
Lemma imageToData_firstn (img : ImageData) :
  imageToData img = firstn maxCells (scan img (scanlines img)).
Proof.
  unfold imageToData.
  change 0 with (List.length (@nil Cell)).
  rewrite forY_bounded by (simpl; apply maxCells_pos).
  simpl app. unfold bounded.
  destruct (List.length (scan img (scanlines img)) <? maxCells) eqn:E;
    [|reflexivity].
  apply Nat.ltb_lt in E. symmetry. apply firstn_all2. lia.
Qed.

(** *** The scanline pairs *)

Lemma filter_one {A : Type} (p : A -> bool) (a : A) :
  filter p [a] = if p a then [a] else [].
Proof. reflexivity. Qed.

Lemma even_double (m : nat) : Nat.even (2 * m) = true.
Proof. apply Nat.even_spec. exists m. reflexivity. Qed.

Lemma even_succ_double (m : nat) : Nat.even (S (2 * m)) = false.
Proof.
  rewrite Nat.even_succ, <- Nat.negb_even, even_double. reflexivity.
Qed.

Lemma even_below_double (m : nat) :
  filter Nat.even (seq 0 (2 * m)) = map (fun k => 2 * k) (seq 0 m) /\
  filter Nat.even (seq 0 (S (2 * m))) = map (fun k => 2 * k) (seq 0 (S m)).
Proof.
  induction m as [|m [IH1 IH2]].
  - split; reflexivity.
  - assert (E1 : filter Nat.even (seq 0 (2 * S m)) =
                 map (fun k => 2 * k) (seq 0 (S m))).
    { replace (2 * S m) with (S (S (2 * m))) by lia.
      rewrite seq_S, filter_app, IH2, filter_one, Nat.add_0_l.
      rewrite even_succ_double. apply app_nil_r. }
    split; [exact E1|].
    rewrite seq_S, filter_app, E1, filter_one, Nat.add_0_l, even_double.
    rewrite (seq_S (S m) 0), map_app. reflexivity.
Qed.

(** [y] runs over [0, 2, ...], one value for each of the [floor(H/2)]
    pairs of rows. *)
Lemma scanlines_pairs (img : ImageData) :
  scanlines img = map (fun k => 2 * k) (seq 0 (height (info img) / 2)).
Proof.
  unfold scanlines. set (H := height (info img)).
  destruct (Nat.Even_or_Odd H) as [[m Hm]|[m Hm]].
  - destruct m as [|m]; [rewrite Hm; reflexivity|].
    replace (H - 1) with (S (2 * m)) by lia.
    replace (H / 2) with (S m).
    + apply even_below_double.
    + rewrite Hm, Nat.mul_comm. symmetry. apply Nat.div_mul. discriminate.
  - replace (H - 1) with (2 * m) by lia.
    replace (H / 2) with m.
    + apply even_below_double.
    + apply (Nat.div_unique H 2 m 1); lia.
Qed.

Lemma scan_pairs (img : ImageData) (ks : list nat) :
  scan img (map (fun k => 2 * k) ks) =
  flat_map (fun k => rowCells img (2 * k) (seq 0 (width (info img)))) ks.
Proof.
  unfold scan. induction ks as [|k ks IH]; cbn [flat_map map]; [reflexivity|].
  rewrite IH. reflexivity.
Qed.

(** *** One column of one pair *)

Lemma at_in_range (d : list byte) (i : nat) :
  i < List.length d -> at_ d i = Some (Byte.to_nat (nth i d x00)).
Proof.
  intros H. unfold at_. rewrite (nth_error_nth' d x00 H). reflexivity.
Qed.

Lemma index_in_buffer (W H C x y c : nat) :
  x < W -> y < H -> c < C -> (y * W + x) * C + c < W * H * C.
Proof.
  intros Hx Hy Hc.
  assert (y * W + x + 1 <= W * H) by nia.
  nia.
Qed.

(** The four cases, in the words of the specification. *)
Lemma pairGlyph_cases (img : ImageData) (x y : nat) :
  wellFormed img ->
  x < width (info img) ->
  y + 1 < height (info img) ->
  pairGlyph img x y =
  if opaque img x y && opaque img x (y + 1) then
    (UPPER_HALF_BLOCK, (foreground img x y ++ background img x (y + 1))%string)
  else if opaque img x y then (UPPER_HALF_BLOCK, foreground img x y)
  else if opaque img x (y + 1) then (LOWER_HALF_BLOCK, foreground img x (y + 1))
  else (SPACE, EmptyString).
Proof.
  intros [HC Hlen] Hx Hy.
  unfold pairGlyph, opaque, alpha, foreground, background, channel. cbv zeta.
  set (W := width (info img)) in *. set (H := height (info img)) in *.
  set (C := channels (info img)) in *. set (d := data img) in *.
  assert (I : forall y' c, y' < H -> c < C ->
                at_ d ((y' * W + x) * C + c) =
                Some (Byte.to_nat (nth ((y' * W + x) * C + c) d x00))).
  { intros y' c Hy' Hc. apply at_in_range. rewrite Hlen.
    apply index_in_buffer; assumption. }
  assert (I0 : forall y', y' < H ->
                at_ d ((y' * W + x) * C) =
                Some (Byte.to_nat (nth ((y' * W + x) * C + 0) d x00))).
  { intros y' Hy'. rewrite <- (I y' 0 Hy') by lia. f_equal. lia. }
  rewrite !(I0 y), !(I0 (y + 1)), !(I y 1), !(I y 2), !(I (y + 1) 1),
    !(I (y + 1) 2) by lia.
  destruct HC as [HC|HC]; rewrite HC in *; simpl Nat.eqb; cbv iota.
  - reflexivity.
  - rewrite (I y 3), (I (y + 1) 3) by lia. reflexivity.
Qed.

Lemma double_half (k : nat) : 2 * k / 2 = k.
Proof. rewrite Nat.mul_comm. apply Nat.div_mul. discriminate. Qed.

(** The cell a column of a pair pushes, case by case. *)
Lemma cellOf_cases (img : ImageData) (x k : nat) :
  wellFormed img ->
  x < width (info img) ->
  2 * k + 1 < height (info img) ->
  cellOf img (2 * k) x =
  if opaque img x (2 * k) && opaque img x (2 * k + 1) then
    [mkCell x k UPPER_HALF_BLOCK
            (foreground img x (2 * k) ++ background img x (2 * k + 1))%string]
  else if opaque img x (2 * k) then
    [mkCell x k UPPER_HALF_BLOCK (foreground img x (2 * k))]
  else if opaque img x (2 * k + 1) then
    [mkCell x k LOWER_HALF_BLOCK (foreground img x (2 * k + 1))]
  else [].
Proof.
  intros Hwf Hx Hy. unfold cellOf.
  rewrite (pairGlyph_cases img x (2 * k) Hwf Hx Hy), double_half.
  destruct (opaque img x (2 * k)), (opaque img x (2 * k + 1)); reflexivity.
Qed.

Lemma cellOf_length (img : ImageData) (x k : nat) :
  wellFormed img ->
  x < width (info img) ->
  2 * k + 1 < height (info img) ->
  List.length (cellOf img (2 * k) x) = if visible img k x then 1 else 0.
Proof.
  intros Hwf Hx Hy. rewrite (cellOf_cases img x k Hwf Hx Hy). unfold visible.
  destruct (opaque img x (2 * k)), (opaque img x (2 * k + 1)); reflexivity.
Qed.

(** A pushed cell carries its column and its pair. *)
Lemma cellOf_position (img : ImageData) (x y : nat) (c : Cell) :
  In c (cellOf img y x) -> cell_x c = x /\ cell_y c = y / 2.
Proof.
  unfold cellOf. destruct (pairGlyph img x y) as [char ansi].
  destruct (Glyph_eqb char SPACE); simpl; [contradiction|].
  intros [<-|[]]. split; reflexivity.
Qed.

(** *** Where a position falls in the scan *)

Lemma cellsAt_app (x k : nat) (l l' : list Cell) :
  cellsAt x k (l ++ l') = cellsAt x k l ++ cellsAt x k l'.
Proof. apply filter_app. Qed.

Lemma cellsAt_none (x k : nat) (l : list Cell) :
  (forall c, In c l -> cell_x c <> x \/ cell_y c <> k) -> cellsAt x k l = [].
Proof.
  induction l as [|c l IH]; intros H; [reflexivity|].
  unfold cellsAt in *. simpl.
  destruct (H c (or_introl eq_refl)) as [E|E]; apply Nat.eqb_neq in E; rewrite E;
    rewrite ?andb_false_r; simpl; apply IH; intros c' Hc'; apply H; right; exact Hc'.
Qed.

Lemma cellsAt_firstn_none (x k n : nat) (l : list Cell) :
  cellsAt x k l = [] -> cellsAt x k (firstn n l) = [].
Proof.
  revert n. induction l as [|c l IH]; intros [|n] H; try reflexivity.
  unfold cellsAt in *. simpl in *.
  destruct ((cell_x c =? x) && (cell_y c =? k)); [discriminate|]. apply IH. exact H.
Qed.

Lemma rowCells_position (img : ImageData) (y : nat) (xs : list nat) (c : Cell) :
  In c (rowCells img y xs) -> In (cell_x c) xs /\ cell_y c = y / 2.
Proof.
  unfold rowCells. intros H. apply in_flat_map in H. destruct H as [x [Hx Hc]].
  destruct (cellOf_position img x y c Hc) as [E1 E2]. subst x. split; assumption.
Qed.

Lemma rowCells_app (img : ImageData) (y : nat) (xs xs' : list nat) :
  rowCells img y (xs ++ xs') = rowCells img y xs ++ rowCells img y xs'.
Proof. apply flat_map_app. Qed.

(** The cells of the first [n] columns of a pair are its visible
    columns. *)
Lemma rowCells_length (img : ImageData) (k n : nat) :
  wellFormed img ->
  2 * k + 1 < height (info img) ->
  n <= width (info img) ->
  List.length (rowCells img (2 * k) (seq 0 n)) = visibleInRow img k n.
Proof.
  intros Hwf Hk. unfold visibleInRow.
  induction n as [|n IH]; intros Hn; [reflexivity|].
  rewrite seq_S, rowCells_app, length_app, filter_app, length_app, IH by lia.
  f_equal. unfold rowCells. cbn [flat_map]. rewrite app_nil_r, filter_one.
  rewrite cellOf_length by (assumption || lia).
  destruct (visible img k (0 + n)); reflexivity.
Qed.

Lemma rows_length (img : ImageData) (k : nat) :
  wellFormed img ->
  2 * k <= height (info img) ->
  List.length
    (flat_map (fun k' => rowCells img (2 * k') (seq 0 (width (info img))))
              (seq 0 k)) =
  list_sum (map (fun k' => visibleInRow img k' (width (info img))) (seq 0 k)).
Proof.
  intros Hwf. induction k as [|k IH]; intros Hk; [reflexivity|].
  rewrite seq_S, flat_map_app, length_app, map_app, list_sum_app, IH by lia.
  f_equal. cbn [flat_map map]. rewrite app_nil_r.
  unfold list_sum. cbn [fold_right]. rewrite Nat.add_0_r, Nat.add_0_l.
  apply rowCells_length; [assumption | lia | lia].
Qed.

Lemma rowCells_one (img : ImageData) (y x : nat) :
  rowCells img y [x] = cellOf img y x.
Proof. unfold rowCells. cbn [flat_map]. apply app_nil_r. Qed.

Lemma seq_split (n i : nat) :
  i < n -> seq 0 n = seq 0 i ++ [i] ++ seq (S i) (n - S i).
Proof.
  intros H. replace n with (i + (1 + (n - S i))) at 1 by lia.
  rewrite !seq_app. replace (0 + i + 1) with (S i) by lia. reflexivity.
Qed.

Lemma scan_around (img : ImageData) (x k : nat) :
  x < width (info img) ->
  2 * k + 1 < height (info img) ->
  scan img (scanlines img) = before img x k ++ cellOf img (2 * k) x ++ after img x k.
Proof.
  intros Hx Hk. rewrite scanlines_pairs, scan_pairs.
  assert (HK : k < height (info img) / 2).
  { apply Nat.div_le_lower_bound; lia. }
  set (f := fun k' => rowCells img (2 * k') (seq 0 (width (info img)))).
  rewrite (seq_split _ k HK), !flat_map_app. cbn [flat_map]. rewrite app_nil_r.
  unfold f at 2. rewrite (seq_split _ x Hx), !rowCells_app, rowCells_one.
  unfold before, after. fold f. rewrite <- !app_assoc. reflexivity.
Qed.

Lemma before_length (img : ImageData) (x k : nat) :
  wellFormed img ->
  x <= width (info img) ->
  2 * k + 1 < height (info img) ->
  List.length (before img x k) = visibleBefore img x k.
Proof.
  intros Hwf Hx Hk. unfold before, visibleBefore.
  rewrite length_app, rows_length, rowCells_length by (assumption || lia).
  reflexivity.
Qed.

Lemma before_elsewhere (img : ImageData) (x k : nat) :
  cellsAt x k (before img x k) = [].
Proof.
  apply cellsAt_none. intros c Hc. unfold before in Hc.
  apply in_app_or in Hc. destruct Hc as [Hc|Hc].
  - apply in_flat_map in Hc. destruct Hc as [k' [Hk' Hc]].
    apply rowCells_position in Hc. destruct Hc as [_ Hy].
    rewrite double_half in Hy. apply in_seq in Hk'. right. lia.
  - apply rowCells_position in Hc. destruct Hc as [Hin _].
    apply in_seq in Hin. left. lia.
Qed.

Lemma after_elsewhere (img : ImageData) (x k : nat) :
  cellsAt x k (after img x k) = [].
Proof.
  apply cellsAt_none. intros c Hc. unfold after in Hc.
  apply in_app_or in Hc. destruct Hc as [Hc|Hc].
  - apply rowCells_position in Hc. destruct Hc as [Hin _].
    apply in_seq in Hin. left. lia.
  - apply in_flat_map in Hc. destruct Hc as [k' [Hk' Hc]].
    apply rowCells_position in Hc. destruct Hc as [_ Hy].
    rewrite double_half in Hy. apply in_seq in Hk'. right. lia.
Qed.

Lemma cellsAt_cellOf (img : ImageData) (x k : nat) :
  cellsAt x k (cellOf img (2 * k) x) = cellOf img (2 * k) x.
Proof.
  unfold cellOf. destruct (pairGlyph img x (2 * k)) as [char ansi].
  destruct (Glyph_eqb char SPACE); [reflexivity|].
  unfold cellsAt. cbn [filter cell_x cell_y].
  rewrite double_half, !Nat.eqb_refl. reflexivity.
Qed.

(** A position is drawn when fewer than [maxCells] cells come before
    it... *)
Lemma cellsAt_within_bound (img : ImageData) (x k : nat) :
  wellFormed img ->
  x < width (info img) ->
  2 * k + 1 < height (info img) ->
  visibleBefore img x k < maxCells ->
  cellsAt x k (imageToData img) = cellOf img (2 * k) x.
Proof.
  intros Hwf Hx Hk Hb.
  rewrite imageToData_firstn, (scan_around img x k Hx Hk).
  rewrite <- (before_length img x k Hwf) in Hb by (assumption || lia).
  rewrite firstn_app, (firstn_all2 (before img x k)) by lia.
  rewrite cellsAt_app, before_elsewhere. cbn [app].
  set (m := maxCells - List.length (before img x k)).
  assert (Hm : 0 < m) by (unfold m; lia).
  rewrite <- (cellsAt_cellOf img x k) at 2.
  unfold cellOf. destruct (pairGlyph img x (2 * k)) as [char ansi].
  destruct (Glyph_eqb char SPACE).
  - cbn [app]. apply cellsAt_firstn_none, after_elsewhere.
  - destruct m as [|m]; [lia|]. cbn [app firstn].
    change (?c :: firstn m ?l) with ([c] ++ firstn m l).
    rewrite cellsAt_app, (cellsAt_firstn_none x k m _ (after_elsewhere img x k)).
    apply app_nil_r.
Qed.

(** ... and not drawn when [maxCells] or more do. *)
Lemma cellsAt_beyond_bound (img : ImageData) (x k : nat) :
  wellFormed img ->
  x < width (info img) ->
  2 * k + 1 < height (info img) ->
  maxCells <= visibleBefore img x k ->
  cellsAt x k (imageToData img) = [].
Proof.
  intros Hwf Hx Hk Hb.
  rewrite imageToData_firstn, (scan_around img x k Hx Hk).
  rewrite <- (before_length img x k Hwf) in Hb by (assumption || lia).
  rewrite firstn_app.
  replace (maxCells - List.length (before img x k)) with 0 by lia.
  rewrite firstn_O, app_nil_r.
  apply cellsAt_firstn_none, before_elsewhere.
Qed.

(** C1, as the code has it: in a well-formed buffer, for every column
    [x] and row pair [(2k, 2k+1)] with [2k+1 <= H-1] that fewer than
    100000 drawn positions precede in scan order, the compositor emits at
    [(x, k)] exactly one cell with [UPPER_HALF_BLOCK], foreground the
    upper pixel's RGB and background the lower pixel's RGB when both
    pixels are opaque; one with [UPPER_HALF_BLOCK] and foreground the
    upper RGB alone when only the upper pixel is; one with
    [LOWER_HALF_BLOCK] and foreground the lower RGB alone when only the
    lower pixel is; and no cell when neither is. *)
Theorem compose_cell (img : ImageData) (x k : nat) :
  wellFormed img ->
  x < width (info img) ->
  2 * k + 1 <= height (info img) - 1 ->
  visibleBefore img x k < maxCells ->
  let out := imageToData img in
  let upper := opaque img x (2 * k) in
  let lower := opaque img x (2 * k + 1) in
  (upper = true -> lower = true ->
   cellsAt x k out =
   [mkCell x k UPPER_HALF_BLOCK
           (foreground img x (2 * k) ++ background img x (2 * k + 1))%string]) /\
  (upper = true -> lower = false ->
   cellsAt x k out = [mkCell x k UPPER_HALF_BLOCK (foreground img x (2 * k))]) /\
  (upper = false -> lower = true ->
   cellsAt x k out = [mkCell x k LOWER_HALF_BLOCK (foreground img x (2 * k + 1))]) /\
  (upper = false -> lower = false -> cellsAt x k out = []).
Proof.
  intros Hwf Hx Hk Hb. cbv zeta.
  assert (Hk' : 2 * k + 1 < height (info img)) by lia.
  rewrite (cellsAt_within_bound img x k Hwf Hx Hk' Hb).
  rewrite (cellOf_cases img x k Hwf Hx Hk').
  repeat split; intros -> ->; reflexivity.
Qed.

(** [compose_cell] at the 2 by 2 RGBA sample: its left column is opaque
    over transparent, its right column transparent over opaque. *)
Lemma compose_cell_witness :
  wellFormed Samples.twoByTwo /\
  visibleBefore Samples.twoByTwo 0 0 < maxCells /\
  visibleBefore Samples.twoByTwo 1 0 < maxCells /\
  cellsAt 0 0 (imageToData Samples.twoByTwo) =
  [mkCell 0 0 UPPER_HALF_BLOCK (foreground Samples.twoByTwo 0 0)] /\
  cellsAt 1 0 (imageToData Samples.twoByTwo) =
  [mkCell 1 0 LOWER_HALF_BLOCK (foreground Samples.twoByTwo 1 1)].
Proof.
  assert (Hwf : wellFormed Samples.twoByTwo) by (split; [right|]; reflexivity).
  assert (H0 : visibleBefore Samples.twoByTwo 0 0 < maxCells).
  { change (visibleBefore Samples.twoByTwo 0 0) with 0. exact maxCells_pos. }
  assert (H1 : visibleBefore Samples.twoByTwo 1 0 < maxCells).
  { change (visibleBefore Samples.twoByTwo 1 0) with 1.
    pose proof maxCells_value. lia. }
  assert (Hx0 : 0 < width (info Samples.twoByTwo)) by (simpl; lia).
  assert (Hx1 : 1 < width (info Samples.twoByTwo)) by (simpl; lia).
  assert (Hk : 2 * 0 + 1 <= height (info Samples.twoByTwo) - 1) by (simpl; lia).
  repeat (split; [assumption|]). split.
  - destruct (compose_cell Samples.twoByTwo 0 0 Hwf Hx0 Hk H0) as [_ [H _]].
    apply H; reflexivity.
  - destruct (compose_cell Samples.twoByTwo 1 0 Hwf Hx1 Hk H1) as [_ [_ [H _]]].
    apply H; reflexivity.
Defined.

(** *** Buffers without transparency *)

Lemma filter_all {A : Type} (p : A -> bool) (l : list A) :
  (forall a, In a l -> p a = true) -> filter p l = l.
Proof.
  induction l as [|a l IH]; intros H; [reflexivity|]. simpl.
  rewrite (H a (or_introl eq_refl)). f_equal. apply IH.
  intros b Hb. apply H. right. exact Hb.
Qed.

Lemma list_sum_const (w : nat) (l : list nat) :
  list_sum (map (fun _ => w) l) = List.length l * w.
Proof. induction l as [|a l IH]; simpl; [reflexivity|]. rewrite IH. reflexivity. Qed.

Lemma visibleInRow_opaque (img : ImageData) (k n : nat) :
  (forall x, x < n -> opaque img x (2 * k) = true) ->
  visibleInRow img k n = n.
Proof.
  intros H. unfold visibleInRow. rewrite filter_all; [apply length_seq|].
  intros x Hx. apply in_seq in Hx. unfold visible. rewrite H by lia. reflexivity.
Qed.

(** Without an alpha channel every pixel is opaque. *)
Lemma opaque_rgb (img : ImageData) (x y : nat) :
  channels (info img) = 3 -> opaque img x y = true.
Proof. intros H. unfold opaque, alpha. rewrite H. reflexivity. Qed.

Lemma visibleBefore_rgb (img : ImageData) (x k : nat) :
  channels (info img) = 3 ->
  visibleBefore img x k = k * width (info img) + x.
Proof.
  intros H. unfold visibleBefore.
  rewrite visibleInRow_opaque by (intros; apply opaque_rgb; exact H).
  f_equal.
  rewrite (map_ext_in _ (fun _ => width (info img))), list_sum_const, length_seq;
    [reflexivity|].
  intros k' _. apply visibleInRow_opaque. intros. apply opaque_rgb. exact H.
Qed.

(** With every pixel opaque the scan has a cell for each column of each
    row pair. *)
Lemma scan_length_opaque (img : ImageData) :
  wellFormed img ->
  (forall x y, x < width (info img) -> y < height (info img) ->
               opaque img x y = true) ->
  List.length (scan img (scanlines img)) =
  width (info img) * (height (info img) / 2).
Proof.
  intros Hwf Hop. rewrite scanlines_pairs, scan_pairs.
  assert (HK : 2 * (height (info img) / 2) <= height (info img))
    by apply Nat.Div0.mul_div_le.
  rewrite rows_length by assumption.
  rewrite (map_ext_in _ (fun _ => width (info img))), list_sum_const, length_seq;
    [apply Nat.mul_comm|].
  intros k Hk. apply in_seq in Hk.
  apply visibleInRow_opaque. intros x Hx. apply Hop; lia.
Qed.

Lemma imageToData_length_opaque (img : ImageData) :
  wellFormed img ->
  (forall x y, x < width (info img) -> y < height (info img) ->
               opaque img x y = true) ->
  List.length (imageToData img) =
  Nat.min (width (info img) * (height (info img) / 2)) maxCells.
Proof.
  intros Hwf Hop.
  rewrite imageToData_firstn, length_firstn, (scan_length_opaque img Hwf Hop).
  apply Nat.min_comm.
Qed.

Lemma scan_upper_opaque (img : ImageData) :
  wellFormed img ->
  (forall x y, x < width (info img) -> y < height (info img) ->
               opaque img x y = true) ->
  Forall (fun c => cell_char c = UPPER_HALF_BLOCK) (scan img (scanlines img)).
Proof.
  intros Hwf Hop. rewrite scanlines_pairs, scan_pairs.
  assert (HK : 2 * (height (info img) / 2) <= height (info img))
    by apply Nat.Div0.mul_div_le.
  apply Forall_forall. intros c Hc.
  apply in_flat_map in Hc. destruct Hc as [k [Hk Hc]].
  unfold rowCells in Hc. apply in_flat_map in Hc. destruct Hc as [x [Hx Hc]].
  apply in_seq in Hk. apply in_seq in Hx.
  rewrite cellOf_cases in Hc by (assumption || lia).
  rewrite !Hop in Hc by lia. destruct Hc as [<-|[]]. reflexivity.
Qed.

Lemma In_firstn {A : Type} (n : nat) (l : list A) (a : A) :
  In a (firstn n l) -> In a l.
Proof.
  intros H. rewrite <- (firstn_skipn n l). apply in_or_app. left. exact H.
Qed.

(** C2, as the code has it: for a well-formed buffer all of whose pixels
    are opaque, the compositor emits [min(W * floor(H/2), 100000)] cells,
    each with [UPPER_HALF_BLOCK]. *)
Theorem compose_all_opaque (img : ImageData) :
  wellFormed img ->
  (forall x y, x < width (info img) -> y < height (info img) ->
               opaque img x y = true) ->
  List.length (imageToData img) =
  Nat.min (width (info img) * (height (info img) / 2)) maxCells /\
  Forall (fun c => cell_char c = UPPER_HALF_BLOCK) (imageToData img).
Proof.
  intros Hwf Hop. split; [apply imageToData_length_opaque; assumption|].
  pose proof (scan_upper_opaque img Hwf Hop) as Hs.
  rewrite imageToData_firstn. rewrite Forall_forall in *.
  intros c Hc. apply Hs. eapply In_firstn. exact Hc.
Qed.

(** [compose_all_opaque] at the 2 by 2 RGB sample: two cells. *)
Lemma compose_all_opaque_witness :
  wellFormed Samples.twoByTwoRGB /\
  (forall x y, x < 2 -> y < 2 -> opaque Samples.twoByTwoRGB x y = true) /\
  List.length (imageToData Samples.twoByTwoRGB) = Nat.min (2 * (2 / 2)) maxCells /\
  Forall (fun c => cell_char c = UPPER_HALF_BLOCK)
         (imageToData Samples.twoByTwoRGB).
Proof.
  assert (Hwf : wellFormed Samples.twoByTwoRGB) by (split; [left|]; reflexivity).
  assert (Hop : forall x y, x < 2 -> y < 2 ->
                            opaque Samples.twoByTwoRGB x y = true)
    by (intros; apply opaque_rgb; reflexivity).
  split; [exact Hwf|]. split; [exact Hop|].
  exact (compose_all_opaque Samples.twoByTwoRGB Hwf Hop).
Defined.

(** *** The wide image *)

Lemma wide_wellFormed : wellFormed Samples.wide.
Proof.
  split; [left; reflexivity|].
  unfold Samples.wide. cbn [data info width height channels].
  apply repeat_length.
Qed.

(** C1 as claimed fails: in the wide image both pixels of column 100000
    are opaque, yet no cell is emitted there; the 100000 cells of the
    columns before it reach the bound. *)
Lemma wide_last_column_not_drawn :
  wellFormed Samples.wide /\
  Z.to_nat 100000 < width (info Samples.wide) /\
  2 * 0 + 1 <= height (info Samples.wide) - 1 /\
  opaque Samples.wide (Z.to_nat 100000) (2 * 0) = true /\
  opaque Samples.wide (Z.to_nat 100000) (2 * 0 + 1) = true /\
  cellsAt (Z.to_nat 100000) 0 (imageToData Samples.wide) = [].
Proof.
  assert (HW : width (info Samples.wide) = Z.to_nat 100001) by reflexivity.
  assert (HH : height (info Samples.wide) = 2) by reflexivity.
  split; [exact wide_wellFormed|].
  split; [rewrite HW; lia|].
  split; [rewrite HH; lia|].
  split; [apply opaque_rgb; reflexivity|].
  split; [apply opaque_rgb; reflexivity|].
  apply cellsAt_beyond_bound.
  - exact wide_wellFormed.
  - rewrite HW. lia.
  - rewrite HH. lia.
  - rewrite visibleBefore_rgb by reflexivity.
    pose proof maxCells_value. lia.
Qed.

(** C2 as claimed fails: every pixel of the wide image is opaque and
    [W * floor(H/2)] is 100001, yet 100000 cells are emitted. *)
Lemma wide_emits_only_maxCells :
  wellFormed Samples.wide /\
  (forall x y, opaque Samples.wide x y = true) /\
  Z.of_nat (width (info Samples.wide) * (height (info Samples.wide) / 2)) =
  100001%Z /\
  Z.of_nat (List.length (imageToData Samples.wide)) = 100000%Z.
Proof.
  assert (HW : width (info Samples.wide) = Z.to_nat 100001) by reflexivity.
  assert (HH : height (info Samples.wide) / 2 = 1) by reflexivity.
  split; [exact wide_wellFormed|].
  split; [intros; apply opaque_rgb; reflexivity|].
  split; [rewrite HW, HH; lia|].
  rewrite imageToData_length_opaque;
    [| exact wide_wellFormed | intros; apply opaque_rgb; reflexivity].
  rewrite HW, HH. pose proof maxCells_value. lia.
Qed.

End GeneratorProofs.

(** ** More on the compositor's output *)

Module GeneratorExtras.

Import Generator PixelBuffer Scan GeneratorProofs.
Local Open Scope nat_scope.

#[local] Opaque maxCells.

Lemma In_scan (img : ImageData) (c : Cell) :
  In c (scan img (scanlines img)) ->
  exists k x,
    k < height (info img) / 2 /\ x < width (info img) /\
    In c (cellOf img (2 * k) x).
Proof.
  rewrite scanlines_pairs, scan_pairs. intros H.
  apply in_flat_map in H. destruct H as [k [Hk H]].
  unfold rowCells in H. apply in_flat_map in H. destruct H as [x [Hx H]].
  apply in_seq in Hk. apply in_seq in Hx.
  exists k, x. repeat split; try lia. exact H.
Qed.

Lemma In_imageToData (img : ImageData) (c : Cell) :
  In c (imageToData img) ->
  exists k x,
    k < height (info img) / 2 /\ x < width (info img) /\
    In c (cellOf img (2 * k) x).
Proof.
  rewrite imageToData_firstn. intros H. apply In_firstn in H.
  apply In_scan. exact H.
Qed.

(** X1: Every emitted cell lies inside the image: its column is a column of
    the buffer, and both rows of its pair are rows of the buffer. *)
Theorem imageToData_cells_in_range (img : ImageData) :
  Forall (fun c => cell_x c < width (info img) /\
                   2 * cell_y c + 1 < height (info img) /\
                   cell_y c < height (info img) / 2)
         (imageToData img).
Proof.
  apply Forall_forall. intros c H.
  destruct (In_imageToData img c H) as [k [x [Hk [Hx Hc]]]].
  destruct (cellOf_position img x (2 * k) c Hc) as [Ex Ey].
  rewrite double_half in Ey. subst.
  pose proof (Nat.Div0.mul_div_le (height (info img)) 2).
  repeat split; lia.
Qed.

(** X2: An image with fewer than two rows, or with no column, composes to
    nothing. *)
Theorem imageToData_degenerate (img : ImageData) :
  height (info img) <= 1 \/ width (info img) = 0 ->
  imageToData img = [].
Proof.
  intros H. pose proof (imageToData_cells_in_range img) as R.
  destruct (imageToData img) as [|c l]; [reflexivity|].
  inversion R as [|c' l' [Hx [Hy _]] _]. lia.
Qed.

(** [imageToData_degenerate] at a single row of three pixels. *)
Lemma imageToData_degenerate_witness :
  height (info Samples.oneRow) <= 1 /\ imageToData Samples.oneRow = [].
Proof.
  assert (H : height (info Samples.oneRow) <= 1) by (simpl; lia).
  split; [exact H|].
  exact (imageToData_degenerate Samples.oneRow (or_introl H)).
Defined.

Lemma cellOf_short (img : ImageData) (y x : nat) :
  List.length (cellOf img y x) <= 1.
Proof.
  unfold cellOf. destruct (pairGlyph img x y) as [char ansi].
  destruct (Glyph_eqb char SPACE); simpl; lia.
Qed.

Lemma flat_map_length_le {A B : Type} (f : A -> list B) (n : nat) (l : list A) :
  (forall a, List.length (f a) <= n) ->
  List.length (flat_map f l) <= List.length l * n.
Proof.
  intros H. induction l as [|a l IH]; simpl; [lia|].
  rewrite length_app. specialize (H a). lia.
Qed.

Lemma scan_length_le (img : ImageData) :
  List.length (scan img (scanlines img)) <=
  width (info img) * (height (info img) / 2).
Proof.
  rewrite scanlines_pairs, scan_pairs.
  pose proof (flat_map_length_le
                (fun k => rowCells img (2 * k) (seq 0 (width (info img))))
                (width (info img)) (seq 0 (height (info img) / 2))) as H.
  rewrite length_seq in H. rewrite Nat.mul_comm. apply H.
  intros k. unfold rowCells.
  pose proof (flat_map_length_le (cellOf img (2 * k)) 1
                (seq 0 (width (info img))) (cellOf_short img (2 * k))) as H1.
  rewrite length_seq in H1. lia.
Qed.

(** X3: The compositor never emits more than 100000 cells, nor more than one
    per column and row pair of the image. *)
Theorem imageToData_length_bounds (img : ImageData) :
  (Z.of_nat (List.length (imageToData img)) <= 100000)%Z /\
  List.length (imageToData img) <= width (info img) * (height (info img) / 2).
Proof.
  rewrite imageToData_firstn, length_firstn.
  pose proof (scan_length_le img). pose proof maxCells_value.
  split; lia.
Qed.

Lemma startsWith_empty (s : string) : JS.startsWith s EmptyString = true.
Proof. destruct s; reflexivity. Qed.

Lemma cellOf_drawn (img : ImageData) (y x : nat) (c : Cell) :
  In c (cellOf img y x) ->
  cell_char c <> SPACE /\
  JS.startsWith (cell_ansi c) (JS.ESC ++ "[38;2;") = true.
Proof.
  unfold cellOf. destruct (pairGlyph img x y) as [char ansi] eqn:E.
  destruct (Glyph_eqb char SPACE) eqn:G; [contradiction|].
  intros [<-|[]]. cbn [cell_char cell_ansi]. split.
  - intros ->. simpl in G. discriminate G.
  - unfold pairGlyph in E. cbv zeta in E.
    repeat match type of E with
           | context [if ?b then _ else _] => destruct b
           end;
      inversion E; subst;
      first [ simpl in G; discriminate G
            | unfold sgr38; simpl; apply startsWith_empty ].
Qed.

(** X4: Every emitted cell is drawn: its glyph is a half block, never the
    space, and its style opens with a foreground colour. *)
Theorem imageToData_cells_drawn (img : ImageData) :
  Forall (fun c => cell_char c <> SPACE /\
                   JS.startsWith (cell_ansi c) (JS.ESC ++ "[38;2;") = true)
         (imageToData img).
Proof.
  apply Forall_forall. intros c H.
  destruct (In_imageToData img c H) as [k [x [_ [_ Hc]]]].
  eapply cellOf_drawn. exact Hc.
Qed.

(** X5: A buffer none of whose pixels is opaque composes to nothing. *)
Theorem imageToData_transparent (img : ImageData) :
  wellFormed img ->
  (forall x y, x < width (info img) -> y < height (info img) ->
               opaque img x y = false) ->
  imageToData img = [].
Proof.
  intros Hwf Hop. destruct (imageToData img) as [|c l] eqn:E; [reflexivity|].
  exfalso.
  destruct (In_imageToData img c) as [k [x [Hk [Hx Hc]]]];
    [rewrite E; left; reflexivity|].
  pose proof (Nat.Div0.mul_div_le (height (info img)) 2).
  rewrite cellOf_cases in Hc by (assumption || lia).
  rewrite !Hop in Hc by lia. exact Hc.
Qed.

(** [imageToData_transparent] at a pair of transparent pixels. *)
Lemma imageToData_transparent_witness :
  wellFormed Samples.clearPair /\
  (forall x y, x < 1 -> y < 2 -> opaque Samples.clearPair x y = false) /\
  imageToData Samples.clearPair = [].
Proof.
  assert (Hwf : wellFormed Samples.clearPair) by (split; [right|]; reflexivity).
  assert (Hop : forall x y, x < width (info Samples.clearPair) ->
                            y < height (info Samples.clearPair) ->
                            opaque Samples.clearPair x y = false).
  { intros x y Hx Hy. simpl in Hx, Hy.
    destruct x as [|x]; [|lia]. destruct y as [|[|y]]; [reflexivity..|lia]. }
  split; [exact Hwf|]. split; [exact Hop|].
  exact (imageToData_transparent Samples.clearPair Hwf Hop).
Defined.

(** *** The order of the output *)

Lemma StronglySorted_app {A : Type} (R : A -> A -> Prop) (l1 l2 : list A) :
  StronglySorted R l1 -> StronglySorted R l2 ->
  (forall a b, In a l1 -> In b l2 -> R a b) ->
  StronglySorted R (l1 ++ l2).
Proof.
  intros H1 H2 H. induction H1 as [|a l1 Hs IH Hall]; simpl; [exact H2|].
  constructor.
  - apply IH. intros x y Hx Hy. apply H; [right; exact Hx | exact Hy].
  - apply Forall_app. split; [exact Hall|].
    apply Forall_forall. intros b Hb. apply H; [left; reflexivity | exact Hb].
Qed.

Lemma StronglySorted_firstn {A : Type} (R : A -> A -> Prop) (n : nat) (l : list A) :
  StronglySorted R l -> StronglySorted R (firstn n l).
Proof.
  intros H. revert n. induction H as [|a l Hs IH Hall]; intros [|n]; simpl;
    try constructor.
  - apply IH.
  - apply Forall_forall. intros b Hb. apply In_firstn in Hb.
    rewrite Forall_forall in Hall. apply Hall. exact Hb.
Qed.

Lemma cellOf_sorted (img : ImageData) (y x : nat) :
  StronglySorted scanBefore (cellOf img y x).
Proof.
  unfold cellOf. destruct (pairGlyph img x y) as [char ansi].
  destruct (Glyph_eqb char SPACE); repeat constructor.
Qed.

Lemma rowCells_sorted (img : ImageData) (y a n : nat) :
  StronglySorted scanBefore (rowCells img y (seq a n)).
Proof.
  revert a. induction n as [|n IH]; intros a; [constructor|].
  cbn [seq]. unfold rowCells. cbn [flat_map]. fold (rowCells img y (seq (S a) n)).
  apply StronglySorted_app; [apply cellOf_sorted | apply IH |].
  intros c d Hc Hd. apply cellOf_position in Hc. apply rowCells_position in Hd.
  destruct Hc as [Hcx Hcy]. destruct Hd as [Hdx Hdy]. apply in_seq in Hdx.
  right. split; lia.
Qed.

Lemma rows_sorted (img : ImageData) (a n : nat) :
  StronglySorted scanBefore
    (flat_map (fun k => rowCells img (2 * k) (seq 0 (width (info img))))
              (seq a n)).
Proof.
  revert a. induction n as [|n IH]; intros a; [constructor|].
  cbn [seq flat_map].
  apply StronglySorted_app; [apply rowCells_sorted | apply IH |].
  intros c d Hc Hd. apply rowCells_position in Hc. destruct Hc as [_ Hcy].
  apply in_flat_map in Hd. destruct Hd as [k [Hk Hd]].
  apply rowCells_position in Hd. destruct Hd as [_ Hdy].
  rewrite double_half in *. apply in_seq in Hk. left. lia.
Qed.

(** X6: The cells come out row pair by row pair and left to right, each
    strictly after the one before: no position gets two cells. *)
Theorem imageToData_sorted (img : ImageData) :
  StronglySorted scanBefore (imageToData img).
Proof.
  rewrite imageToData_firstn. apply StronglySorted_firstn.
  rewrite scanlines_pairs, scan_pairs. apply rows_sorted.
Qed.

(** *** What the compositor reads *)

Lemma at_firstn (n i : nat) (d d' : list byte) :
  firstn n d = firstn n d' -> i < n -> at_ d i = at_ d' i.
Proof.
  intros E Hi. unfold at_.
  pose proof (nth_error_firstn n d i) as A.
  pose proof (nth_error_firstn n d' i) as B.
  apply Nat.ltb_lt in Hi. rewrite Hi in A, B.
  rewrite <- A, <- B, E. reflexivity.
Qed.

Lemma pairGlyph_ext (a b : ImageData) (x y n : nat) :
  info a = info b ->
  channels (info a) = 3 \/ channels (info a) = 4 ->
  firstn n (data a) = firstn n (data b) ->
  ((y + 1) * width (info a) + x + 1) * channels (info a) <= n ->
  pairGlyph a x y = pairGlyph b x y.
Proof.
  intros Hi Hc E Hn.
  assert (R : forall i, i < n -> at_ (data a) i = at_ (data b) i)
    by (intros i Hlt; apply (at_firstn n); assumption).
  unfold pairGlyph. cbv zeta. rewrite <- Hi.
  set (w := width (info a)) in *. set (ch := channels (info a)) in *.
  assert (Hu : y * w + x <= (y + 1) * w + x) by nia.
  set (u := y * w + x) in *. set (l := (y + 1) * w + x) in *.
  assert (Hul : u * ch <= l * ch) by (apply Nat.mul_le_mono_r; exact Hu).
  assert (Hl : l * ch + ch <= n) by nia.
  destruct Hc as [C|C]; rewrite C in *; cbn [Nat.eqb];
    repeat match goal with
           | |- context [at_ (data a) ?i] => rewrite (R i) by lia
           end; reflexivity.
Qed.

Lemma flat_map_ext_in {A B : Type} (f g : A -> list B) (l : list A) :
  (forall x, In x l -> f x = g x) -> flat_map f l = flat_map g l.
Proof.
  induction l as [|x l IH]; intros H; simpl; [reflexivity|].
  rewrite (H x (or_introl eq_refl)), IH; [reflexivity|].
  intros y Hy. apply H. right. exact Hy.
Qed.

(** X7: The compositor reads the bytes of the full row pairs only: two
    buffers of the same shape that agree on them compose to the same
    cells, so the last row of an image of odd height has no effect. *)
Theorem imageToData_reads_row_pairs (a b : ImageData) :
  info a = info b ->
  channels (info a) = 3 \/ channels (info a) = 4 ->
  firstn (2 * (height (info a) / 2) * width (info a) * channels (info a))
         (data a)
  = firstn (2 * (height (info a) / 2) * width (info a) * channels (info a))
           (data b) ->
  imageToData a = imageToData b.
Proof.
  intros Hi Hc E.
  rewrite !imageToData_firstn, !scanlines_pairs, !scan_pairs, <- Hi.
  f_equal. apply flat_map_ext_in. intros k Hk. apply in_seq in Hk.
  unfold rowCells. apply flat_map_ext_in. intros x Hx. apply in_seq in Hx.
  unfold cellOf.
  rewrite (pairGlyph_ext a b x (2 * k) _ Hi Hc E); [reflexivity|].
  apply Nat.mul_le_mono_r.
  set (w := width (info a)) in *. set (h2 := height (info a) / 2) in *.
  nia.
Qed.

(** [imageToData_reads_row_pairs] at two images three rows high that
    differ in the third row. *)
Lemma imageToData_reads_row_pairs_witness :
  data Samples.threeRows <> data Samples.threeRowsOther /\
  imageToData Samples.threeRows = imageToData Samples.threeRowsOther.
Proof.
  split; [discriminate|].
  apply (imageToData_reads_row_pairs Samples.threeRows Samples.threeRowsOther).
  - reflexivity.
  - left. reflexivity.
  - reflexivity.
Defined.

End GeneratorExtras.

(** ** The file the generator saves *)

Module SaveProofs.

Import Generator SavedFile.
Import MouseProofs.
Local Open Scope nat_scope.

#[local] Opaque chunkSize.

Lemma chunkSize_value : chunkSize = 1000.
Proof. reflexivity. Qed.

Lemma chunkSize_pos : 0 < chunkSize.
Proof. rewrite chunkSize_value. lia. Qed.

(** *** Joining strings *)

Lemma append_nil_r (s : string) : (s ++ "")%string = s.
Proof. induction s as [|c s IH]; simpl; [|rewrite IH]; reflexivity. Qed.

Lemma concat_cons (x : string) (l : list string) :
  String.concat "" (x :: l) = (x ++ String.concat "" l)%string.
Proof. destruct l; simpl; [rewrite append_nil_r|]; reflexivity. Qed.

Lemma concat_app (l1 l2 : list string) :
  String.concat "" (l1 ++ l2)
  = (String.concat "" l1 ++ String.concat "" l2)%string.
Proof.
  induction l1 as [|x l1 IH]; [reflexivity|].
  change ((x :: l1) ++ l2)%list with (x :: (l1 ++ l2))%list.
  rewrite !concat_cons, IH, append_assoc. reflexivity.
Qed.

(** Lines joined by a line feed, with one more at the end, are the
    lines each with its line feed. *)
Lemma join_lines (sep : string) (l : list string) :
  l <> [] ->
  (String.concat sep l ++ sep)%string
  = String.concat "" (map (fun x => (x ++ sep)%string) l).
Proof.
  induction l as [|x l IH]; intros Hne; [contradiction|].
  destruct l as [|y l].
  - simpl. reflexivity.
  - change (String.concat sep (x :: y :: l))
      with (x ++ sep ++ String.concat sep (y :: l))%string.
    change (map (fun x0 => (x0 ++ sep)%string) (x :: y :: l))
      with ((x ++ sep)%string :: map (fun x0 => (x0 ++ sep)%string) (y :: l)).
    rewrite concat_cons, <- IH by discriminate.
    rewrite !append_assoc. reflexivity.
Qed.

(** *** Mapping with an index *)

Lemma mapi_app {A B : Type} (f : A -> nat -> B) (l1 l2 : list A) (i : nat) :
  JS.mapi f (l1 ++ l2) i = JS.mapi f l1 i ++ JS.mapi f l2 (i + List.length l1).
Proof.
  revert i. induction l1 as [|x l1 IH]; intros i; simpl.
  - rewrite Nat.add_0_r. reflexivity.
  - rewrite IH.
    replace (S i + List.length l1) with (i + S (List.length l1)) by lia.
    reflexivity.
Qed.

Lemma mapi_shift {A B : Type} (f g : A -> nat -> B) (l : list A) (i d : nat) :
  (forall c k, i <= k < i + List.length l -> f c k = g c (d + k)) ->
  JS.mapi f l i = JS.mapi g l (d + i).
Proof.
  revert i. induction l as [|x l IH]; intros i H; simpl; [reflexivity|].
  rewrite H by (simpl; lia). f_equal.
  replace (S (d + i)) with (d + S i) by lia.
  apply IH. intros c k Hk. apply H. simpl. lia.
Qed.

Lemma map_mapi {A B C : Type} (h : B -> C) (f : A -> nat -> B) (l : list A)
      (i : nat) :
  map h (JS.mapi f l i) = JS.mapi (fun c k => h (f c k)) l i.
Proof.
  revert i. induction l as [|x l IH]; intros i; simpl; [|rewrite IH]; reflexivity.
Qed.

Lemma mapi_length {A B : Type} (f : A -> nat -> B) (l : list A) (i : nat) :
  List.length (JS.mapi f l i) = List.length l.
Proof.
  revert i. induction l as [|x l IH]; intros i; simpl; [|rewrite IH]; reflexivity.
Qed.

(** *** The chunks *)

Lemma firstn_add {A : Type} (a b : nat) (l : list A) :
  firstn (a + b) l = firstn a l ++ firstn b (skipn a l).
Proof.
  revert l. induction a as [|a IH]; intros l; [reflexivity|].
  destruct l as [|x l]; simpl.
  - destruct b; reflexivity.
  - rewrite IH. reflexivity.
Qed.

Lemma chunkCount_step (m n : nat) :
  0 < m ->
  (n mod m = 0 -> chunkCount m n * m = n /\
                  chunkCount m (S n) = S (chunkCount m n)) /\
  (n mod m <> 0 -> chunkCount m (S n) = chunkCount m n).
Proof.
  intros Hm. unfold chunkCount.
  pose proof (Nat.div_mod_eq n m) as E.
  pose proof (Nat.mod_upper_bound n m ltac:(lia)) as B.
  split.
  - intros H0. rewrite H0, Nat.add_0_r in E.
    assert (Q : (n + m - 1) / m = n / m).
    { symmetry. apply (Nat.div_unique _ _ _ (m - 1)); [lia|nia]. }
    assert (Q' : (S n + m - 1) / m = S (n / m)).
    { symmetry. apply (Nat.div_unique _ _ _ 0); [lia|nia]. }
    rewrite Q, Q'. split; [nia | reflexivity].
  - intros Hr.
    assert (Q : (n + m - 1) / m = S (n / m)).
    { symmetry. apply (Nat.div_unique _ _ _ (n mod m - 1)); [lia|nia]. }
    assert (Q' : (S n + m - 1) / m = S (n / m)).
    { symmetry. apply (Nat.div_unique _ _ _ (n mod m)); [lia|nia]. }
    rewrite Q, Q'. reflexivity.
Qed.

Lemma chunkCount_covers (m n : nat) :
  0 < m -> n <= chunkCount m n * m /\ (forall k, k < chunkCount m n -> k * m < n).
Proof.
  intros Hm. induction n as [|n [IH1 IH2]].
  - unfold chunkCount. simpl. rewrite Nat.div_small by lia.
    split; [lia | intros k Hk; lia].
  - destruct (chunkCount_step m n Hm) as [S0 S1].
    destruct (Nat.eq_dec (n mod m) 0) as [E|E].
    + destruct (S0 E) as [A B]. rewrite B. split; [simpl; lia|].
      intros k Hk. assert (k * m <= chunkCount m n * m)
        by (apply Nat.mul_le_mono_r; lia). lia.
    + rewrite (S1 E). split.
      * assert (n <> chunkCount m n * m); [|lia].
        intros C. apply E. rewrite C. apply Nat.Div0.mod_mul.
      * intros k Hk. specialize (IH2 k Hk). lia.
Qed.

(** The values the loop variable takes are the multiples of the chunk
    size below the length. *)
Lemma starts_multiples (m n : nat) :
  0 < m ->
  filter (fun i => i mod m =? 0) (seq 0 n)
  = map (fun k => k * m) (seq 0 (chunkCount m n)).
Proof.
  intros Hm. induction n as [|n IH].
  - unfold chunkCount. simpl. rewrite Nat.div_small by lia. reflexivity.
  - rewrite seq_S, filter_app, IH. cbn [filter Nat.add].
    destruct (chunkCount_step m n Hm) as [S0 S1].
    destruct (n mod m =? 0) eqn:E.
    + apply Nat.eqb_eq in E. destruct (S0 E) as [A B].
      rewrite B, seq_S, map_app. cbn [map Nat.add]. rewrite A. reflexivity.
    + apply Nat.eqb_neq in E. rewrite (S1 E), app_nil_r. reflexivity.
Qed.

(** Chunk after chunk, the lines are those of the whole array. *)
Lemma chunks_concat {A : Type} (F : A -> nat -> string) (m : nat)
      (data : list A) (K : nat) :
  String.concat ""
    (map (fun i => String.concat "" (JS.mapi F (firstn m (skipn i data)) i))
         (map (fun k => k * m) (seq 0 K)))
  = String.concat "" (JS.mapi F (firstn (K * m) data) 0).
Proof.
  induction K as [|K IH]; [reflexivity|].
  rewrite seq_S, !map_app, concat_app, IH. cbn [map Nat.add].
  rewrite concat_cons, append_nil_r.
  replace (S K * m) with (K * m + m) by lia.
  rewrite firstn_add, mapi_app, concat_app. cbn [Nat.add].
  destruct (Nat.le_gt_cases (K * m) (List.length data)) as [L|L].
  - rewrite length_firstn, Nat.min_l by exact L. reflexivity.
  - rewrite (skipn_all2 data) by lia. rewrite firstn_nil. reflexivity.
Qed.

(** One chunk: its lines, with the comma where the whole array has
    it. *)
Lemma saveChunk_lines (data : list Cell) (i : nat) :
  i < List.length data ->
  saveChunk data i
  = String.concat ""
      (JS.mapi (fileLine (List.length data))
               (firstn chunkSize (skipn i data)) i).
Proof.
  intros Hi. unfold saveChunk. cbv zeta.
  pose proof chunkSize_pos as Hm.
  set (chunk := firstn chunkSize (skipn i data)).
  assert (Hlen : List.length chunk = Nat.min chunkSize (List.length data - i)).
  { unfold chunk. rewrite length_firstn, length_skipn. reflexivity. }
  assert (Hne : chunk <> []).
  { intros E. rewrite E in Hlen. simpl in Hlen. lia. }
  rewrite join_lines.
  2:{ intros E. apply (f_equal (@List.length string)) in E.
      rewrite mapi_length in E. simpl in E. destruct chunk; [congruence|].
      discriminate E. }
  f_equal. rewrite map_mapi.
  rewrite (mapi_shift _ (fileLine (List.length data)) chunk 0 i);
    [rewrite Nat.add_0_r; reflexivity|].
  intros c k Hk. unfold fileLine. do 2 f_equal.
  destruct (k =? List.length chunk - 1) eqn:E1;
    destruct (List.length data <=? i + chunkSize) eqn:E2;
    destruct (i + k =? List.length data - 1) eqn:E3;
    try reflexivity; exfalso;
    try apply Nat.eqb_eq in E1; try apply Nat.eqb_neq in E1;
    try apply Nat.leb_le in E2; try apply Nat.leb_gt in E2;
    try apply Nat.eqb_eq in E3; try apply Nat.eqb_neq in E3; lia.
Qed.

(** X8: [save] writes the opening bracket, one string for each chunk of
    1000 cells, and the closing bracket; put end to end they are one line
    for each cell, in order, with a comma after every line but the last:
    the chunks do not show in the file. *)
Theorem save_content (data : list Cell) :
  String.concat "" (save data) = content data /\
  List.length (save data) = 2 + (List.length data + 999) / 1000.
Proof.
  pose proof chunkSize_pos as Hm.
  assert (Es : chunkStarts data
               = map (fun k => k * chunkSize)
                     (seq 0 (chunkCount chunkSize (List.length data))))
    by (apply starts_multiples; exact Hm).
  destruct (chunkCount_covers chunkSize (List.length data) Hm) as [Hc Hk].
  split.
  - unfold save, content. cbn [app]. rewrite concat_cons, concat_app. f_equal.
    rewrite concat_cons, append_nil_r. f_equal.
    rewrite Es.
    rewrite (map_ext_in (saveChunk data)
               (fun i => String.concat ""
                           (JS.mapi (fileLine (List.length data))
                                    (firstn chunkSize (skipn i data)) i))).
    + rewrite chunks_concat, firstn_all2 by exact Hc. reflexivity.
    + intros i Hin. apply in_map_iff in Hin. destruct Hin as [k [<- Hin]].
      apply in_seq in Hin. apply saveChunk_lines. apply Hk. lia.
  - unfold save. rewrite length_app, length_app, Es, !length_map,
      length_seq. cbn [List.length]. unfold chunkCount.
    rewrite chunkSize_value.
    replace (List.length data + 1000 - 1) with (List.length data + 999) by lia.
    lia.
Qed.

End SaveProofs.

(** ** The selection through every key *)

Module NavigationProofs.

Import TerminalGUI Navigation.
Import LayoutProofs ActivationProofs.
Local Open Scope Z_scope.

(** *** Arithmetic of the grid *)



(** *** What a render leaves alone, and what it does to the offset *)

Lemma renderWithClear_files s : files (renderWithClear s) = files s.
Proof. frame. Qed.

Lemma render_maxDisplayLines s : maxDisplayLines (render s) = maxDisplayLines s.
Proof. frame. Qed.

Lemma renderWithClear_maxDisplayLines s :
  maxDisplayLines (renderWithClear s) = maxDisplayLines s.
Proof. frame. Qed.

Lemma render_viewMode s : viewMode (render s) = viewMode s.
Proof.
  destruct s as [cd fs si so vm tw th mdl lt lg dt me hi sm ut ag lo].
  unfold_render. cbv zeta. destruct vm; cbn [viewMode];
    repeat match goal with
           | |- context [if ?b then _ else _] => destruct b
           end; reflexivity.
Qed.

Lemma render_currentDirectory s : currentDirectory (render s) = currentDirectory s.
Proof. frame. Qed.

(** Drawing never moves a non-negative offset up, nor below zero. *)
Lemma drawn_scrollOffset (s : t) :
  0 <= scrollOffset s ->
  0 <= scrollOffset (drawFooter (drawFileList s)) <= scrollOffset s.
Proof.
  destruct s as [cd fs si so vm tw th mdl lt lg dt me hi sm ut ag lo].
  cbn [scrollOffset]. intros Hso.
  unfold drawFooter, drawFileList, drawListView, drawGridView.
  change (calculateGridDimensions
            (mk cd fs si so vm tw th mdl lt lg dt me hi sm ut ag lo))
    with (fst (calculateGridDimensions
                 (mk cd fs si so vm tw th mdl lt lg dt me hi sm ut ag lo)),
          mk cd fs si so vm tw th mdl lt lg dt me hi sm true ag lo).
  set (d := fst (calculateGridDimensions _)).
  assert (Hc : 1 <= columns d) by apply Z.le_max_l.
  cbn [viewMode]. destruct vm; [cbn [viewMode scrollOffset]; lia|]. cbv zeta.
  cbn [scrollOffset maxDisplayLines].
  set (m := Z.max 0 (rows d - Z.min (mdl / itemHeight d) (rows d)) * columns d).
  assert (Hm : 0 <= m) by (apply Z.mul_nonneg_nonneg; lia).
  destruct (so <? 0) eqn:E1; [apply Z.ltb_lt in E1; lia|].
  cbn [scrollOffset].
  destruct (so >? m) eqn:E2; [apply Z.gtb_lt in E2|];
    cbn [viewMode scrollMode files scrollOffset];
    repeat match goal with
           | |- context [if ?b then _ else _] => destruct b
           end;
    rewrite ?calculateGridDimensions_state;
    unfold set_scrollOffset, set_useTripleText; cbn [scrollOffset]; lia.
Qed.

Lemma render_scrollOffset (s : t) :
  0 <= scrollOffset s -> 0 <= scrollOffset (render s) <= scrollOffset s.
Proof. intros H. apply (drawn_scrollOffset s H). Qed.


Lemma render_valid (s : t) : selectionValid s -> selectionValid (render s).
Proof.
  unfold selectionValid. intros [Hs [Ho Hl]].
  rewrite render_files, render_selectedIndex.
  pose proof (render_scrollOffset s Ho). repeat split; try lia.
  all: intros Hn; specialize (Hl Hn); lia.
Qed.


(** *** Each operation keeps the selection valid *)

Ltac proj :=
  unfold add_log, set_currentDirectory, set_files, set_selectedIndex,
    set_scrollOffset, set_viewMode, set_lastClickTime, set_lastClickTarget,
    set_scrollMode, set_useTripleText, set_activeGallery, set_log,
    set_hoverIndex, set_mouseEnabled, set_terminalSize in *;
  cbn [currentDirectory files selectedIndex scrollOffset viewMode terminalWidth
       terminalHeight maxDisplayLines lastClickTime lastClickTarget
       doubleClickThreshold mouseEnabled hoverIndex scrollMode useTripleText
       activeGallery log] in *.

Ltac split_ifs :=
  repeat match goal with
         | |- context [if ?b then _ else _] =>
             let E := fresh "E" in destruct b eqn:E
         end.

Lemma render_sound (s : t) : sound s -> sound (render s).
Proof.
  intros [Hv Ht]. split; [apply render_valid; exact Hv|].
  unfold tallEnough. rewrite render_maxDisplayLines. exact Ht.
Qed.


Lemma calculateGridDimensions_pair (s : t) :
  calculateGridDimensions s =
  (fst (calculateGridDimensions s), set_useTripleText true s).
Proof. reflexivity. Qed.















(** *** The mouse *)







(** *** Refreshing *)


(** *** Every key *)



Lemma browser_sound : sound Samples.browser.
Proof.
  unfold sound, selectionValid, tallEnough. vm_compute.
  repeat split; intros; discriminate.
Defined.


(** *** A refresh that finds nothing *)

Lemma refresh_currentDirectory (h : Host) (s : t) :
  currentDirectory (refresh h s) = currentDirectory s.
Proof. unfold refresh. cbv zeta. rewrite render_currentDirectory. reflexivity. Qed.

Lemma getMediaFiles_currentDirectory (h : Host) (s s' : t) :
  currentDirectory s' = currentDirectory s ->
  getMediaFiles h s' = getMediaFiles h s.
Proof. intros E. unfold getMediaFiles. rewrite E. reflexivity. Qed.

Lemma refresh_files (h : Host) (s : t) : files (refresh h s) = getMediaFiles h s.
Proof. unfold refresh. cbv zeta. rewrite render_files. reflexivity. Qed.

Lemma refresh_selected (h : Host) (s : t) :
  selectedIndex (refresh h s) =
  Z.min (selectedIndex s) (JS.len (getMediaFiles h s) - 1).
Proof. unfold refresh. cbv zeta. rewrite render_selectedIndex. reflexivity. Qed.

(** X10: Once a refresh has found the directory empty, the selection is
    negative; a later refresh that finds entries leaves it negative, and
    Enter then throws instead of activating an entry. *)
Theorem enter_after_empty_refresh (h1 h2 : Host) (now : Z) (s : t) :
  getMediaFiles h1 s = [] ->
  getMediaFiles h2 s <> [] ->
  let s' := refresh h2 (refresh h1 s) in
  files s' = getMediaFiles h2 s /\
  selectedIndex s' < 0 /\
  handleKey h2 keyReturn now s' = Failed s'.
Proof.
  intros He Hn. cbv zeta.
  assert (Ef : files (refresh h2 (refresh h1 s)) = getMediaFiles h2 s).
  { rewrite refresh_files. apply getMediaFiles_currentDirectory.
    apply refresh_currentDirectory. }
  assert (Es : selectedIndex (refresh h2 (refresh h1 s)) < 0).
  { rewrite !refresh_selected, He. cbn [JS.len List.length Z.of_nat]. lia. }
  split; [exact Ef|]. split; [exact Es|].
  change (handleKey h2 keyReturn now (refresh h2 (refresh h1 s)))
    with (completed (handleEnterKey h2 now (refresh h2 (refresh h1 s)))).
  unfold handleEnterKey. rewrite Ef.
  destruct (JS.len (getMediaFiles h2 s) =? 0) eqn:E0.
  - apply Z.eqb_eq in E0. unfold JS.len in E0.
    destruct (getMediaFiles h2 s); [congruence | discriminate E0].
  - unfold JS.index. apply Z.ltb_lt in Es. rewrite Es. reflexivity.
Qed.

(** [enter_after_empty_refresh] at the sample browser: its directory is
    emptied, refreshed, filled again and refreshed. *)
Lemma enter_after_empty_refresh_witness :
  getMediaFiles Samples.emptied Samples.browser = [] /\
  selectedIndex
    (refresh Samples.host (refresh Samples.emptied Samples.browser)) < 0 /\
  handleKey Samples.host keyReturn 0
    (refresh Samples.host (refresh Samples.emptied Samples.browser)) =
  Failed (refresh Samples.host (refresh Samples.emptied Samples.browser)).
Proof.
  assert (He : getMediaFiles Samples.emptied Samples.browser = [])
    by reflexivity.
  assert (Hn : getMediaFiles Samples.host Samples.browser <> [])
    by (vm_compute; discriminate).
  split; [exact He|].
  exact (proj2 (enter_after_empty_refresh Samples.emptied Samples.host 0
                  Samples.browser He Hn)).
Defined.

End NavigationProofs.

(** ** What is on screen after a key *)

Module VisibilityProofs.

Import TerminalGUI Navigation.
Import LayoutProofs NavigationProofs.
Local Open Scope Z_scope.

(** *** Starting and resizing *)

(** X11: [start()] on a terminal of at least 24 rows (or of unknown height,
    taken as 24) leaves a valid selection on a terminal tall enough. *)
Theorem start_sound (h : Host) (disableMouse scrollArrows : bool)
        (cwd : string) (columns rows : option Z) :
  24 <= JS.orElse rows 24 ->
  sound (start h disableMouse (constructor cwd columns rows scrollArrows)).
Proof.
  intros Hr. unfold start, setupInput. cbv zeta.
  set (s0 := set_files _ _).
  assert (H0 : sound s0).
  { unfold s0, constructor, sound, selectionValid, tallEnough. cbv zeta. proj.
    repeat split; intros; lia. }
  apply render_sound in H0. destruct (negb disableMouse); [|exact H0].
  destruct H0 as [[H1 [H2 H3]] Ht].
  unfold sound, selectionValid, tallEnough in *. proj. repeat split; try lia.
Qed.

Lemma start_sound_witness :
  sound (start Samples.host false (constructor "/pics" (Some 80) (Some 24) false)).
Proof.
  apply (start_sound Samples.host false false "/pics" (Some 80) (Some 24)).
  vm_compute. discriminate.
Defined.

(** X12: A resize keeps the selection valid; the terminal stays tall enough
    when the new height is at least 24 rows. *)
Theorem resize_sound (columns rows : option Z) (s : t) :
  selectionValid s ->
  selectionValid (resize columns rows s) /\
  (24 <= JS.orElse rows 24 -> sound (resize columns rows s)).
Proof.
  intros Hv. unfold resize. cbv zeta.
  set (s1 := set_terminalSize _ _ _ s).
  assert (H1 : selectionValid s1).
  { destruct Hv as [H1 [H2 H3]]. unfold s1, selectionValid in *. proj.
    repeat split; try lia. }
  assert (Ht : 24 <= JS.orElse rows 24 -> tallEnough s1).
  { intros Hr. unfold s1, tallEnough. proj. lia. }
  destruct (activeGallery s1).
  - split; [exact H1|]. intros Hr. split; [exact H1 | exact (Ht Hr)].
  - split; [apply render_valid; exact H1|]. intros Hr.
    apply render_sound. split; [exact H1 | exact (Ht Hr)].
Qed.

Lemma resize_sound_witness :
  selectionValid Samples.browser /\
  selectionValid (resize (Some 120) (Some 40) Samples.browser) /\
  sound (resize (Some 120) (Some 40) Samples.browser).
Proof.
  split; [exact (proj1 browser_sound)|].
  destruct (resize_sound (Some 120) (Some 40) Samples.browser
              (proj1 browser_sound)) as [A B].
  split; [exact A|]. apply B. vm_compute. discriminate.
Defined.

(** *** The list view *)

Lemma In_listedIndices (s : t) (i : Z) :
  scrollOffset s <= i < scrollOffset s + maxDisplayLines s ->
  i < JS.len (files s) ->
  In i (listedIndices s).
Proof.
  intros H1 H2. unfold listedIndices. cbv zeta.
  apply in_map_iff. exists (Z.to_nat (i - scrollOffset s)). split; [lia|].
  apply in_seq. lia.
Qed.

Lemma render_scrollOffset_list (s : t) :
  viewMode s = list_view -> scrollOffset (render s) = scrollOffset s.
Proof.
  destruct s as [cd fs si so vm tw th mdl lt lg dt me hi sm ut ag lo].
  cbn [viewMode]. intros V. subst vm. reflexivity.
Qed.

Lemma renderWithClear_scrollOffset_list (s : t) :
  viewMode s = list_view -> scrollOffset (renderWithClear s) = scrollOffset s.
Proof.
  destruct s as [cd fs si so vm tw th mdl lt lg dt me hi sm ut ag lo].
  cbn [viewMode]. intros V. subst vm. reflexivity.
Qed.

(** X13: In list view, an arrow key that has an entry to move to selects it
    and scrolls so that its line is among the lines printed. *)
Theorem moveSelection_list_listed (direction : Z) (s : t) :
  viewMode s = list_view ->
  1 <= maxDisplayLines s ->
  0 <= selectedIndex s + direction < JS.len (files s) ->
  selectedIndex (moveSelection direction s) = selectedIndex s + direction /\
  In (selectedIndex (moveSelection direction s))
     (listedIndices (moveSelection direction s)).
Proof.
  intros V Hm Hi. unfold moveSelection. rewrite V.
  unfold moveSelectionList. cbv zeta.
  assert (C : (selectedIndex s + direction >=? 0)
              && (selectedIndex s + direction <? JS.len (files s)) = true).
  { apply andb_true_intro. split; [apply Z.geb_le | apply Z.ltb_lt]; lia. }
  rewrite C.
  set (s2 := if _ <? _ then _ else _).
  assert (F : files s2 = files s /\ maxDisplayLines s2 = maxDisplayLines s /\
              viewMode s2 = list_view /\
              selectedIndex s2 = selectedIndex s + direction /\
              scrollOffset s2 <= selectedIndex s + direction
              < scrollOffset s2 + maxDisplayLines s).
  { unfold s2. split_ifs; proj; repeat split; try assumption; try lia. }
  clearbody s2. destruct F as [Ff [Fm [Fv [Fs Fo]]]].
  rewrite render_selectedIndex, Fs. split; [reflexivity|].
  apply In_listedIndices.
  - rewrite render_scrollOffset_list, render_maxDisplayLines, Fm by exact Fv.
    exact Fo.
  - rewrite render_files, Ff. lia.
Qed.

Lemma moveSelection_list_listed_witness :
  selectedIndex (moveSelection 1 (set_viewMode list_view Samples.browser)) = 1 /\
  In 1 (listedIndices (moveSelection 1 (set_viewMode list_view Samples.browser))).
Proof.
  assert (V : viewMode (set_viewMode list_view Samples.browser) = list_view)
    by reflexivity.
  assert (Hm : 1 <= maxDisplayLines (set_viewMode list_view Samples.browser))
    by (vm_compute; discriminate).
  assert (Hi : 0 <= selectedIndex (set_viewMode list_view Samples.browser) + 1
               < JS.len (files (set_viewMode list_view Samples.browser)))
    by (vm_compute; split; [discriminate | reflexivity]).
  destruct (moveSelection_list_listed 1 _ V Hm Hi) as [A B].
  assert (E : selectedIndex
                (moveSelection 1 (set_viewMode list_view Samples.browser)) = 1)
    by exact A.
  split; [exact E|]. rewrite <- E at 1. exact B.
Defined.

(** X14: In list view the wheel brings the selection among the lines
    printed, unlike the grid's scroll step. *)
Theorem handleScrollWheel_list_listed (direction : Z) (s : t) :
  viewMode s = list_view ->
  1 <= maxDisplayLines s ->
  selectionValid s ->
  0 < JS.len (files s) ->
  In (selectedIndex (handleScrollWheel direction s))
     (listedIndices (handleScrollWheel direction s)).
Proof.
  intros V Hm [H1 [H2 H3]] Hl. specialize (H3 Hl).
  unfold handleScrollWheel. rewrite V. cbv zeta.
  set (s1 := if direction =? -1 then _ else _).
  assert (F1 : files s1 = files s /\ maxDisplayLines s1 = maxDisplayLines s /\
               viewMode s1 = list_view /\ selectedIndex s1 = selectedIndex s /\
               0 <= scrollOffset s1 < JS.len (files s)).
  { unfold s1. split_ifs; proj; repeat split; try assumption; try lia. }
  clearbody s1. destruct F1 as [Ff [Fm [Fv [Fs Fo]]]].
  set (s2 := if _ <? _ then _ else _).
  assert (F2 : files s2 = files s /\ maxDisplayLines s2 = maxDisplayLines s /\
               viewMode s2 = list_view /\
               scrollOffset s2 <= selectedIndex s2
               < scrollOffset s2 + maxDisplayLines s /\
               selectedIndex s2 < JS.len (files s)).
  { unfold s2. split_ifs; proj; repeat split; try assumption; try lia. }
  clearbody s2. destruct F2 as [Gf [Gm [Gv [Go Gs]]]].
  rewrite renderWithClear_selectedIndex. apply In_listedIndices.
  - rewrite renderWithClear_scrollOffset_list, renderWithClear_maxDisplayLines, Gm
      by exact Gv.
    exact Go.
  - rewrite renderWithClear_files, Gf. exact Gs.
Qed.

Lemma handleScrollWheel_list_listed_witness :
  In (selectedIndex
        (handleScrollWheel 1 (set_viewMode list_view Samples.browser)))
     (listedIndices
        (handleScrollWheel 1 (set_viewMode list_view Samples.browser))).
Proof.
  apply (handleScrollWheel_list_listed 1 (set_viewMode list_view Samples.browser)).
  - reflexivity.
  - vm_compute. discriminate.
  - unfold selectionValid. vm_compute. repeat split; intros; discriminate.
  - reflexivity.
Defined.

(** *** The grid view *)

Lemma drawGridView_files s : files (drawGridView s) = files s.
Proof. frame. Qed.

Lemma drawGridView_maxDisplayLines s :
  maxDisplayLines (drawGridView s) = maxDisplayLines s.
Proof. frame. Qed.



(** [drawGridView] brings the offset into [[0, maxScrollOffset]]. *)
Lemma drawGridView_scrollOffset (s : t) :
  scrollOffset (drawGridView s) =
  Z.min (GridScroll.maxScrollOffset s) (Z.max 0 (scrollOffset s)).
Proof.
  pose proof (maxScrollOffset_nonneg s) as Hm.
  unfold drawGridView. rewrite calculateGridDimensions_pair. cbv beta iota zeta.
  set (d := fst (calculateGridDimensions s)) in *.
  change (maxDisplayLines (set_useTripleText true s)) with (maxDisplayLines s).
  change (scrollOffset (set_useTripleText true s)) with (scrollOffset s).
  set (M := GridScroll.maxScrollOffset s) in *.
  change (Z.max 0 (rows d - Z.min (maxDisplayLines s / itemHeight d) (rows d))
          * columns d) with M.
  destruct (scrollOffset s <? 0) eqn:E1.
  - apply Z.ltb_lt in E1. proj.
    destruct (0 >? M) eqn:E2; [apply Z.gtb_lt in E2; lia|]. proj. lia.
  - apply Z.ltb_ge in E1. change (scrollOffset (set_useTripleText true s))
      with (scrollOffset s).
    destruct (scrollOffset s >? M) eqn:E2.
    + apply Z.gtb_lt in E2. proj. lia.
    + assert (scrollOffset s <= M) by (destruct (Z.gtb_spec (scrollOffset s) M);
                                        [discriminate | lia]).
      proj. lia.
Qed.






(** *** A terminal too short for a tile *)

Lemma paintedIndices_short (s : t) :
  maxDisplayLines s < 19 -> paintedIndices s = [].
Proof.
  intros Hm. unfold paintedIndices. rewrite calculateGridDimensions_pair.
  cbv beta iota zeta. rewrite drawGridView_maxDisplayLines.
  change (maxDisplayLines (set_useTripleText true s)) with (maxDisplayLines s).
  change (itemHeight (fst (calculateGridDimensions s))) with 19.
  assert (Hd : maxDisplayLines s / 19 < 1)
    by (apply Z.div_lt_upper_bound; lia).
  assert (E : Z.to_nat (Z.min (maxDisplayLines s / 19)
                              (rows (fst (calculateGridDimensions s)))) = 0%nat)
    by lia.
  rewrite E. reflexivity.
Qed.

(** X16: Started on a terminal of fewer than 24 rows, the browser is in grid
    view and paints no tile, whatever the directory holds. *)
Theorem short_terminal_paints_nothing (h : Host) (disableMouse scrollArrows : bool)
        (cwd : string) (columns : option Z) (rows : Z) :
  0 < rows < 24 ->
  let s := start h disableMouse (constructor cwd columns (Some rows) scrollArrows) in
  viewMode s = grid_view /\ paintedIndices s = [].
Proof.
  intros Hr. cbv zeta. unfold start, setupInput. cbv zeta.
  set (s0 := set_files _ _).
  assert (Hv : viewMode (render s0) = grid_view)
    by (rewrite render_viewMode; reflexivity).
  assert (Hm : maxDisplayLines (render s0) < 19).
  { rewrite render_maxDisplayLines. unfold s0, constructor. cbv zeta. proj.
    unfold JS.orElse. destruct (rows =? 0) eqn:E; [apply Z.eqb_eq in E|]; lia. }
  destruct (negb disableMouse).
  - split; [exact Hv|]. apply paintedIndices_short. exact Hm.
  - split; [exact Hv|]. apply paintedIndices_short. exact Hm.
Qed.

Lemma short_terminal_paints_nothing_witness :
  paintedIndices
    (start Samples.host false (constructor "/pics" (Some 80) (Some 20) false)) = [].
Proof.
  assert (Hr : 0 < 20 < 24) by lia.
  exact (proj2 (short_terminal_paints_nothing Samples.host false false "/pics"
                  (Some 80) 20 Hr)).
Defined.

(** *** What the drawing loops index *)

(** X17: Every index the list loop and the grid loops read from [files] is
    the index of an entry: the grid clamps its offset before it draws,
    the list relies on the offset not being negative. *)
Theorem drawn_indices_in_range (s : t) :
  0 <= scrollOffset s ->
  Forall (fun i => 0 <= i < JS.len (files s)) (listedIndices s) /\
  Forall (fun i => 0 <= i < JS.len (files s)) (paintedIndices s).
Proof.
  intros Ho. split; apply Forall_forall; intros i Hi.
  - unfold listedIndices in Hi. cbv zeta in Hi. apply in_map_iff in Hi.
    destruct Hi as [k [<- Hk]]. apply in_seq in Hk. lia.
  - unfold paintedIndices in Hi. rewrite calculateGridDimensions_pair in Hi.
    cbv beta iota zeta in Hi.
    rewrite drawGridView_files, drawGridView_scrollOffset in Hi.
    change (files (set_useTripleText true s)) with (files s) in Hi.
    change (scrollOffset (set_useTripleText true s)) with (scrollOffset s) in Hi.
    change (GridScroll.maxScrollOffset (set_useTripleText true s))
      with (GridScroll.maxScrollOffset s) in Hi.
    pose proof (maxScrollOffset_nonneg s) as Hm.
    assert (Hc : 1 <= columns (fst (calculateGridDimensions s)))
      by (rewrite calculateGridDimensions_columns_eq; apply Z.le_max_l).
    apply in_flat_map in Hi. destruct Hi as [row [Hrow Hi]].
    apply in_map_iff in Hrow. destruct Hrow as [r [<- _]].
    apply in_flat_map in Hi. destruct Hi as [col [Hcol Hi]].
    apply in_map_iff in Hcol. destruct Hcol as [c [<- _]].
    destruct (_ >=? _) eqn:E; [contradiction|].
    destruct Hi as [<-|[]].
    assert (Z.of_nat r * columns (fst (calculateGridDimensions s))
            + Z.of_nat c
            + Z.min (GridScroll.maxScrollOffset s) (Z.max 0 (scrollOffset s))
            < JS.len (files s)).
    { destruct (Z.geb_spec
                  (Z.of_nat r * columns (fst (calculateGridDimensions s))
                   + Z.of_nat c
                   + Z.min (GridScroll.maxScrollOffset s)
                           (Z.max 0 (scrollOffset s)))
                  (JS.len (files s))); [discriminate E | lia]. }
    split; [|assumption].
    assert (0 <= Z.of_nat r * columns (fst (calculateGridDimensions s)))
      by (apply Z.mul_nonneg_nonneg; lia).
    lia.
Qed.

Lemma drawn_indices_in_range_witness :
  Forall (fun i => 0 <= i < 10) (listedIndices Samples.tenPictures) /\
  Forall (fun i => 0 <= i < 10) (paintedIndices Samples.tenPictures).
Proof.
  apply (drawn_indices_in_range Samples.tenPictures). vm_compute. discriminate.
Defined.

End VisibilityProofs.

(** ** Directories: the way back, and what a listing holds *)

Module DirectoryProofs.

Import TerminalGUI Navigation Listing.
Import LayoutProofs NavigationProofs ListingProofs MouseProofs.
Local Open Scope Z_scope.

(** *** [path.dirname] after [path.join] *)

Lemma list_ascii_app (a b : string) :
  list_ascii_of_string (a ++ b) =
  (list_ascii_of_string a ++ list_ascii_of_string b)%list.
Proof. induction a as [|c a IH]; simpl; [reflexivity | rewrite IH; reflexivity]. Qed.

Lemma length_list_ascii (a : string) :
  List.length (list_ascii_of_string a) = String.length a.
Proof. induction a as [|c a IH]; simpl; [reflexivity | rewrite IH; reflexivity]. Qed.

Lemma includes_chars (f : string) :
  JS.includes f "/"%char = false ->
  Forall (fun c => Ascii.eqb c "/"%char = false) (list_ascii_of_string f).
Proof.
  induction f as [|c f IH]; simpl; intros H; [constructor|].
  apply orb_false_elim in H. destruct H as [H1 H2].
  constructor; [exact H1 | apply IH; exact H2].
Qed.

Lemma Forall_rev_chars (P : ascii -> Prop) (l : list ascii) :
  Forall P l -> Forall P (rev l).
Proof.
  intros H. apply Forall_forall. intros c Hc. apply in_rev in Hc.
  revert c Hc. apply Forall_forall. exact H.
Qed.

(** No separator: the loop runs to its end. *)
Lemma dirnameEnd_none (l : list ascii) (i : nat) (m : bool) :
  Forall (fun c => Ascii.eqb c "/"%char = false) l ->
  JS.dirnameEnd l i m = None.
Proof.
  intros H. revert i m. induction H as [|c l Hc _ IH]; intros i m; simpl;
    [reflexivity|]. rewrite Hc. apply IH.
Qed.

(** A name seen, the loop stops at the first separator. *)
Lemma dirnameEnd_found (l1 l2 : list ascii) (i : nat) :
  Forall (fun c => Ascii.eqb c "/"%char = false) l1 ->
  JS.dirnameEnd (l1 ++ "/"%char :: l2) i false = Some (i - List.length l1)%nat.
Proof.
  intros H. revert i. induction H as [|c l Hc _ IH]; intros i; simpl.
  - rewrite Nat.sub_0_r. reflexivity.
  - rewrite Hc, IH. f_equal. lia.
Qed.

Lemma dirnameEnd_name (c : ascii) (l1 l2 : list ascii) (i : nat) :
  Ascii.eqb c "/"%char = false ->
  Forall (fun c => Ascii.eqb c "/"%char = false) l1 ->
  JS.dirnameEnd (c :: l1 ++ "/"%char :: l2) i true
  = Some (i - 1 - List.length l1)%nat.
Proof. intros Hc Hl. simpl. rewrite Hc. apply dirnameEnd_found. exact Hl. Qed.

Lemma endsWithSlash_root_only (rest : string) :
  JS.endsWithSlash (String "/"%char rest) = false -> rest <> EmptyString.
Proof. intros H E. subst rest. discriminate H. Qed.

(** The directory of an entry's path is the directory it was joined
    to. *)
Lemma dirname_join (dir f : string) :
  normalized dir -> entryName f -> JS.dirname (JS.join dir f) = dir.
Proof.
  intros Hd [Hseg Hf]. apply includes_chars in Hf.
  assert (Hne : f <> EmptyString) by (intros E; subst f; discriminate Hseg).
  destruct Hd as [->|[rest [-> [Hs _]]]].
  - unfold JS.join. simpl JS.endsWithSlash. cbv iota.
    change ("/" ++ f)%string with (String "/"%char f).
    unfold JS.dirname. rewrite dirnameEnd_none; [reflexivity|].
    apply Forall_rev_chars. exact Hf.
  - pose proof (endsWithSlash_root_only rest Hs) as Hr.
    unfold JS.join. rewrite Hs.
    change (String "/"%char rest ++ "/" ++ f)%string
      with (String "/"%char (rest ++ String "/"%char f)).
    unfold JS.dirname.
    rewrite list_ascii_app. simpl list_ascii_of_string.
    rewrite rev_app_distr. simpl rev. rewrite <- app_assoc. simpl app.
    destruct (rev (list_ascii_of_string f)) as [|c l1] eqn:Er.
    { exfalso. apply Hne. destruct f; [reflexivity|].
      apply (f_equal (@List.length ascii)) in Er. rewrite length_rev in Er.
      discriminate Er. }
    assert (Hl : Forall (fun c => Ascii.eqb c "/"%char = false) (c :: l1)).
    { rewrite <- Er. apply Forall_rev_chars. exact Hf. }
    inversion Hl as [|? ? Hc Hl1]; subst.
    change ((c :: l1) ++ "/"%char :: rev (list_ascii_of_string rest))%list
      with (c :: l1 ++ "/"%char :: rev (list_ascii_of_string rest))%list.
    rewrite dirnameEnd_name by assumption.
    assert (El : S (List.length l1) = String.length f).
    { apply (f_equal (@List.length ascii)) in Er.
      rewrite length_rev, length_list_ascii in Er. simpl in Er. lia. }
    assert (En : (String.length (String "/"%char (rest ++ String "/"%char f))
                  - 1 - 1 - List.length l1 = S (String.length rest))%nat).
    { simpl String.length. rewrite length_append. simpl String.length. lia. }
    rewrite En.
    simpl Ascii.eqb. cbv iota.
    destruct (S (String.length rest) =? 1)%nat eqn:E1.
    { apply Nat.eqb_eq in E1. destruct rest; [contradiction | discriminate E1]. }
    simpl andb. cbv iota.
    change (String "/"%char (rest ++ String "/"%char f))
      with (String "/"%char rest ++ String "/"%char f)%string.
    apply (substring_append (String "/"%char rest)).
Qed.

Lemma join_longer (dir f : string) :
  (String.length dir < String.length (JS.join dir f))%nat \/ f = EmptyString.
Proof.
  unfold JS.join. destruct (JS.endsWithSlash dir).
  - rewrite length_append. destruct f; [right; reflexivity|]. left. simpl. lia.
  - left. rewrite !length_append. simpl. lia.
Qed.

(** *** Going back *)

(** X18: Entering an entry of the current directory and going back shows the
    current directory again, read afresh, with the first entry selected
    and nothing scrolled. *)
Theorem goBack_after_navigate (h : Host) (f : string) (s : t) :
  normalized (currentDirectory s) ->
  entryName f ->
  let s' := goBack h (navigateToDirectory h (JS.join (currentDirectory s) f) s) in
  currentDirectory s' = currentDirectory s /\
  files s' = getMediaFiles h s /\
  selectedIndex s' = 0 /\
  scrollOffset s' = 0.
Proof.
  intros Hd Hf. cbv zeta.
  set (p := JS.join (currentDirectory s) f).
  assert (Ec : currentDirectory (navigateToDirectory h p s) = p).
  { unfold navigateToDirectory. cbv zeta. rewrite render_currentDirectory.
    reflexivity. }
  assert (Ed : JS.dirname p = currentDirectory s)
    by exact (dirname_join _ _ Hd Hf).
  unfold goBack. cbv zeta. rewrite Ec, Ed.
  assert (Hne : String.eqb (currentDirectory s) p = false).
  { apply String.eqb_neq. intros E.
    destruct (join_longer (currentDirectory s) f) as [L|L].
    - fold p in L. rewrite <- E in L. lia.
    - destruct Hf as [Hf _]. subst f. discriminate Hf. }
  rewrite Hne. cbn [negb].
  set (s1 := navigateToDirectory h p s).
  rewrite render_currentDirectory, render_files, render_selectedIndex.
  split; [reflexivity|].
  split; [apply getMediaFiles_currentDirectory; reflexivity|].
  split; [reflexivity|].
  pose proof (render_scrollOffset
                  (set_files
                     (getMediaFiles h
                        (set_scrollOffset 0
                           (set_selectedIndex 0
                              (set_currentDirectory (currentDirectory s) s1))))
                     (set_scrollOffset 0
                        (set_selectedIndex 0
                           (set_currentDirectory (currentDirectory s) s1)))))
      as R.
    cbn [scrollOffset set_files set_scrollOffset] in R. lia.
Qed.

Lemma goBack_after_navigate_witness :
  currentDirectory
    (goBack Samples.host
       (navigateToDirectory Samples.host "/pics/Sub" Samples.browser)) = "/pics" /\
  map name
    (files (goBack Samples.host
              (navigateToDirectory Samples.host "/pics/Sub" Samples.browser)))
  = ["Sub"; "a.png"].
Proof.
  assert (Hd : normalized (currentDirectory Samples.browser)).
  { right. exists "pics". repeat split; reflexivity. }
  assert (Hf : entryName "Sub") by (split; reflexivity).
  destruct (goBack_after_navigate Samples.host "Sub" Samples.browser Hd Hf)
    as [A [B _]].
  split; [exact A|].
  change (JS.join (currentDirectory Samples.browser) "Sub") with "/pics/Sub" in B.
  rewrite B. reflexivity.
Defined.

(** *** What a listing holds *)

Lemma collectItems_failure (h : Host) (dir : string) (names : list string) :
  forall acc f,
    In f names -> isDots f = false -> statSync h (JS.join dir f) = None ->
    collectItems h dir names acc = None.
Proof.
  induction names as [|g names IH]; intros acc f Hin Hd Hs; [contradiction|].
  simpl. fold (isDots g). destruct Hin as [->|Hin].
  - rewrite Hd, Hs. reflexivity.
  - destruct (isDots g); [eapply IH; eassumption|].
    destruct (statSync h (JS.join dir g)) as [st|]; [|reflexivity].
    destruct (isDirectory st); [eapply IH; eassumption|].
    destruct (isMediaFile g); eapply IH; eassumption.
Qed.

(** X19: One entry that [fs.statSync] cannot read empties the whole listing:
    the exception is caught around the loop, not inside it. *)
Theorem getMediaFiles_unreadable_entry (h : Host) (s : t)
        (names : list string) (f : string) :
  readdirSync h (currentDirectory s) = Some names ->
  In f names ->
  isDots f = false ->
  statSync h (JS.join (currentDirectory s) f) = None ->
  getMediaFiles h s = [].
Proof.
  intros Hr Hin Hd Hs. unfold getMediaFiles. rewrite Hr.
  rewrite (collectItems_failure h _ names [] f Hin Hd Hs). reflexivity.
Qed.

Lemma getMediaFiles_unreadable_entry_witness :
  getMediaFiles
    (mkHost Samples.codeUnitCompare
       (fun _ => Some ["a.png"; "broken"; "Sub"])
       (fun p => if String.eqb p "/pics/broken" then None
                 else Some (mkStats false 1024))
       (Some 80) (Some 24))
    Samples.browser = [].
Proof.
  apply (getMediaFiles_unreadable_entry _ Samples.browser
           ["a.png"; "broken"; "Sub"] "broken").
  - reflexivity.
  - right. left. reflexivity.
  - reflexivity.
  - reflexivity.
Defined.

Lemma entry_directory (h : Host) (dir g : string) (st : Stats) :
  statSync h (JS.join dir g) = Some st -> isDirectory st = true ->
  entry h dir g = mkItem g (JS.join dir g) directory 0 "".
Proof. intros S Y. unfold entry. rewrite S, Y. reflexivity. Qed.

Lemma entry_file (h : Host) (dir g : string) (st : Stats) :
  statSync h (JS.join dir g) = Some st -> isDirectory st = false ->
  entry h dir g = mkItem g (JS.join dir g) file (stat_size st)
                         (JS.toLowerCase (JS.extname g)).
Proof. intros S Y. unfold entry. rewrite S, Y. reflexivity. Qed.

Lemma collectItems_all (h : Host) (dir : string) (names : list string) :
  forall acc,
    readable h dir names = true ->
    collectItems h dir names acc =
    Some (acc ++ map (entry h dir) (filter (kept h dir) names)).
Proof.
  induction names as [|g names IH]; intros acc Hr; simpl.
  - rewrite app_nil_r. reflexivity.
  - simpl in Hr. apply andb_prop in Hr. destruct Hr as [Hg Hr].
    unfold kept at 1. fold (isDots g).
    destruct (isDots g) eqn:D; cbn [negb andb].
    + apply IH. exact Hr.
    + cbn [orb] in Hg.
      destruct (statSync h (JS.join dir g)) as [st|] eqn:S; [|discriminate Hg].
      destruct (isDirectory st) eqn:Y; cbn [orb].
      * rewrite IH by exact Hr. rewrite <- app_assoc. cbn [map app].
        rewrite (entry_directory h dir g st S Y). reflexivity.
      * destruct (isMediaFile g) eqn:M.
        -- rewrite IH by exact Hr. rewrite <- app_assoc. cbn [map app].
           rewrite (entry_file h dir g st S Y). reflexivity.
        -- apply IH. exact Hr.
Qed.

(** X20: In a directory whose entries can all be read, the listing holds
    every subdirectory and every media file, each as often as the
    directory names it, with its joined path; and nothing else. *)
Theorem getMediaFiles_complete (h : Host) (s : t) (names : list string) :
  readdirSync h (currentDirectory s) = Some names ->
  readable h (currentDirectory s) names = true ->
  Permutation (getMediaFiles h s)
              (map (entry h (currentDirectory s))
                   (filter (kept h (currentDirectory s)) names)).
Proof.
  intros Hr Ha. unfold getMediaFiles. rewrite Hr.
  rewrite (collectItems_all h _ names [] Ha). simpl.
  apply Permutation_sym. apply sort_perm.
Qed.

Lemma getMediaFiles_complete_witness :
  Permutation (getMediaFiles Samples.host Samples.browser)
              [mkItem "a.png" "/pics/a.png" file 1024 ".png";
               mkItem "Sub" "/pics/Sub" directory 0 ""].
Proof.
  exact (getMediaFiles_complete Samples.host Samples.browser
           ["b.txt"; "a.png"; "Sub"] eq_refl eq_refl).
Defined.

(** *** Extensions in any letter case *)

Lemma toLowerAscii_dot (c : ascii) :
  Ascii.eqb (JS.toLowerAscii c) "."%char = Ascii.eqb c "."%char.
Proof. destruct c as [[] [] [] [] [] [] [] []]; reflexivity. Qed.

Lemma toLowerAscii_idem (c : ascii) :
  JS.toLowerAscii (JS.toLowerAscii c) = JS.toLowerAscii c.
Proof. destruct c as [[] [] [] [] [] [] [] []]; reflexivity. Qed.

Lemma toLowerCase_idem (s : string) :
  JS.toLowerCase (JS.toLowerCase s) = JS.toLowerCase s.
Proof.
  induction s as [|c s IH]; simpl; [reflexivity|].
  rewrite toLowerAscii_idem, IH. reflexivity.
Qed.

Lemma toLowerCase_length (s : string) :
  String.length (JS.toLowerCase s) = String.length s.
Proof. induction s as [|c s IH]; simpl; [|rewrite IH]; reflexivity. Qed.

Lemma toLowerCase_lastDot (s : string) (i : nat) (found : option nat) :
  JS.lastDot (JS.toLowerCase s) i found = JS.lastDot s i found.
Proof.
  revert i found. induction s as [|c s IH]; intros i found; simpl;
    [reflexivity|]. rewrite toLowerAscii_dot. apply IH.
Qed.

Lemma toLowerCase_substring (k n : nat) (s : string) :
  String.substring k n (JS.toLowerCase s)
  = JS.toLowerCase (String.substring k n s).
Proof.
  revert k n. induction s as [|c s IH]; intros k n; simpl.
  - destruct k, n; reflexivity.
  - destruct k as [|k].
    + destruct n as [|n]; [reflexivity|]. simpl. rewrite IH. reflexivity.
    + apply IH.
Qed.

Lemma toLowerCase_dots (s : string) :
  String.eqb (JS.toLowerCase s) ".." = String.eqb s "..".
Proof.
  destruct s as [|a [|b [|c s]]]; simpl; rewrite ?toLowerAscii_dot;
    reflexivity.
Qed.

Lemma extname_toLowerCase (name : string) :
  JS.extname (JS.toLowerCase name) = JS.toLowerCase (JS.extname name).
Proof.
  unfold JS.extname.
  rewrite toLowerCase_lastDot, toLowerCase_dots, toLowerCase_length.
  destruct (JS.lastDot name 0 None) as [[|k]|]; try reflexivity.
  destruct (String.eqb name ".."); [reflexivity|].
  apply toLowerCase_substring.
Qed.

(** X21: Whether a name is a media file does not depend on the case of its
    letters: [isMediaFile] answers for a name what it answers for the
    name in lower case. *)
Theorem isMediaFile_any_case (name : string) :
  isMediaFile (JS.toLowerCase name) = isMediaFile name.
Proof.
  unfold isMediaFile. cbv zeta.
  rewrite extname_toLowerCase, toLowerCase_idem. reflexivity.
Qed.

End DirectoryProofs.

(** ** The pointer, and the gallery the browser opens *)

Module PointerProofs.

Import TerminalGUI Navigation Activation.
Import LayoutProofs ActivationProofs NavigationProofs.
Local Open Scope Z_scope.

Lemma index_Some_range {A : Type} (l : list A) (i : Z) (a : A) :
  JS.index l i = Some a -> 0 <= i < JS.len l.
Proof.
  unfold JS.index, JS.len. destruct (i <? 0) eqn:E; [discriminate|].
  apply Z.ltb_ge in E. intros H.
  assert (Z.to_nat i < List.length l)%nat
    by (apply nth_error_Some; rewrite H; discriminate).
  lia.
Qed.

(** X22: A report with button code 3 on the line of an entry, in list view,
    selects the entry and opens it at once: no second activation is
    waited for. *)
Theorem button3_opens_at_once (h : Host) (x : option Z) (y now : Z)
        (s : t) (item : Item) :
  viewMode s = list_view ->
  1 <= y <= maxDisplayLines s ->
  JS.index (files s) (y - 1 + scrollOffset s) = Some item ->
  (type item = file -> isMediaFile (name item) = true) ->
  let s' := mouseAction h (mkMouseReport (Some 3) x (Some y)) now s in
  exists e,
    opens (log s') = opens (log s) ++ [e] /\
    opensItem item (files s) e.
Proof.
  intros V Hy Hidx Hmedia. cbv zeta.
  pose proof (index_Some_range _ _ _ Hidx) as Hrange.
  unfold mouseAction. cbv zeta. cbn [button mouse_y mouse_x eqNum option_map].
  change (3 =? 64) with false. change (3 =? 65) with false.
  change (3 =? 96) with false. change (3 =? 97) with false.
  change (3 =? 0) with false. change (3 =? 3) with true.
  cbn [orb andb geNum ltNum].
  assert (C1 : (y - 1 >=? 0) = true) by (apply Z.geb_le; lia).
  assert (C2 : (y - 1 <? 0 + maxDisplayLines s) = true) by (apply Z.ltb_lt; lia).
  rewrite C1, C2, V. cbn [andb].
  replace (y - 1 - 0 + scrollOffset s) with (y - 1 + scrollOffset s) by lia.
  set (i := y - 1 + scrollOffset s) in *.
  assert (C3 : (i >=? 0) && (i <? JS.len (files s)) = true).
  { apply andb_true_intro. split; [apply Z.geb_le | apply Z.ltb_lt]; lia. }
  rewrite C3.
  set (s2 := if selectedIndex s =? i then _ else _).
  assert (F : files s2 = files s /\ selectedIndex s2 = i /\
              opens (log s2) = opens (log s)).
  { unfold s2. destruct (selectedIndex s =? i).
    - repeat split; reflexivity.
    - rewrite render_files, render_selectedIndex, opens_render.
      repeat split; reflexivity. }
  clearbody s2. destruct F as [Ff [Fs Fl]].
  rewrite Ff, Fs, Hidx. unfold opensItem.
  destruct (type item) eqn:Hty.
  - destruct (navigateToDirectory_effect h (path item) s2) as [Hl _].
    eexists. split; [rewrite Hl, Fl; reflexivity | reflexivity].
  - unfold viewSelectedFile. rewrite Ff, Fs, Hidx, Hty, (Hmedia eq_refl).
    rewrite (index_nonempty _ _ _ Hidx).
    assert (Hin : In item (files s2))
      by (rewrite Ff; eapply index_In; exact Hidx).
    destruct (openImageViewer_effect h item s2 Hin Hty (Hmedia eq_refl))
      as [k [Hl [Hk _]]].
    rewrite Ff in Hl, Hk.
    eexists. split; [rewrite Hl, Fl; reflexivity|].
    exists k. split; [reflexivity | exact Hk].
Qed.

(** [button3_opens_at_once] on the first line of the sample browser in
    list view, where the directory [Sub] is listed. *)
Lemma button3_opens_at_once_witness :
  opens (log (mouseAction Samples.host (mkMouseReport (Some 3) (Some 5) (Some 1))
                0 (set_viewMode list_view Samples.browser)))
  = [EnteredDirectory "/pics/Sub"].
Proof.
  set (s := set_viewMode list_view Samples.browser).
  set (item := mkItem "Sub" "/pics/Sub" directory 0 "").
  assert (V : viewMode s = list_view) by reflexivity.
  assert (Hy : 1 <= 1 <= maxDisplayLines s)
    by (vm_compute; split; discriminate).
  assert (Hidx : JS.index (files s) (1 - 1 + scrollOffset s) = Some item)
    by reflexivity.
  assert (Hm : type item = file -> isMediaFile (name item) = true)
    by (intros H; discriminate H).
  destruct (button3_opens_at_once Samples.host (Some 5) 1 0 s item V Hy Hidx Hm)
    as [e [Hl He]].
  rewrite Hl. unfold opensItem in He. simpl in He. subst e. reflexivity.
Defined.

(** *** A click on the first tile of a scrolled grid *)





(** *** The gallery the browser opens *)

Lemma indexOfFrom_range (l : list string) (p : string) (i : Z) :
  JS.indexOfFrom l p i = -1 \/
  (i <= JS.indexOfFrom l p i < i + JS.len l /\
   nth_error l (Z.to_nat (JS.indexOfFrom l p i - i)) = Some p) \/
  i < 0.
Proof.
  revert i. induction l as [|q l IH]; intros i; [left; reflexivity|].
  simpl JS.indexOfFrom. unfold JS.len. simpl List.length.
  destruct (String.eqb q p) eqn:E.
  - apply String.eqb_eq in E. subst q. right. left.
    rewrite Z.sub_diag. split; [lia | reflexivity].
  - destruct (IH (i + 1)) as [H|[[H1 H2]|H]].
    + left. exact H.
    + right. left. unfold JS.len in H1. split; [lia|].
      replace (Z.to_nat (JS.indexOfFrom l p (i + 1) - i))
        with (S (Z.to_nat (JS.indexOfFrom l p (i + 1) - (i + 1)))) by lia.
      exact H2.
    + destruct (Z.lt_ge_cases i 0) as [Hi|Hi]; [right; right; exact Hi|].
      lia.
Qed.

Lemma indexOf_found (l : list string) (p : string) :
  (JS.indexOf l p =? -1) = false ->
  0 <= JS.indexOf l p <= JS.len l - 1 /\ JS.index l (JS.indexOf l p) = Some p.
Proof.
  intros H. apply Z.eqb_neq in H. unfold JS.indexOf in *.
  destruct (indexOfFrom_range l p 0) as [E|[[H1 H2]|E]]; [contradiction| |lia].
  split; [lia|]. unfold JS.index.
  destruct (_ <? 0) eqn:L; [apply Z.ltb_lt in L; lia|].
  rewrite Z.sub_0_r in H2. exact H2.
Qed.

(** X24: The gallery that [openImageViewer] starts holds the media files of
    the listing in listing order, stands on the image asked for, and is
    within the bounds the slider keeps. *)
Theorem openImageViewer_gallery_inBounds (h : Host) (p : string) (s : t)
        (g : ImageGallerySlider.t) :
  activeGallery s = None ->
  activeGallery (openImageViewer h p s) = Some g ->
  ImageGallerySlider.imagePaths g = imageFilesOf (files s) /\
  JS.index (ImageGallerySlider.imagePaths g)
           (ImageGallerySlider.currentIndex g) = Some p /\
  GalleryBounds.inBounds g.
Proof.
  intros Hn. unfold openImageViewer. cbv zeta. fold (imageFilesOf (files s)).
  destruct (JS.indexOf (imageFilesOf (files s)) p =? -1) eqn:E.
  { rewrite Hn. discriminate. }
  destruct (indexOf_found _ _ E) as [Hr Hi].
  unfold add_log. cbn [activeGallery set_log set_activeGallery].
  intros G. inversion G. subst g. clear G.
  unfold ImageGallerySlider.constructor, GalleryBounds.inBounds.
  cbn [ImageGallerySlider.imagePaths ImageGallerySlider.currentIndex
       ImageGallerySlider.scrollOffset ImageGallerySlider.imageHeight
       ImageGallerySlider.terminalHeight].
  split; [reflexivity|]. split; [exact Hi|]. split; [exact Hr | lia].
Qed.

Lemma openImageViewer_gallery_inBounds_witness :
  exists g,
    activeGallery (openImageViewer Samples.host "/pics/a.png" Samples.browser)
    = Some g /\
    ImageGallerySlider.imagePaths g = ["/pics/a.png"] /\
    GalleryBounds.inBounds g.
Proof.
  eexists. split; [reflexivity|].
  destruct (openImageViewer_gallery_inBounds Samples.host "/pics/a.png"
              Samples.browser _ eq_refl eq_refl) as [A [_ B]].
  split; [exact A | exact B].
Defined.

End PointerProofs.

(** ** What the slider shows *)

Module GalleryExtras.

Import ImageGallerySlider GalleryBounds.
Import GalleryProofs.
Local Open Scope Z_scope.

Lemma filter_all_true {A : Type} (f : A -> bool) (l : list A) :
  (forall x, In x l -> f x = true) -> filter f l = l.
Proof.
  induction l as [|x l IH]; intros H; simpl; [reflexivity|].
  rewrite (H x (or_introl eq_refl)), IH; [reflexivity|].
  intros y Hy. apply H. right. exact Hy.
Qed.

(** X25: Within its bounds, the slider prints a full viewport: the rows from
    [scrollOffset] on, [terminalHeight - 6] of them, or the whole image
    if it is shorter; scrolling never leaves room unused. *)
Theorem printedRows_viewport (g : t) (a : Art) :
  imageData g = Some a ->
  coherent g ->
  inBounds g ->
  printedRows g = viewport g.
Proof.
  intros Ha Hc [_ Hs]. unfold coherent in Hc. rewrite Ha in Hc.
  unfold printedRows, viewport. rewrite Ha. cbv zeta. rewrite <- Hc.
  set (so := scrollOffset g) in *. set (ih := imageHeight g) in *.
  set (av := terminalHeight g - 6) in *.
  replace (Z.to_nat (Z.min (so + av) ih - so)) with (Z.to_nat (Z.min av ih))
    by lia.
  apply filter_all_true. intros y Hy. apply in_map_iff in Hy.
  destruct Hy as [i [<- Hi]]. apply in_seq in Hi. apply Z.ltb_lt. lia.
Qed.

(** [printedRows_viewport] at a slider holding a three-row image on a
    terminal with room for two rows, scrolled to the end. *)
Lemma printedRows_viewport_witness :
  printedRows
    (mk ["/shots/0.png"] 0 false 80 8 1
        (Some (Cells [Generator.mkCell 0 0 Generator.UPPER_HALF_BLOCK "";
                      Generator.mkCell 0 2 Generator.LOWER_HALF_BLOCK ""])) 3)
  = [1; 2].
Proof.
  set (g := mk _ _ _ _ _ _ _ _).
  assert (Ha : imageData g = imageData g) by reflexivity.
  assert (Hc : coherent g) by reflexivity.
  assert (Hb : inBounds g) by (unfold inBounds; simpl; lia).
  rewrite (printedRows_viewport g _ Ha Hc Hb). reflexivity.
Defined.

(** *** Every key *)

Lemma showCurrentImage_coherent (r : Generated) (g g' : t) :
  coherent g -> showCurrentImage r g = JS.Normal g' -> coherent g'.
Proof.
  intros Hc. unfold showCurrentImage.
  destruct (JS.len (imagePaths g) =? 0); [intros E; inversion E; subst; exact Hc|].
  destruct (JS.index (imagePaths g) (currentIndex g)); [|discriminate].
  destruct r as [|[a|]]; intros E; inversion E; subst; clear E.
  - exact Hc.
  - unfold coherent, displayWithNavigation, calculateImageDimensions, displayLength.
    reflexivity.
  - unfold coherent, displayWithNavigation, calculateImageDimensions.
    cbn [imageData set_imageData set_scrollOffset]. exact I.
Qed.

Lemma isNavigating_framed (b : bool) (g : t) :
  inBounds g /\ coherent g ->
  inBounds (set_isNavigating b g) /\ coherent (set_isNavigating b g).
Proof. intros H. exact H. Qed.

Lemma currentIndex_framed (i : Z) (g : t) :
  coherent g -> inBounds g -> 0 <= i <= JS.len (imagePaths g) - 1 ->
  inBounds (set_currentIndex i g) /\ coherent (set_currentIndex i g).
Proof.
  intros Hc [Hi Hs] Hr. split; [|exact Hc]. split; [exact Hr | exact Hs].
Qed.

Lemma scrollOffset_framed (o : Z) (g : t) :
  coherent g -> inBounds g ->
  0 <= o <= Z.max 0 (imageHeight g - (terminalHeight g - 6)) ->
  inBounds (set_scrollOffset o g) /\ coherent (set_scrollOffset o g).
Proof.
  intros Hc [Hi Hs] Hr. split; [|exact Hc]. split; [exact Hi | exact Hr].
Qed.

Lemma load_framed (r : Generated) (g : t) :
  inBounds g -> coherent g ->
  exists g', showCurrentImage r g = JS.Normal g' /\
             inBounds (set_isNavigating false g') /\
             coherent (set_isNavigating false g').
Proof.
  intros Hb Hc.
  destruct (showCurrentImage_inBounds r g Hb) as [g' [E [Hb' _]]].
  exists g'. split; [exact E|]. apply isNavigating_framed.
  split; [exact Hb' | exact (showCurrentImage_coherent r g g' Hc E)].
Qed.

(** X26: Whatever the key and whatever the generator answers, a slider
    within its bounds that knows the height of its image handles the
    key without an exception escaping and is within its bounds, knowing
    the height of its image, afterwards. *)
Theorem slider_handleKey_framed (key : string) (r : Generated) (g : t) :
  inBounds g ->
  coherent g ->
  handleKey key r g = ProcessExit \/
  exists g',
    (handleKey key r g = Handled g' \/ handleKey key r g = Exited g') /\
    inBounds g' /\ coherent g'.
Proof.
  intros Hb Hc. unfold handleKey.
  destruct (isNavigating g).
  { right. exists g. split; [left; reflexivity|]. split; assumption. }
  cbv zeta.
  pose proof (isNavigating_framed true g (conj Hb Hc)) as [Hb1 Hc1].
  set (g1 := set_isNavigating true g) in *. clearbody g1.
  destruct (String.eqb key "q" || String.eqb key "Q"); [left; reflexivity|].
  right.
  destruct (String.eqb key JS.ESC).
  { exists g1. split; [right; reflexivity|]. split; assumption. }
  destruct (String.eqb key keyLeft).
  { destruct (currentIndex g1 >? 0) eqn:E.
    - apply Z.gtb_lt in E.
      destruct (currentIndex_framed (currentIndex g1 - 1) g1 Hc1 Hb1)
        as [Hb2 Hc2]; [destruct Hb1; lia|].
      destruct (load_framed r _ Hb2 Hc2) as [g' [L [Hb' Hc']]].
      rewrite L. eexists. split; [left; reflexivity|]. split; assumption.
    - eexists. split; [left; reflexivity|]. split; assumption. }
  destruct (String.eqb key keyRight).
  { destruct (currentIndex g1 <? JS.len (imagePaths g1) - 1) eqn:E.
    - apply Z.ltb_lt in E.
      destruct (currentIndex_framed (currentIndex g1 + 1) g1 Hc1 Hb1)
        as [Hb2 Hc2]; [destruct Hb1; lia|].
      destruct (load_framed r _ Hb2 Hc2) as [g' [L [Hb' Hc']]].
      rewrite L. eexists. split; [left; reflexivity|]. split; assumption.
    - eexists. split; [left; reflexivity|]. split; assumption. }
  destruct (String.eqb key keyUp).
  { destruct (scrollOffset g1 >? 0) eqn:E.
    - apply Z.gtb_lt in E.
      destruct (scrollOffset_framed (Z.max 0 (scrollOffset g1 - 1)) g1 Hc1 Hb1)
        as [Hb2 Hc2]; [destruct Hb1; lia|].
      eexists. split; [left; reflexivity|]. split; assumption.
    - eexists. split; [left; reflexivity|]. split; assumption. }
  destruct (String.eqb key keyDown).
  { destruct (scrollOffset g1 <? _) eqn:E.
    - apply Z.ltb_lt in E.
      destruct (scrollOffset_framed
                  (Z.min (Z.max 0 (imageHeight g1 - (terminalHeight g1 - 6)))
                         (scrollOffset g1 + 1)) g1 Hc1 Hb1)
        as [Hb2 Hc2]; [destruct Hb1; lia|].
      eexists. split; [left; reflexivity|]. split; assumption.
    - eexists. split; [left; reflexivity|]. split; assumption. }
  eexists. split; [left; reflexivity|]. split; assumption.
Qed.

(** [slider_handleKey_framed] at the sample gallery, for a key the
    slider does not bind. *)
Lemma slider_handleKey_framed_witness :
  inBounds Samples.gallery /\
  coherent Samples.gallery /\
  (handleKey "x" Rejects Samples.gallery = ProcessExit \/
   exists g',
     (handleKey "x" Rejects Samples.gallery = Handled g' \/
      handleKey "x" Rejects Samples.gallery = Exited g') /\
     inBounds g' /\ coherent g').
Proof.
  assert (Hb : inBounds Samples.gallery) by (unfold inBounds; simpl; lia).
  assert (Hc : coherent Samples.gallery) by exact I.
  split; [exact Hb|]. split; [exact Hc|].
  exact (slider_handleKey_framed "x" Rejects Samples.gallery Hb Hc).
Defined.

(** *** The generator of generate.js behind the slider *)

Lemma showCurrentImage_no_image (raw : option Generator.ImageData) (g : t) :
  imageData g = None ->
  match showCurrentImage (awaitGenerate (Generator.generate raw)) g with
  | JS.Normal g' => imageData g' = None
  | JS.Thrown g' => imageData g' = None
  end.
Proof.
  intros Hn. unfold showCurrentImage.
  destruct (JS.len (imagePaths g) =? 0); [exact Hn|].
  destruct (JS.index (imagePaths g) (currentIndex g)); [|exact Hn].
  destruct raw as [img|]; simpl; [reflexivity | exact Hn].
Qed.

(** X27: [generate] returns nothing, so a slider fed by it that holds no
    image never comes to hold one: whatever the key and whatever sharp
    delivers, [imageData] stays unset and [displayWithNavigation] has no
    row to write. *)
Theorem slider_never_holds_image (key : string)
        (raw : option Generator.ImageData) (g : t) :
  imageData g = None ->
  match handleKey key (awaitGenerate (Generator.generate raw)) g with
  | Handled g' => imageData g' = None /\ printedRows g' = []
  | Uncaught g' => imageData g' = None /\ printedRows g' = []
  | Exited g' => imageData g' = None /\ printedRows g' = []
  | ProcessExit => True
  end.
Proof.
  intros Hn.
  assert (P : forall g0, imageData g0 = None ->
                         imageData g0 = None /\ printedRows g0 = []).
  { intros g0 H0. split; [exact H0|]. unfold printedRows. rewrite H0.
    reflexivity. }
  assert (L : forall g0, imageData g0 = None ->
              match
                match showCurrentImage
                        (awaitGenerate (Generator.generate raw)) g0 with
                | JS.Normal g' => Handled (set_isNavigating false g')
                | JS.Thrown g' => Uncaught g'
                end
              with
              | Handled g' => imageData g' = None /\ printedRows g' = []
              | Uncaught g' => imageData g' = None /\ printedRows g' = []
              | Exited g' => imageData g' = None /\ printedRows g' = []
              | ProcessExit => True
              end).
  { intros g0 H0. pose proof (showCurrentImage_no_image raw g0 H0) as S.
    destruct (showCurrentImage _ g0); apply P; exact S. }
  unfold handleKey. destruct (isNavigating g); [apply P; exact Hn|].
  cbv zeta.
  destruct (String.eqb key "q" || String.eqb key "Q"); [exact I|].
  destruct (String.eqb key JS.ESC); [apply P; exact Hn|].
  destruct (String.eqb key keyLeft).
  { destruct (_ >? 0); [apply L | apply P]; exact Hn. }
  destruct (String.eqb key keyRight).
  { destruct (_ <? _); [apply L | apply P]; exact Hn. }
  destruct (String.eqb key keyUp).
  { destruct (_ >? 0); apply P; exact Hn. }
  destruct (String.eqb key keyDown).
  { destruct (_ <? _); apply P; exact Hn. }
  apply P. exact Hn.
Qed.

(** [slider_never_holds_image] at a new slider on the sample images,
    for the Right key, with a 2 by 2 image delivered. *)
Lemma slider_never_holds_image_witness :
  exists g',
    handleKey keyRight
      (awaitGenerate (Generator.generate (Some Samples.twoByTwo)))
      (constructor ["/shots/0.png"; "/shots/1.png"] 0 (Some 80) (Some 24))
    = Handled g' /\
    currentIndex g' = 1 /\ imageData g' = None /\ printedRows g' = [].
Proof.
  pose proof (slider_never_holds_image keyRight (Some Samples.twoByTwo)
                (constructor ["/shots/0.png"; "/shots/1.png"] 0
                             (Some 80) (Some 24)) eq_refl) as H.
  eexists. split; [reflexivity|]. split; [reflexivity|]. exact H.
Defined.

End GalleryExtras.
